(** * Space Invaders Enhanced: the simulation core of [src/main.py]

    A shallow embedding of the game's state container ([GameState]), of its
    per-frame update functions, of the input handlers and of one iteration of
    the main loop, followed by the properties of the specification.

    Conventions.
    - Python [int] values are [Z].  Values that the program computes with
      [float] arithmetic (enemy and power-up coordinates, enemy velocities,
      the difficulty multiplier) are binary64 primitive floats, the arithmetic
      of CPython's [float].  An enemy's ['x'] and ['y'] start as [int] and
      become [float] at the first update; they are kept as floats throughout,
      which is exact for integers of magnitude below 2^53.
    - The module-level globals [game] and [game_state], and the hidden state
      of the [random] module, are passed explicitly.
    - Rendering, sound and [print] have no effect on the simulation state and
      are left out. *)

From Stdlib Require Import ZArith List Bool Lia Floats Permutation.
From Stdlib Require Uint63.
Import ListNotations.
Set Warnings "-inexact-float".
Open Scope Z_scope.

(** ** Config & globals *)

Definition SCREEN_WIDTH : Z := 800.
Definition SCREEN_HEIGHT : Z := 600.
Definition PLAYER_SPEED : Z := 7.
Definition ENEMY_SPEED : Z := 2.
Definition BULLET_SPEED : Z := 10.
Definition ENEMY_DROP_SPEED : Z := 30.
Definition MAX_ENEMIES : Z := 8.
Definition ENEMY_SPAWN_RATE : Z := 120.
Definition ENEMY_HEALTH_INCREASE_RATE : Z := 3.
Definition OBSTACLE_SPAWN_RATE : Z := 90.
Definition OBSTACLE_SPEED_MIN : Z := 8.
Definition OBSTACLE_SPEED_MAX : Z := 14.

Inductive enemy_type : Type := ENEMY_BASIC | ENEMY_FAST | ENEMY_TANK.

Inductive mode : Type := MENU | PLAYING | GAME_OVER.

Definition enemy_type_eqb (a b : enemy_type) : bool :=
  match a, b with
  | ENEMY_BASIC, ENEMY_BASIC | ENEMY_FAST, ENEMY_FAST | ENEMY_TANK, ENEMY_TANK => true
  | _, _ => false
  end.

(** ** Numbers *)

(** Python's conversion of an [int] to [float] in mixed arithmetic and in
    comparisons, exact for magnitudes below 2^53 (the program converts screen
    coordinates, small constants, draws below 2^53 and the level). *)
Definition float_of_int (z : Z) : float :=
  if z <? 0 then (- of_uint63 (Uint63.of_Z (- z)))%float
  else of_uint63 (Uint63.of_Z z).

(** [a > b], [a >= b] on floats. *)
Definition fgtb (a b : float) : bool := (b <? a)%float.
Definition fgeb (a b : float) : bool := (b <=? a)%float.

(** ** Python's [list.remove]

    [l.remove(v)] deletes the first element of [l] that is [v] itself or
    compares equal to it. *)
Fixpoint list_remove {A : Type} (eqb : A -> A -> bool) (v : A) (l : list A) : list A :=
  match l with
  | [] => []
  | a :: l' => if eqb a v then l' else a :: list_remove eqb v l'
  end.

(** The update loops have the shape
    [for o in coll[:]: ...mutate o...; coll.remove(o)].
    The snapshot [coll[:]] shares its dicts with [coll], so a mutation of [o]
    is seen in [coll], and the only deletions are of [o] or of an element
    before it.  While the snapshot is traversed, [coll] is therefore
    [done ++ o :: todo], with [done] the survivors among the elements already
    visited and [todo] the part of the snapshot not visited yet.
    [coll.remove(o)] deletes [o] itself, unless an element of [done] has equal
    fields: then the first such element goes and [o] stays.  The function
    returns the new [done]. *)
Definition remove_current {A : Type} (eqb : A -> A -> bool) (done : list A) (o : A)
  : list A :=
  if existsb (fun a => eqb a o) done then list_remove eqb o done ++ [o] else done.

(** ** The [random] module

    Its generator is a stream of raw draws; every call consumes one draw. *)
Definition rng : Type := nat -> Z.

Definition Rand (A : Type) : Type := rng -> A * rng.

Definition ret {A : Type} (a : A) : Rand A := fun s => (a, s).

Definition bind {A B : Type} (m : Rand A) (k : A -> Rand B) : Rand B :=
  fun s => let (a, s') := m s in k a s'.

Notation "x <- m ;; k" := (bind m (fun x => k))
  (at level 61, m at next level, right associativity).
Notation "' pat <- m ;; k" := (bind m (fun x => match x with pat => k end))
  (at level 61, pat pattern, m at next level, right associativity).

Definition next_raw : Rand Z := fun s => (s O, fun n => s (S n)).

(** [_randbelow(n)]: an integer in [[0, n)]. *)
Definition randbelow (n : Z) : Rand Z := k <- next_raw ;; ret (k mod n).

(** [random.random()]: a multiple of 2^-53 in [[0, 1)]. *)
Definition random : Rand float :=
  k <- next_raw ;; ret (float_of_int (k mod 2 ^ 53) * 0x1p-53)%float.

(** [random.randint(a, b)]: an integer in [[a, b]]. *)
Definition randint (a b : Z) : Rand Z := k <- randbelow (b - a + 1) ;; ret (a + k).

(** [random.choice(seq)]: the element at a uniformly drawn index. *)
Definition choice {A : Type} (d : A) (seq : list A) : Rand A :=
  k <- randbelow (Z.of_nat (length seq)) ;; ret (nth (Z.to_nat k) seq d).

(** [random.uniform(a, b)], which is [a + (b - a) * random()]. *)
Definition uniform (a b : float) : Rand float :=
  r <- random ;; ret (a + (b - a) * r)%float.

Inductive spawn_side : Type := Top | Left | Right.

(** [random.choices(["top", "left", "right"], weights=[60, 20, 20], k=1)[0]]:
    bisection of [random() * 100.0] in the cumulative weights [60, 80, 100]. *)
Definition choices_spawn_from : Rand spawn_side :=
  r <- random ;;
  let v := (r * 100)%float in
  ret (if (v <? 60)%float then Top else if (v <? 80)%float then Left else Right).

(** ** Entities (the dicts of the source) *)

Module Enemy.
Record t : Type := mk {
  x : float;
  y : float;
  x_change : float;
  y_change : float;
  fall_speed : float;
  type : enemy_type;
  health : Z;
  max_health : Z;
  points : Z
}.

Definition set_x (v : float) (e : t) : t :=
  mk v (y e) (x_change e) (y_change e) (fall_speed e) (type e) (health e)
     (max_health e) (points e).
Definition set_y (v : float) (e : t) : t :=
  mk (x e) v (x_change e) (y_change e) (fall_speed e) (type e) (health e)
     (max_health e) (points e).
Definition set_x_change (v : float) (e : t) : t :=
  mk (x e) (y e) v (y_change e) (fall_speed e) (type e) (health e)
     (max_health e) (points e).
Definition set_health (v : Z) (e : t) : t :=
  mk (x e) (y e) (x_change e) (y_change e) (fall_speed e) (type e) v
     (max_health e) (points e).

(** Dict equality: key by key, with [==] of the values. *)
Definition eqb (a b : t) : bool :=
  (x a =? x b)%float && (y a =? y b)%float && (x_change a =? x_change b)%float
  && (y_change a =? y_change b)%float && (fall_speed a =? fall_speed b)%float
  && enemy_type_eqb (type a) (type b) && (health a =? health b)
  && (max_health a =? max_health b) && (points a =? points b).
End Enemy.

Module Bullet.
Record t : Type := mk { x : Z; y : Z; speed : Z }.

Definition set_y (v : Z) (b : t) : t := mk (x b) v (speed b).

Definition eqb (a b : t) : bool :=
  (x a =? x b) && (y a =? y b) && (speed a =? speed b).
End Bullet.

Module Obstacle.
Record t : Type := mk {
  x : Z;
  y : Z;
  w : Z;
  h : Z;
  speed : Z;
  color : Z * Z * Z
}.

Definition set_y (v : Z) (o : t) : t := mk (x o) v (w o) (h o) (speed o) (color o).

Definition color_eqb (a b : Z * Z * Z) : bool :=
  let '(r1, g1, b1) := a in
  let '(r2, g2, b2) := b in
  (r1 =? r2) && (g1 =? g2) && (b1 =? b2).

Definition eqb (a b : t) : bool :=
  (x a =? x b) && (y a =? y b) && (w a =? w b) && (h a =? h b)
  && (speed a =? speed b) && color_eqb (color a) (color b).
End Obstacle.

Module PowerUp.
Inductive kind : Type := rapid_fire.

Record t : Type := mk { x : float; y : float; type : kind; speed : Z }.

Definition set_y (v : float) (p : t) : t := mk (x p) v (type p) (speed p).

Definition eqb (a b : t) : bool :=
  (x a =? x b)%float && (y a =? y b)%float && (speed a =? speed b).
End PowerUp.

(** ** Game state container *)

Record GameState : Type := mkGameState {
  playerX : Z;
  playerY : Z;
  playerX_change : Z;
  lives : Z;
  score_value : Z;
  level : Z;
  game_over : bool;
  difficulty_multiplier : float;
  enemies : list Enemy.t;
  enemy_spawn_timer : Z;
  max_enemies_on_screen : Z;
  obstacles : list Obstacle.t;
  obstacle_spawn_timer : Z;
  bullets : list Bullet.t;
  shoot_cooldown : Z;
  max_bullets : Z;
  rapid_fire_timer : Z;
  power_ups : list PowerUp.t
}.

(** Attribute assignment, one function per attribute. *)
Definition set_playerX (v : Z) (g : GameState) : GameState :=
  {|
    playerX := v; playerY := playerY g; playerX_change := playerX_change g;
    lives := lives g; score_value := score_value g; level := level g;
    game_over := game_over g; difficulty_multiplier := difficulty_multiplier g;
    enemies := enemies g; enemy_spawn_timer := enemy_spawn_timer g;
    max_enemies_on_screen := max_enemies_on_screen g; obstacles := obstacles g;
    obstacle_spawn_timer := obstacle_spawn_timer g; bullets := bullets g;
    shoot_cooldown := shoot_cooldown g; max_bullets := max_bullets g;
    rapid_fire_timer := rapid_fire_timer g; power_ups := power_ups g
  |}.

Definition set_playerY (v : Z) (g : GameState) : GameState :=
  {|
    playerX := playerX g; playerY := v; playerX_change := playerX_change g;
    lives := lives g; score_value := score_value g; level := level g;
    game_over := game_over g; difficulty_multiplier := difficulty_multiplier g;
    enemies := enemies g; enemy_spawn_timer := enemy_spawn_timer g;
    max_enemies_on_screen := max_enemies_on_screen g; obstacles := obstacles g;
    obstacle_spawn_timer := obstacle_spawn_timer g; bullets := bullets g;
    shoot_cooldown := shoot_cooldown g; max_bullets := max_bullets g;
    rapid_fire_timer := rapid_fire_timer g; power_ups := power_ups g
  |}.

Definition set_playerX_change (v : Z) (g : GameState) : GameState :=
  {|
    playerX := playerX g; playerY := playerY g; playerX_change := v; lives := lives g;
    score_value := score_value g; level := level g; game_over := game_over g;
    difficulty_multiplier := difficulty_multiplier g; enemies := enemies g;
    enemy_spawn_timer := enemy_spawn_timer g;
    max_enemies_on_screen := max_enemies_on_screen g; obstacles := obstacles g;
    obstacle_spawn_timer := obstacle_spawn_timer g; bullets := bullets g;
    shoot_cooldown := shoot_cooldown g; max_bullets := max_bullets g;
    rapid_fire_timer := rapid_fire_timer g; power_ups := power_ups g
  |}.

Definition set_lives (v : Z) (g : GameState) : GameState :=
  {|
    playerX := playerX g; playerY := playerY g; playerX_change := playerX_change g;
    lives := v; score_value := score_value g; level := level g;
    game_over := game_over g; difficulty_multiplier := difficulty_multiplier g;
    enemies := enemies g; enemy_spawn_timer := enemy_spawn_timer g;
    max_enemies_on_screen := max_enemies_on_screen g; obstacles := obstacles g;
    obstacle_spawn_timer := obstacle_spawn_timer g; bullets := bullets g;
    shoot_cooldown := shoot_cooldown g; max_bullets := max_bullets g;
    rapid_fire_timer := rapid_fire_timer g; power_ups := power_ups g
  |}.

Definition set_score_value (v : Z) (g : GameState) : GameState :=
  {|
    playerX := playerX g; playerY := playerY g; playerX_change := playerX_change g;
    lives := lives g; score_value := v; level := level g; game_over := game_over g;
    difficulty_multiplier := difficulty_multiplier g; enemies := enemies g;
    enemy_spawn_timer := enemy_spawn_timer g;
    max_enemies_on_screen := max_enemies_on_screen g; obstacles := obstacles g;
    obstacle_spawn_timer := obstacle_spawn_timer g; bullets := bullets g;
    shoot_cooldown := shoot_cooldown g; max_bullets := max_bullets g;
    rapid_fire_timer := rapid_fire_timer g; power_ups := power_ups g
  |}.

Definition set_level (v : Z) (g : GameState) : GameState :=
  {|
    playerX := playerX g; playerY := playerY g; playerX_change := playerX_change g;
    lives := lives g; score_value := score_value g; level := v;
    game_over := game_over g; difficulty_multiplier := difficulty_multiplier g;
    enemies := enemies g; enemy_spawn_timer := enemy_spawn_timer g;
    max_enemies_on_screen := max_enemies_on_screen g; obstacles := obstacles g;
    obstacle_spawn_timer := obstacle_spawn_timer g; bullets := bullets g;
    shoot_cooldown := shoot_cooldown g; max_bullets := max_bullets g;
    rapid_fire_timer := rapid_fire_timer g; power_ups := power_ups g
  |}.

Definition set_game_over (v : bool) (g : GameState) : GameState :=
  {|
    playerX := playerX g; playerY := playerY g; playerX_change := playerX_change g;
    lives := lives g; score_value := score_value g; level := level g; game_over := v;
    difficulty_multiplier := difficulty_multiplier g; enemies := enemies g;
    enemy_spawn_timer := enemy_spawn_timer g;
    max_enemies_on_screen := max_enemies_on_screen g; obstacles := obstacles g;
    obstacle_spawn_timer := obstacle_spawn_timer g; bullets := bullets g;
    shoot_cooldown := shoot_cooldown g; max_bullets := max_bullets g;
    rapid_fire_timer := rapid_fire_timer g; power_ups := power_ups g
  |}.

Definition set_difficulty_multiplier (v : float) (g : GameState) : GameState :=
  {|
    playerX := playerX g; playerY := playerY g; playerX_change := playerX_change g;
    lives := lives g; score_value := score_value g; level := level g;
    game_over := game_over g; difficulty_multiplier := v; enemies := enemies g;
    enemy_spawn_timer := enemy_spawn_timer g;
    max_enemies_on_screen := max_enemies_on_screen g; obstacles := obstacles g;
    obstacle_spawn_timer := obstacle_spawn_timer g; bullets := bullets g;
    shoot_cooldown := shoot_cooldown g; max_bullets := max_bullets g;
    rapid_fire_timer := rapid_fire_timer g; power_ups := power_ups g
  |}.

Definition set_enemies (v : list Enemy.t) (g : GameState) : GameState :=
  {|
    playerX := playerX g; playerY := playerY g; playerX_change := playerX_change g;
    lives := lives g; score_value := score_value g; level := level g;
    game_over := game_over g; difficulty_multiplier := difficulty_multiplier g;
    enemies := v; enemy_spawn_timer := enemy_spawn_timer g;
    max_enemies_on_screen := max_enemies_on_screen g; obstacles := obstacles g;
    obstacle_spawn_timer := obstacle_spawn_timer g; bullets := bullets g;
    shoot_cooldown := shoot_cooldown g; max_bullets := max_bullets g;
    rapid_fire_timer := rapid_fire_timer g; power_ups := power_ups g
  |}.

Definition set_enemy_spawn_timer (v : Z) (g : GameState) : GameState :=
  {|
    playerX := playerX g; playerY := playerY g; playerX_change := playerX_change g;
    lives := lives g; score_value := score_value g; level := level g;
    game_over := game_over g; difficulty_multiplier := difficulty_multiplier g;
    enemies := enemies g; enemy_spawn_timer := v;
    max_enemies_on_screen := max_enemies_on_screen g; obstacles := obstacles g;
    obstacle_spawn_timer := obstacle_spawn_timer g; bullets := bullets g;
    shoot_cooldown := shoot_cooldown g; max_bullets := max_bullets g;
    rapid_fire_timer := rapid_fire_timer g; power_ups := power_ups g
  |}.

Definition set_max_enemies_on_screen (v : Z) (g : GameState) : GameState :=
  {|
    playerX := playerX g; playerY := playerY g; playerX_change := playerX_change g;
    lives := lives g; score_value := score_value g; level := level g;
    game_over := game_over g; difficulty_multiplier := difficulty_multiplier g;
    enemies := enemies g; enemy_spawn_timer := enemy_spawn_timer g;
    max_enemies_on_screen := v; obstacles := obstacles g;
    obstacle_spawn_timer := obstacle_spawn_timer g; bullets := bullets g;
    shoot_cooldown := shoot_cooldown g; max_bullets := max_bullets g;
    rapid_fire_timer := rapid_fire_timer g; power_ups := power_ups g
  |}.

Definition set_obstacles (v : list Obstacle.t) (g : GameState) : GameState :=
  {|
    playerX := playerX g; playerY := playerY g; playerX_change := playerX_change g;
    lives := lives g; score_value := score_value g; level := level g;
    game_over := game_over g; difficulty_multiplier := difficulty_multiplier g;
    enemies := enemies g; enemy_spawn_timer := enemy_spawn_timer g;
    max_enemies_on_screen := max_enemies_on_screen g; obstacles := v;
    obstacle_spawn_timer := obstacle_spawn_timer g; bullets := bullets g;
    shoot_cooldown := shoot_cooldown g; max_bullets := max_bullets g;
    rapid_fire_timer := rapid_fire_timer g; power_ups := power_ups g
  |}.

Definition set_obstacle_spawn_timer (v : Z) (g : GameState) : GameState :=
  {|
    playerX := playerX g; playerY := playerY g; playerX_change := playerX_change g;
    lives := lives g; score_value := score_value g; level := level g;
    game_over := game_over g; difficulty_multiplier := difficulty_multiplier g;
    enemies := enemies g; enemy_spawn_timer := enemy_spawn_timer g;
    max_enemies_on_screen := max_enemies_on_screen g; obstacles := obstacles g;
    obstacle_spawn_timer := v; bullets := bullets g;
    shoot_cooldown := shoot_cooldown g; max_bullets := max_bullets g;
    rapid_fire_timer := rapid_fire_timer g; power_ups := power_ups g
  |}.

Definition set_bullets (v : list Bullet.t) (g : GameState) : GameState :=
  {|
    playerX := playerX g; playerY := playerY g; playerX_change := playerX_change g;
    lives := lives g; score_value := score_value g; level := level g;
    game_over := game_over g; difficulty_multiplier := difficulty_multiplier g;
    enemies := enemies g; enemy_spawn_timer := enemy_spawn_timer g;
    max_enemies_on_screen := max_enemies_on_screen g; obstacles := obstacles g;
    obstacle_spawn_timer := obstacle_spawn_timer g; bullets := v;
    shoot_cooldown := shoot_cooldown g; max_bullets := max_bullets g;
    rapid_fire_timer := rapid_fire_timer g; power_ups := power_ups g
  |}.

Definition set_shoot_cooldown (v : Z) (g : GameState) : GameState :=
  {|
    playerX := playerX g; playerY := playerY g; playerX_change := playerX_change g;
    lives := lives g; score_value := score_value g; level := level g;
    game_over := game_over g; difficulty_multiplier := difficulty_multiplier g;
    enemies := enemies g; enemy_spawn_timer := enemy_spawn_timer g;
    max_enemies_on_screen := max_enemies_on_screen g; obstacles := obstacles g;
    obstacle_spawn_timer := obstacle_spawn_timer g; bullets := bullets g;
    shoot_cooldown := v; max_bullets := max_bullets g;
    rapid_fire_timer := rapid_fire_timer g; power_ups := power_ups g
  |}.

Definition set_max_bullets (v : Z) (g : GameState) : GameState :=
  {|
    playerX := playerX g; playerY := playerY g; playerX_change := playerX_change g;
    lives := lives g; score_value := score_value g; level := level g;
    game_over := game_over g; difficulty_multiplier := difficulty_multiplier g;
    enemies := enemies g; enemy_spawn_timer := enemy_spawn_timer g;
    max_enemies_on_screen := max_enemies_on_screen g; obstacles := obstacles g;
    obstacle_spawn_timer := obstacle_spawn_timer g; bullets := bullets g;
    shoot_cooldown := shoot_cooldown g; max_bullets := v;
    rapid_fire_timer := rapid_fire_timer g; power_ups := power_ups g
  |}.

Definition set_rapid_fire_timer (v : Z) (g : GameState) : GameState :=
  {|
    playerX := playerX g; playerY := playerY g; playerX_change := playerX_change g;
    lives := lives g; score_value := score_value g; level := level g;
    game_over := game_over g; difficulty_multiplier := difficulty_multiplier g;
    enemies := enemies g; enemy_spawn_timer := enemy_spawn_timer g;
    max_enemies_on_screen := max_enemies_on_screen g; obstacles := obstacles g;
    obstacle_spawn_timer := obstacle_spawn_timer g; bullets := bullets g;
    shoot_cooldown := shoot_cooldown g; max_bullets := max_bullets g;
    rapid_fire_timer := v; power_ups := power_ups g
  |}.

Definition set_power_ups (v : list PowerUp.t) (g : GameState) : GameState :=
  {|
    playerX := playerX g; playerY := playerY g; playerX_change := playerX_change g;
    lives := lives g; score_value := score_value g; level := level g;
    game_over := game_over g; difficulty_multiplier := difficulty_multiplier g;
    enemies := enemies g; enemy_spawn_timer := enemy_spawn_timer g;
    max_enemies_on_screen := max_enemies_on_screen g; obstacles := obstacles g;
    obstacle_spawn_timer := obstacle_spawn_timer g; bullets := bullets g;
    shoot_cooldown := shoot_cooldown g; max_bullets := max_bullets g;
    rapid_fire_timer := rapid_fire_timer g; power_ups := v
  |}.

(** [GameState.spawn_enemy]: one enemy with a type, an origin and a fall
    speed, unless the cap is reached. *)
Definition spawn_enemy (self : GameState) : Rand GameState :=
  if Z.of_nat (length (enemies self)) >=? max_enemies_on_screen self then ret self
  else
    enemy_type <-
      (if level self >=? 5 then choice ENEMY_BASIC [ENEMY_BASIC; ENEMY_FAST; ENEMY_TANK]
       else if level self >=? 3 then choice ENEMY_BASIC [ENEMY_BASIC; ENEMY_FAST]
       else ret ENEMY_BASIC) ;;
    let speed := (float_of_int ENEMY_SPEED * difficulty_multiplier self)%float in
    let '(health, base_speed, points) :=
      match enemy_type with
      | ENEMY_BASIC => (1 + level self / ENEMY_HEALTH_INCREASE_RATE, speed, 10)
      | ENEMY_FAST =>
          (1 + level self / ENEMY_HEALTH_INCREASE_RATE, (speed * 1.8)%float, 20)
      | ENEMY_TANK =>
          (3 + level self / ENEMY_HEALTH_INCREASE_RATE, (speed * 0.6)%float, 30)
      end in
    spawn_from <- choices_spawn_from ;;
    u <- uniform 0.4 1.2 ;;
    let fall_speed := (u * (1 + 0.1 * float_of_int (level self - 1)))%float in
    '(x, y, x_change) <-
      match spawn_from with
      | Top =>
          x <- randint 0 (SCREEN_WIDTH - 64) ;;
          y <- randint (-140) (-60) ;;
          d <- choice true [true; false] ;;
          ret (x, y, if d : bool then base_speed else (- base_speed)%float)
      | Left =>
          y <- randint 60 200 ;;
          ret (-64, y, abs base_speed)
      | Right =>
          y <- randint 60 200 ;;
          ret (SCREEN_WIDTH, y, (- abs base_speed)%float)
      end ;;
    ret (set_enemies
           (enemies self ++
            [Enemy.mk (float_of_int x) (float_of_int y) x_change
               (float_of_int ENEMY_DROP_SPEED) fall_speed enemy_type
               health health points])
           self).

(** [for _ in range(n): f()]. *)
Fixpoint repeat_call (n : nat) (f : GameState -> Rand GameState) (self : GameState)
  : Rand GameState :=
  match n with
  | O => ret self
  | S n' => self <- f self ;; repeat_call n' f self
  end.

Definition spawn_initial_enemies (self : GameState) : Rand GameState :=
  repeat_call 4 spawn_enemy self.

Definition reset_game (self : GameState) : Rand GameState :=
  let self := set_playerX (SCREEN_WIDTH / 2 - 32) self in
  let self := set_playerY (SCREEN_HEIGHT - 120) self in
  let self := set_playerX_change 0 self in
  let self := set_lives 3 self in
  let self := set_score_value 0 self in
  let self := set_level 1 self in
  let self := set_game_over false self in
  let self := set_difficulty_multiplier 1.0%float self in
  let self := set_enemies [] self in
  let self := set_enemy_spawn_timer 0 self in
  let self := set_max_enemies_on_screen 6 self in
  let self := set_obstacles [] self in
  let self := set_obstacle_spawn_timer 0 self in
  let self := set_bullets [] self in
  let self := set_shoot_cooldown 0 self in
  let self := set_max_bullets 3 self in
  let self := set_rapid_fire_timer 0 self in
  let self := set_power_ups [] self in
  spawn_initial_enemies self.

(** [GameState.spawn_obstacle]. *)
Definition spawn_obstacle (self : GameState) : Rand GameState :=
  s <- randint OBSTACLE_SPEED_MIN OBSTACLE_SPEED_MAX ;;
  let speed := s + level self / 2 in
  x <- randint 0 (SCREEN_WIDTH - 24) ;;
  ret (set_obstacles (obstacles self ++ [Obstacle.mk x (-24) 20 20 speed (200, 180, 60)])
         self).

(** An object before [__init__] has run; [reset_game] assigns every
    attribute. *)
Definition blank : GameState :=
  mkGameState 0 0 0 0 0 0 false 0%float [] 0 0 [] 0 [] 0 0 0 [].

(** ** Core mechanics *)

(** [is_collision]: distance-based circular check.  Python computes the
    squares [d ** 2] with the [pow] of the C library; the model takes the
    correctly rounded squares, the float products [d * d].  A [pow] that is
    off in the last place can decide a test at the threshold the other way,
    and Python raises [OverflowError] where the product is infinite.  The
    properties below that hold of every state or of every session do not
    depend on what the test returns; the concrete sessions evaluate it. *)
Definition is_collision (x1 y1 x2 y2 threshold : float) : bool :=
  let distance :=
    sqrt ((x1 - x2) * (x1 - x2) + (y1 - y2) * (y1 - y2))%float in
  (distance <? threshold)%float.

Definition update_player (game : GameState) : GameState :=
  let game := set_playerX (playerX game + playerX_change game) game in
  if playerX game <=? 0 then set_playerX 0 game
  else if playerX game >=? SCREEN_WIDTH - 64 then set_playerX (SCREEN_WIDTH - 64) game
  else game.

Definition create_bullet (game : GameState) : GameState :=
  let cooldown := if rapid_fire_timer game >? 0 then 5 else 15 in
  let max_bullets := if rapid_fire_timer game >? 0 then 5 else max_bullets game in
  if (shoot_cooldown game <=? 0)
     && (Z.of_nat (length (bullets game)) <? max_bullets)
  then
    let game :=
      set_bullets (bullets game ++ [Bullet.mk (playerX game) (playerY game) BULLET_SPEED])
        game in
    set_shoot_cooldown cooldown game
  else game.

(** The loop of [update_bullets]; [done] and [todo] as for [remove_current]. *)
Fixpoint bullets_loop (done todo : list Bullet.t) : list Bullet.t :=
  match todo with
  | [] => done
  | bullet :: todo' =>
      let bullet := Bullet.set_y (Bullet.y bullet - Bullet.speed bullet) bullet in
      if Bullet.y bullet <? 0
      then bullets_loop (remove_current Bullet.eqb done bullet) todo'
      else bullets_loop (done ++ [bullet]) todo'
  end.

Definition update_bullets (game : GameState) : GameState :=
  let game :=
    if shoot_cooldown game >? 0 then set_shoot_cooldown (shoot_cooldown game - 1) game
    else game in
  let game :=
    if rapid_fire_timer game >? 0
    then set_rapid_fire_timer (rapid_fire_timer game - 1) game
    else game in
  set_bullets (bullets_loop [] (bullets game)) game.

(** The loop of [update_power_ups].  While it runs, [power_ups game] holds
    the [done] part of the list. *)
Fixpoint power_ups_loop (todo : list PowerUp.t) (game : GameState) : GameState :=
  match todo with
  | [] => game
  | power_up :: todo' =>
      let power_up :=
        PowerUp.set_y (PowerUp.y power_up + float_of_int (PowerUp.speed power_up))%float
          power_up in
      if fgtb (PowerUp.y power_up) (float_of_int SCREEN_HEIGHT) then
        power_ups_loop todo'
          (set_power_ups (remove_current PowerUp.eqb (power_ups game) power_up) game)
      else if is_collision (PowerUp.x power_up) (PowerUp.y power_up)
                (float_of_int (playerX game)) (float_of_int (playerY game)) 40
      then
        let game :=
          match PowerUp.type power_up with
          | PowerUp.rapid_fire => set_rapid_fire_timer 300 game
          end in
        power_ups_loop todo'
          (set_power_ups (remove_current PowerUp.eqb (power_ups game) power_up) game)
      else power_ups_loop todo' (set_power_ups (power_ups game ++ [power_up]) game)
  end.

Definition update_power_ups (game : GameState) : GameState :=
  power_ups_loop (power_ups game) (set_power_ups [] game).

(** Lines 356-365 of [update_enemies]: the horizontal move, the bounce with
    its step down, and the downward drift. *)
Definition move_enemy (enemy : Enemy.t) : Enemy.t :=
  let enemy := Enemy.set_x (Enemy.x enemy + Enemy.x_change enemy)%float enemy in
  let enemy :=
    if (Enemy.x enemy <=? 0)%float then
      let enemy := Enemy.set_x_change (abs (Enemy.x_change enemy)) enemy in
      Enemy.set_y (Enemy.y enemy + Enemy.y_change enemy)%float enemy
    else if fgeb (Enemy.x enemy) (float_of_int (SCREEN_WIDTH - 64)) then
      let enemy := Enemy.set_x_change (- abs (Enemy.x_change enemy))%float enemy in
      Enemy.set_y (Enemy.y enemy + Enemy.y_change enemy)%float enemy
    else enemy in
  Enemy.set_y (Enemy.y enemy + Enemy.fall_speed enemy)%float enemy.

Definition hits (enemy : Enemy.t) (bullet : Bullet.t) : bool :=
  is_collision (Enemy.x enemy) (Enemy.y enemy)
    (float_of_int (Bullet.x bullet)) (float_of_int (Bullet.y bullet)) 27.

(** Lines 379-383: the level-up rule, evaluated after a kill. *)
Definition level_up (game : GameState) : GameState :=
  let points_needed := 150 + level game * 50 in
  if score_value game >=? points_needed * level game then
    let game := set_level (level game + 1) game in
    let game :=
      set_difficulty_multiplier (difficulty_multiplier game + 0.2)%float game in
    set_max_enemies_on_screen (Z.min MAX_ENEMIES (4 + level game)) game
  else game.

(** Lines 372-383: what a kill does, once the bullet is gone and the health
    is decremented to at most 0. *)
Definition kill_enemy (enemy : Enemy.t) (game : GameState) : Rand GameState :=
  let game := set_score_value (score_value game + Enemy.points enemy) game in
  let game := set_enemies (remove_current Enemy.eqb (enemies game) enemy) game in
  r <- random ;;
  let game :=
    if (r <? 0.15)%float then
      set_power_ups
        (power_ups game ++
         [PowerUp.mk (Enemy.x enemy) (Enemy.y enemy) PowerUp.rapid_fire 2])
        game
    else game in
  ret (level_up game).

(** The loop of [update_enemies] over the snapshot.  While it runs,
    [enemies game] holds the [done] part of the list.  The inner loop over
    the bullets stops at the first bullet that collides, so it is a search
    for that bullet. *)
Fixpoint enemies_loop (todo : list Enemy.t) (st : GameState * mode)
  : Rand (GameState * mode) :=
  match todo with
  | [] => ret st
  | enemy :: todo' =>
      let (game, game_state) := st in
      if fgtb (Enemy.y enemy) (float_of_int (SCREEN_HEIGHT - 160)) then
        let game := set_lives (lives game - 1) game in
        let game := set_enemies (remove_current Enemy.eqb (enemies game) enemy) game in
        if lives game <=? 0
        then enemies_loop todo' (set_game_over true game, GAME_OVER)
        else enemies_loop todo' (game, game_state)
      else
        let enemy := move_enemy enemy in
        match find (hits enemy) (bullets game) with
        | Some bullet =>
            let game :=
              set_bullets (list_remove Bullet.eqb bullet (bullets game)) game in
            let enemy := Enemy.set_health (Enemy.health enemy - 1) enemy in
            if Enemy.health enemy <=? 0 then
              game <- kill_enemy enemy game ;;
              enemies_loop todo' (game, game_state)
            else
              enemies_loop todo' (set_enemies (enemies game ++ [enemy]) game, game_state)
        | None =>
            enemies_loop todo' (set_enemies (enemies game ++ [enemy]) game, game_state)
        end
  end.

Definition update_enemies (st : GameState * mode) : Rand (GameState * mode) :=
  let (game, game_state) := st in
  let game := set_enemy_spawn_timer (enemy_spawn_timer game + 1) game in
  let spawn_rate := Z.max 30 (ENEMY_SPAWN_RATE - level game * 10) in
  game <-
    (if enemy_spawn_timer game >=? spawn_rate then
       game <- spawn_enemy game ;; ret (set_enemy_spawn_timer 0 game)
     else ret game) ;;
  enemies_loop (enemies game) (set_enemies [] game, game_state).

Definition rect_overlap (ax ay aw ah bx by' bw bh : Z) : bool :=
  (ax <? bx + bw) && (ax + aw >? bx) && (ay <? by' + bh) && (ay + ah >? by').

Definition absorbs (obs : Obstacle.t) (bullet : Bullet.t) : bool :=
  rect_overlap (Bullet.x bullet) (Bullet.y bullet) 8 16
    (Obstacle.x obs) (Obstacle.y obs) (Obstacle.w obs) (Obstacle.h obs).

(** The loop of [update_obstacles].  While it runs, [obstacles game] holds
    the [done] part of the list. *)
Fixpoint obstacles_loop (player_rect : Z * Z * Z * Z) (todo : list Obstacle.t)
  (st : GameState * mode) : GameState * mode :=
  match todo with
  | [] => st
  | obs :: todo' =>
      let (game, game_state) := st in
      let '(px, py, pw, ph) := player_rect in
      let obs := Obstacle.set_y (Obstacle.y obs + Obstacle.speed obs) obs in
      if Obstacle.y obs >? SCREEN_HEIGHT then
        obstacles_loop player_rect todo'
          (set_obstacles (remove_current Obstacle.eqb (obstacles game) obs) game,
           game_state)
      else
        let game :=
          match find (absorbs obs) (bullets game) with
          | Some bullet => set_bullets (list_remove Bullet.eqb bullet (bullets game)) game
          | None => game
          end in
        if rect_overlap px py pw ph
             (Obstacle.x obs) (Obstacle.y obs) (Obstacle.w obs) (Obstacle.h obs)
        then
          let game := set_lives (lives game - 1) game in
          let game :=
            set_obstacles (remove_current Obstacle.eqb (obstacles game) obs) game in
          if lives game <=? 0
          then obstacles_loop player_rect todo' (set_game_over true game, GAME_OVER)
          else obstacles_loop player_rect todo' (game, game_state)
        else
          obstacles_loop player_rect todo'
            (set_obstacles (obstacles game ++ [obs]) game, game_state)
  end.

Definition update_obstacles (st : GameState * mode) : Rand (GameState * mode) :=
  let (game, game_state) := st in
  let game := set_obstacle_spawn_timer (obstacle_spawn_timer game + 1) game in
  let rate := Z.max 30 (OBSTACLE_SPAWN_RATE - level game * 5) in
  game <-
    (if obstacle_spawn_timer game >=? rate then
       game <- spawn_obstacle game ;; ret (set_obstacle_spawn_timer 0 game)
     else ret game) ;;
  let player_rect := (playerX game, playerY game, 64, 64) in
  ret (obstacles_loop player_rect (obstacles game) (set_obstacles [] game, game_state)).

(** ** Input handling *)

Inductive key : Type := K_SPACE | K_ESCAPE | K_r | K_other.

(** The events of [pygame.event.get()] that the handlers look at. *)
Inductive event : Type := QUIT | KEYDOWN (k : key) | OTHER.

(** The entries of [pygame.key.get_pressed()] that are read. *)
Record pressed : Type := mkPressed {
  K_LEFT : bool;
  K_a : bool;
  K_RIGHT : bool;
  K_d : bool
}.

(** The handlers return the new globals and the value they return to [main],
    which becomes [running]. *)
Fixpoint handle_menu_input (events : list event) (st : GameState * mode)
  : Rand (GameState * mode * bool) :=
  match events with
  | [] => ret (st, true)
  | QUIT :: _ => ret (st, false)
  | KEYDOWN K_SPACE :: events' =>
      game <- reset_game (fst st) ;; handle_menu_input events' (game, PLAYING)
  | KEYDOWN K_ESCAPE :: _ => ret (st, false)
  | _ :: events' => handle_menu_input events' st
  end.

(** The event loop of [handle_game_input]; [false] when it returned on
    [QUIT]. *)
Fixpoint game_events (events : list event) (st : GameState * mode)
  : GameState * mode * bool :=
  match events with
  | [] => (st, true)
  | QUIT :: _ => (st, false)
  | KEYDOWN K_SPACE :: events' => game_events events' (create_bullet (fst st), snd st)
  | KEYDOWN K_ESCAPE :: events' => game_events events' (fst st, MENU)
  | _ :: events' => game_events events' st
  end.

Definition handle_game_input (events : list event) (keys : pressed)
  (st : GameState * mode) : GameState * mode * bool :=
  let '(game, game_state, continue) := game_events events st in
  if continue : bool then
    let game :=
      if K_LEFT keys || K_a keys then set_playerX_change (- PLAYER_SPEED) game
      else if K_RIGHT keys || K_d keys then set_playerX_change PLAYER_SPEED game
      else set_playerX_change 0 game in
    (game, game_state, true)
  else (game, game_state, false).

Fixpoint handle_game_over_input (events : list event) (st : GameState * mode)
  : Rand (GameState * mode * bool) :=
  match events with
  | [] => ret (st, true)
  | QUIT :: _ => ret (st, false)
  | KEYDOWN K_r :: events' =>
      game <- reset_game (fst st) ;; handle_game_over_input events' (game, PLAYING)
  | KEYDOWN K_ESCAPE :: _ => ret (st, false)
  | _ :: events' => handle_game_over_input events' st
  end.

(** ** Main loop *)

(** The five subsystem updates of a playing frame, in the order of [main]. *)
Definition update_all (st : GameState * mode) : Rand (GameState * mode) :=
  let (game, game_state) := st in
  let game := update_player game in
  let game := update_bullets game in
  let game := update_power_ups game in
  st <- update_enemies (game, game_state) ;;
  update_obstacles st.

(** The globals: the [game] instance, the [game_state] variable and the
    state of the random generator. *)
Record world : Type := mkWorld {
  game : GameState;
  game_state : mode;
  random_state : rng
}.

(** What one frame reads from pygame. *)
Record frame : Type := mkFrame {
  events : list event;
  keys : pressed
}.

(** One iteration of the [while running] loop of [main]; the boolean is the
    new value of [running]. *)
Definition main_iteration (inp : frame) (w : world) : world * bool :=
  match game_state w with
  | MENU =>
      let '(g, gs, running, s) :=
        handle_menu_input (events inp) (game w, game_state w) (random_state w) in
      (mkWorld g gs s, running)
  | PLAYING =>
      let '(g, gs, running) :=
        handle_game_input (events inp) (keys inp) (game w, game_state w) in
      let '(g, gs, s) :=
        (if negb (game_over g) then update_all (g, gs) else ret (g, gs))
          (random_state w) in
      (mkWorld g gs s, running)
  | GAME_OVER =>
      let '(g, gs, running, s) :=
        handle_game_over_input (events inp) (game w, game_state w) (random_state w) in
      (mkWorld g gs s, running)
  end.

(** Module initialisation: [game_state = MENU] and [game = GameState()]. *)
Definition initial_world (s : rng) : world :=
  let (g, s') := reset_game blank s in mkWorld g MENU s'.

(** The states at the head of the loop, with [running] true. *)
Inductive reachable : world -> Prop :=
| reach_start : forall s, reachable (initial_world s)
| reach_frame : forall w inp w',
    reachable w -> main_iteration inp w = (w', true) -> reachable w'.

(** A session: the frames played one after the other. *)
Fixpoint run (inps : list frame) (w : world) : world :=
  match inps with
  | [] => w
  | inp :: inps' => run inps' (fst (main_iteration inp w))
  end.

Fixpoint all_running (inps : list frame) (w : world) : bool :=
  match inps with
  | [] => true
  | inp :: inps' =>
      snd (main_iteration inp w) && all_running inps' (fst (main_iteration inp w))
  end.

(** ** Vocabulary of the properties *)

(** The enemy types the specification allows at a level. *)
Definition spawn_types (lvl : Z) : list enemy_type :=
  if lvl <? 3 then [ENEMY_BASIC]
  else if lvl <? 5 then [ENEMY_BASIC; ENEMY_FAST]
  else [ENEMY_BASIC; ENEMY_FAST; ENEMY_TANK].

(** The element of [spawn_types lvl] at the index that the first draw of [s]
    selects; below level 3 nothing is drawn. *)
Definition drawn_type (lvl : Z) (s : rng) : enemy_type :=
  if lvl <? 3 then ENEMY_BASIC
  else
    nth (Z.to_nat (s O mod Z.of_nat (length (spawn_types lvl)))) (spawn_types lvl)
      ENEMY_BASIC.

(** The attributes after the assignments of [reset_game], before the initial
    enemies are spawned. *)
Definition reset_base : GameState :=
  mkGameState 368 480 0 3 0 1 false 1.0%float [] 0 6 [] 0 [] 0 3 0 [].

(** The bullet cap that [create_bullet] applies. *)
Definition effective_cap (g : GameState) : Z :=
  if rapid_fire_timer g >? 0 then 5 else max_bullets g.

(** The cooldown that a successful shot sets. *)
Definition fire_cooldown (g : GameState) : Z :=
  if rapid_fire_timer g >? 0 then 5 else 15.

Definition bullet_count (g : GameState) : Z := Z.of_nat (length (bullets g)).

(** The game-over flag and the mode agree with the lives counter. *)
Definition flagged (st : GameState * mode) : Prop :=
  (lives (fst st) <= 0 -> game_over (fst st) = true /\ snd st = GAME_OVER) /\
  (0 < lives (fst st) -> game_over (fst st) = false /\ snd st <> GAME_OVER).

(** What the enemy and obstacle updates leave alone or only decrease. *)
Definition advances (st st' : GameState * mode) : Prop :=
  (flagged st -> flagged st')
  /\ lives (fst st') <= lives (fst st)
  /\ (length (bullets (fst st')) <= length (bullets (fst st)))%nat
  /\ max_bullets (fst st') = max_bullets (fst st)
  /\ shoot_cooldown (fst st') = shoot_cooldown (fst st)
  /\ rapid_fire_timer (fst st') = rapid_fire_timer (fst st).

(** The attributes that the player, bullet and power-up updates leave
    alone. *)
Definition keeps (g g' : GameState) : Prop :=
  lives g' = lives g /\ game_over g' = game_over g /\ max_bullets g' = max_bullets g.

(** What the event loop of [handle_game_input] can do to the attributes of
    the invariant. *)
Definition fired (g g' : GameState) : Prop :=
  keeps g g'
  /\ rapid_fire_timer g' = rapid_fire_timer g
  /\ (0 <= shoot_cooldown g -> 0 <= shoot_cooldown g')
  /\ bullet_count g' <= Z.max (bullet_count g) (effective_cap g).

(** The invariant of the states at the head of the main loop. *)
Definition session_inv (w : world) : Prop :=
  flagged (game w, game_state w)
  /\ 0 <= shoot_cooldown (game w)
  /\ max_bullets (game w) = 3
  /\ bullet_count (game w) <= 5.

(** The cap on the enemies on screen as a function of the level: 6 at levels
    1 and 2, 7 at level 3, 8 from level 4. *)
Definition cap_ok (g : GameState) : Prop :=
  1 <= level g
  /\ max_enemies_on_screen g = Z.max 6 (Z.min MAX_ENEMIES (4 + level g)).

(** Level and cap only go up. *)
Definition climbs (g g' : GameState) : Prop :=
  (cap_ok g -> cap_ok g')
  /\ (cap_ok g ->
      level g <= level g' /\ max_enemies_on_screen g <= max_enemies_on_screen g').

(** An obstacle after its move of one frame. *)
Definition fall (obs : Obstacle.t) : Obstacle.t :=
  Obstacle.set_y (Obstacle.y obs + Obstacle.speed obs) obs.

Definition past_bottom (obs : Obstacle.t) : bool :=
  Obstacle.y (fall obs) >? SCREEN_HEIGHT.

Definition hits_player (rect : Z * Z * Z * Z) (obs : Obstacle.t) : bool :=
  let '(px, py, pw, ph) := rect in
  negb (past_bottom obs)
  && rect_overlap px py pw ph (Obstacle.x (fall obs)) (Obstacle.y (fall obs))
       (Obstacle.w (fall obs)) (Obstacle.h (fall obs)).

(** The obstacles that are still in the collection after their frame. *)
Definition stays (rect : Z * Z * Z * Z) (obs : Obstacle.t) : bool :=
  negb (past_bottom obs) && negb (hits_player rect obs).


(** [n] frames of movement of one enemy. *)
Fixpoint move_enemy_n (n : nat) (e : Enemy.t) : Enemy.t :=
  match n with
  | O => e
  | S n' => move_enemy (move_enemy_n n' e)
  end.

(** ** Concrete sessions *)

Definition no_keys : pressed := mkPressed false false false false.

(** A frame without input, a frame with the space bar, a frame with R. *)
Definition idle : frame := mkFrame [] no_keys.
Definition press_space : frame := mkFrame [KEYDOWN K_SPACE] no_keys.
Definition press_r : frame := mkFrame [KEYDOWN K_r] no_keys.

(** Draws that make every enemy of level 1 enter from the left edge at
    [y = 200] with fall speed 0.5: per enemy, [random()] = 0.7 for the side,
    [random()] = 0.125 for the fall speed, and 140 for [randint(60, 200)]. *)
Definition left_rng : rng :=
  fun n => nth (Nat.modulo n 3) [6305039478318694; 1125899906842624; 140] 0.

(** The session that starts from the menu and then plays [n] frames without
    input. *)
Definition left_session (n : nat) : world :=
  run (press_space :: repeat idle n) (initial_world left_rng).

(** A basic enemy of level 1, worth 10 points, one frame away from a bullet,
    in a state of level 1 that is 10 points short of the first level-up. *)
Definition basic_enemy : Enemy.t :=
  Enemy.mk 98 99.5 2 30 0.5 ENEMY_BASIC 1 1 10.

Definition before_level_2 : GameState :=
  set_bullets [Bullet.mk 100 100 10]
    (set_enemies [basic_enemy] (set_score_value 190 reset_base)).


(** Draws that are all 0: every enemy enters at the top left ([x = 0],
    [y = -140]) with fall speed 0.4 and moves right, every obstacle falls at
    [x = 0] with speed 8, and every kill drops a power-up. *)
Definition zero_rng : rng := fun _ => 0.

(** The same, but the first obstacle falls at [x = 360]. *)
Definition obstacle_rng : rng := fun n => if Nat.eqb n 41 then 360 else 0.

Definition hold_right : frame := mkFrame [] (mkPressed false false true false).

(** A shot and the four frames of rapid-fire cooldown after it. *)
Definition burst : list frame := press_space :: repeat idle 4.

(** The player moves to [x = 578], shoots the first enemy when it passes
    above (frame 289), waits for the power-up (picked up in frame 522) and
    fires four times in the last frames of the rapid fire; one more shot in
    frame 822, in which the rapid-fire timer runs out, is left to the
    caller. *)
Definition rapid_fire_script : list frame :=
  press_space :: repeat hold_right 30 ++ repeat idle 211 ++ press_space ::
  repeat idle 559 ++ burst ++ burst ++ burst ++ burst.

Definition rapid_fire_session : world := run rapid_fire_script (initial_world zero_rng).

(** A shot in frame 65; the first obstacle spawns in frame 85 and meets the
    bullet in frame 100. *)
Definition absorb_script : list frame :=
  press_space :: repeat idle 64 ++ press_space :: repeat idle 34.

Definition absorb_session : world := run absorb_script (initial_world obstacle_rng).

(** A shot in frame 146, when the first obstacle is at [y = 456], just above
    the player: in that frame the obstacle meets the bullet and the
    player. *)
Definition absorb_hit_script : list frame := press_space :: repeat idle 144.

Definition absorb_hit_session : world :=
  run absorb_hit_script (initial_world obstacle_rng).

(** ** Vocabulary of the further properties *)

(** A bullet after its move of one frame, and the test that keeps it. *)
Definition fly (b : Bullet.t) : Bullet.t :=
  Bullet.set_y (Bullet.y b - Bullet.speed b) b.

Definition on_screen (b : Bullet.t) : bool := negb (Bullet.y b <? 0).

(** A power-up after its move of one frame; it is taken out of the collection
    when it is below the screen or within reach of the player. *)
Definition sink (p : PowerUp.t) : PowerUp.t :=
  PowerUp.set_y (PowerUp.y p + float_of_int (PowerUp.speed p))%float p.

Definition below_screen (p : PowerUp.t) : bool :=
  fgtb (PowerUp.y (sink p)) (float_of_int SCREEN_HEIGHT).

Definition picked_up (g : GameState) (p : PowerUp.t) : bool :=
  negb (below_screen p)
  && is_collision (PowerUp.x (sink p)) (PowerUp.y (sink p))
       (float_of_int (playerX g)) (float_of_int (playerY g)) 40.

(** The events on which a handler returns [False]. *)
Definition quits_menu (ev : event) : bool :=
  match ev with
  | QUIT | KEYDOWN K_ESCAPE => true
  | _ => false
  end.

Definition quits_game (ev : event) : bool :=
  match ev with
  | QUIT => true
  | _ => false
  end.

(** The events that a handler gets to see: those before the first one on
    which it returns. *)
Fixpoint handled (quits : event -> bool) (evs : list event) : list event :=
  match evs with
  | [] => []
  | ev :: evs' => if quits ev then [] else ev :: handled quits evs'
  end.

Definition is_key (k : key) (ev : event) : bool :=
  match ev, k with
  | KEYDOWN K_SPACE, K_SPACE | KEYDOWN K_ESCAPE, K_ESCAPE | KEYDOWN K_r, K_r
  | KEYDOWN K_other, K_other => true
  | _, _ => false
  end.

(** The stat table of [spawn_enemy]. *)
Definition base_health (t : enemy_type) : Z :=
  match t with
  | ENEMY_BASIC | ENEMY_FAST => 1
  | ENEMY_TANK => 3
  end.

Definition points_of (t : enemy_type) : Z :=
  match t with
  | ENEMY_BASIC => 10
  | ENEMY_FAST => 20
  | ENEMY_TANK => 30
  end.

Definition base_speed_of (t : enemy_type) (g : GameState) : float :=
  let speed := (float_of_int ENEMY_SPEED * difficulty_multiplier g)%float in
  match t with
  | ENEMY_BASIC => speed
  | ENEMY_FAST => (speed * 1.8)%float
  | ENEMY_TANK => (speed * 0.6)%float
  end.

(** What holds of the player, the bullets, the timers, the enemies and the
    obstacles in every state of a session. *)
Definition player_ok (g : GameState) : Prop :=
  0 <= playerX g <= SCREEN_WIDTH - 64
  /\ playerY g = SCREEN_HEIGHT - 120
  /\ (playerX_change g = - PLAYER_SPEED \/ playerX_change g = 0
      \/ playerX_change g = PLAYER_SPEED).

Definition bullet_ok (b : Bullet.t) : Prop :=
  Bullet.speed b = BULLET_SPEED
  /\ 0 <= Bullet.x b <= SCREEN_WIDTH - 64
  /\ 0 <= Bullet.y b <= SCREEN_HEIGHT - 120
  /\ Bullet.y b mod 10 = 0.

Definition timers_ok (g : GameState) : Prop :=
  0 <= shoot_cooldown g <= 15 /\ 0 <= rapid_fire_timer g <= 300.

Definition enemy_ok (e : Enemy.t) : Prop :=
  1 <= Enemy.health e <= Enemy.max_health e
  /\ Enemy.points e = points_of (Enemy.type e)
  /\ Enemy.y_change e = float_of_int ENEMY_DROP_SPEED.

Definition bullets_ok (g : GameState) : Prop := Forall bullet_ok (bullets g).

Definition enemies_ok (g : GameState) : Prop :=
  Z.of_nat (length (enemies g)) <= max_enemies_on_screen g
  /\ Forall enemy_ok (enemies g)
  /\ 0 <= score_value g /\ score_value g mod 10 = 0.

(** The same in the middle of the loop of [update_enemies], with the enemies
    [todo] still to be visited. *)
Definition enemies_mid (todo : list Enemy.t) (g : GameState) : Prop :=
  Z.of_nat (length (enemies g) + length todo) <= max_enemies_on_screen g
  /\ Forall enemy_ok (enemies g) /\ Forall enemy_ok todo
  /\ 0 <= score_value g /\ score_value g mod 10 = 0.

Definition obstacle_ok (o : Obstacle.t) : Prop :=
  Obstacle.w o = 20 /\ Obstacle.h o = 20
  /\ OBSTACLE_SPEED_MIN <= Obstacle.speed o
  /\ 0 <= Obstacle.x o <= SCREEN_WIDTH - 24
  /\ -24 <= Obstacle.y o <= SCREEN_HEIGHT.

Definition obstacles_ok (g : GameState) : Prop := Forall obstacle_ok (obstacles g).

Definition spawn_timers_ok (g : GameState) : Prop :=
  0 <= enemy_spawn_timer g < ENEMY_SPAWN_RATE - 10
  /\ 0 <= obstacle_spawn_timer g < OBSTACLE_SPAWN_RATE - 5.

(** Observations of the state that the assignments of a kill (the level-up
    included), of [update_enemies] and of [update_obstacles] cannot
    change. *)
Definition outside_kill {A : Type} (f : GameState -> A) : Prop :=
  (forall v g, f (set_score_value v g) = f g)
  /\ (forall v g, f (set_enemies v g) = f g)
  /\ (forall v g, f (set_power_ups v g) = f g)
  /\ (forall v g, f (set_level v g) = f g)
  /\ (forall v g, f (set_difficulty_multiplier v g) = f g)
  /\ (forall v g, f (set_max_enemies_on_screen v g) = f g).

Definition outside_enemies_loop {A : Type} (f : GameState -> A) : Prop :=
  outside_kill f
  /\ (forall v g, f (set_lives v g) = f g)
  /\ (forall v g, f (set_game_over v g) = f g)
  /\ (forall v g, f (set_bullets v g) = f g).

Definition outside_enemies {A : Type} (f : GameState -> A) : Prop :=
  outside_enemies_loop f
  /\ (forall v g, f (set_enemy_spawn_timer v g) = f g).

Definition outside_obstacles_loop {A : Type} (f : GameState -> A) : Prop :=
  (forall v g, f (set_lives v g) = f g)
  /\ (forall v g, f (set_game_over v g) = f g)
  /\ (forall v g, f (set_bullets v g) = f g)
  /\ (forall v g, f (set_obstacles v g) = f g).

Definition outside_obstacles {A : Type} (f : GameState -> A) : Prop :=
  outside_obstacles_loop f
  /\ (forall v g, f (set_obstacle_spawn_timer v g) = f g).

(** The mode after the updates of a frame that started with lives left: game
    over when the lives are used up, the mode [m] set by the events
    otherwise. *)
Definition mode_after (m : mode) (g : GameState) : mode :=
  if lives g <=? 0 then GAME_OVER else m.

(** The mode at the end of a frame, from the mode [m] at its head, the events
    and the lives at its end. *)
Definition next_mode (m : mode) (evs : list event) (lives' : Z) : mode :=
  match m with
  | MENU => if existsb (is_key K_SPACE) (handled quits_menu evs) then PLAYING else MENU
  | PLAYING =>
      if lives' <=? 0 then GAME_OVER
      else if existsb (is_key K_ESCAPE) (handled quits_game evs) then MENU
           else PLAYING
  | GAME_OVER =>
      if existsb (is_key K_r) (handled quits_menu evs) then PLAYING else GAME_OVER
  end.

(** A property of the game is kept by the steps of a session, given that
    [B] holds before each step: by [reset_game], by a shot, by the
    assignment of the player's velocity and by the five updates. *)
Definition steps_over (B P : GameState -> Prop) : Prop :=
  (forall g s, P (fst (reset_game g s)))
  /\ (forall g, B g -> P g -> P (create_bullet g))
  /\ (forall v g, In v [- PLAYER_SPEED; 0; PLAYER_SPEED] ->
                  B g -> P g -> P (set_playerX_change v g))
  /\ (forall g, B g -> P g -> P (update_player g))
  /\ (forall g, B g -> P g -> P (update_bullets g))
  /\ (forall g, B g -> P g -> P (update_power_ups g))
  /\ (forall g m s, B g -> P g -> P (fst (fst (update_enemies (g, m) s))))
  /\ (forall g m s, B g -> P g -> P (fst (fst (update_obstacles (g, m) s)))).

(** The velocity that the held keys select: left wins over right. *)
Definition key_velocity (held : pressed) : Z :=
  if K_LEFT held || K_a held then - PLAYER_SPEED
  else if K_RIGHT held || K_d held then PLAYER_SPEED
  else 0.

(** An enemy that has passed the line above the player at the start of its
    turn. *)
Definition breached (e : Enemy.t) : bool :=
  fgtb (Enemy.y e) (float_of_int (SCREEN_HEIGHT - 160)).

(** The enemies that [reset_game] spawns. *)
Definition fresh_enemy (e : Enemy.t) : Prop :=
  Enemy.type e = ENEMY_BASIC /\ Enemy.health e = 1 /\ Enemy.max_health e = 1
  /\ Enemy.points e = 10.

(** The difficulty multiplier of a level: 1.0 and one addition of 0.2 for
    every level-up. *)
Definition multiplier_at (lvl : Z) : float :=
  Nat.iter (Z.to_nat (lvl - 1)) (fun d => (d + 0.2)%float) 1.0%float.

Definition scaling_ok (g : GameState) : Prop :=
  1 <= level g /\ difficulty_multiplier g = multiplier_at (level g).

Definition lives_ok (g : GameState) : Prop := lives g <= 3.

(** * Properties *)

(** ** Lists *)

Lemma list_remove_length {A : Type} (eqb : A -> A -> bool) (v : A) (l : list A) :
  (length (list_remove eqb v l) <= length l)%nat.
Proof.
  induction l as [|a l IH]; simpl; [lia|].
  destruct (eqb a v); simpl; lia.
Qed.

Lemma list_remove_found {A : Type} (eqb : A -> A -> bool) (v : A) (l : list A) :
  existsb (fun a => eqb a v) l = true ->
  S (length (list_remove eqb v l)) = length l.
Proof.
  induction l as [|a l IH]; simpl; [discriminate|].
  destruct (eqb a v); simpl; [reflexivity|].
  intros H. now rewrite IH.
Qed.

(** [coll.remove(o)] takes exactly one element out of [done ++ o :: todo]:
    the new [done] is as long as the old one. *)
Lemma remove_current_length {A : Type} (eqb : A -> A -> bool) (done : list A) (o : A) :
  length (remove_current eqb done o) = length done.
Proof.
  unfold remove_current.
  destruct (existsb (fun a => eqb a o) done) eqn:E; [|reflexivity].
  rewrite length_app; simpl. pose proof (list_remove_found eqb o done E). lia.
Qed.

Lemma list_remove_perm {A : Type} (eqb : A -> A -> bool) (v : A) (l : list A) :
  (forall a, eqb a v = true -> a = v) ->
  existsb (fun a => eqb a v) l = true ->
  Permutation (v :: list_remove eqb v l) l.
Proof.
  intros Heq. induction l as [|a l IH]; simpl; [discriminate|].
  destruct (eqb a v) eqn:E.
  - intros _. now rewrite (Heq a E).
  - simpl. intros H. rewrite perm_swap. now rewrite IH.
Qed.

(** When equal fields mean equal values, which element [remove] deletes does
    not show in the collection taken as a multiset. *)
Lemma remove_current_perm {A : Type} (eqb : A -> A -> bool) (done : list A) (o : A) :
  (forall a, eqb a o = true -> a = o) ->
  Permutation (remove_current eqb done o) done.
Proof.
  intros Heq. unfold remove_current.
  destruct (existsb (fun a => eqb a o) done) eqn:E; [|reflexivity].
  rewrite <- (list_remove_perm eqb o done Heq E) at 2.
  rewrite Permutation_app_comm. reflexivity.
Qed.

Lemma Obstacle_eqb_eq (a b : Obstacle.t) : Obstacle.eqb a b = true -> a = b.
Proof.
  destruct a as [x1 y1 w1 h1 s1 [[r1 g1] b1]], b as [x2 y2 w2 h2 s2 [[r2 g2] b2]].
  unfold Obstacle.eqb, Obstacle.color_eqb; simpl.
  rewrite !andb_true_iff, !Z.eqb_eq.
  intros H; decompose [and] H; subst; reflexivity.
Qed.

(** ** The random draws *)

Ltac split_draws :=
  repeat match goal with
    | |- context [let (_, _) := ?m in _] => destruct m
    end.

(** ** Spawning and reset *)

Lemma set_enemies_same (g : GameState) : set_enemies (enemies g) g = g.
Proof. destruct g; reflexivity. Qed.

Lemma spawn_enemy_full (g : GameState) (s : rng) :
  (Z.of_nat (length (enemies g)) >=? max_enemies_on_screen g) = true ->
  spawn_enemy g s = (g, s).
Proof. intros H. unfold spawn_enemy. now rewrite H. Qed.

Lemma spawn_enemy_appends (g : GameState) (s : rng) :
  (Z.of_nat (length (enemies g)) >=? max_enemies_on_screen g) = false ->
  exists e, fst (spawn_enemy g s) = set_enemies (enemies g ++ [e]) g
    /\ Enemy.type e = drawn_type (level g) s
    /\ Enemy.y_change e = float_of_int ENEMY_DROP_SPEED.
Proof.
  intros Hcap. unfold spawn_enemy. rewrite Hcap.
  unfold drawn_type, spawn_types.
  destruct (level g >=? 5) eqn:H5; [|destruct (level g >=? 3) eqn:H3].
  - replace (level g <? 3) with false by lia.
    replace (level g <? 5) with false by lia.
    unfold bind at 1. unfold choice at 1. unfold bind at 1.
    unfold randbelow, bind, next_raw, ret. cbn [length].
    set (t := nth _ _ _). clearbody t.
    destruct t; cbv beta iota; split_draws; cbn [fst]; eexists;
      (split; [reflexivity|]); cbn; auto.
  - replace (level g <? 3) with false by lia.
    replace (level g <? 5) with true by lia.
    unfold bind at 1. unfold choice at 1. unfold bind at 1.
    unfold randbelow, bind, next_raw, ret. cbn [length].
    set (t := nth _ _ _). clearbody t.
    destruct t; cbv beta iota; split_draws; cbn [fst]; eexists;
      (split; [reflexivity|]); cbn; auto.
  - replace (level g <? 3) with true by lia.
    unfold bind at 1. unfold ret at 1. cbv beta iota.
    unfold bind. split_draws. cbn [fst]; eexists;
      (split; [reflexivity|]); cbn; auto.
Qed.

(** [spawn_enemy] assigns no attribute but [enemies]. *)
Lemma spawn_enemy_frame (g : GameState) (s : rng) :
  exists l, fst (spawn_enemy g s) = set_enemies l g.
Proof.
  destruct (Z.of_nat (length (enemies g)) >=? max_enemies_on_screen g) eqn:H.
  - exists (enemies g). now rewrite spawn_enemy_full, set_enemies_same.
  - destruct (spawn_enemy_appends g s H) as (e & He & _). eauto.
Qed.

Lemma spawn_obstacle_frame (g : GameState) (s : rng) :
  exists o, fst (spawn_obstacle g s) = set_obstacles (obstacles g ++ [o]) g.
Proof.
  unfold spawn_obstacle, bind, ret. split_draws. cbn [fst]. eauto.
Qed.

(** The assignments of [reset_game] overwrite every attribute. *)
Lemma reset_game_base (g : GameState) (s : rng) :
  reset_game g s = spawn_initial_enemies reset_base s.
Proof. reflexivity. Qed.

Lemma reset_game_shape (g : GameState) (s : rng) :
  exists l, fst (reset_game g s) = set_enemies l reset_base /\ length l = 4%nat.
Proof.
  rewrite reset_game_base. unfold spawn_initial_enemies, repeat_call, bind, ret.
  assert (Hstep : forall l s', (length l < 6)%nat ->
            exists e, fst (spawn_enemy (set_enemies l reset_base) s')
                      = set_enemies (l ++ [e]) reset_base).
  { intros l s' Hl.
    destruct (spawn_enemy_appends (set_enemies l reset_base) s') as (e & He & _).
    - cbn. lia.
    - exists e. rewrite He. reflexivity. }
  destruct (Hstep [] s) as (e1 & H1); [simpl; lia|].
  change (set_enemies [] reset_base) with reset_base in H1.
  destruct (spawn_enemy reset_base s) as [g1 s1]. cbn [fst] in H1. subst g1.
  destruct (Hstep ([] ++ [e1]) s1) as (e2 & H2); [simpl; lia|].
  destruct (spawn_enemy _ s1) as [g2 s2]. cbn [fst] in H2. subst g2.
  destruct (Hstep (([] ++ [e1]) ++ [e2]) s2) as (e3 & H3); [simpl; lia|].
  destruct (spawn_enemy _ s2) as [g3 s3]. cbn [fst] in H3. subst g3.
  destruct (Hstep ((([] ++ [e1]) ++ [e2]) ++ [e3]) s3) as (e4 & H4); [simpl; lia|].
  destruct (spawn_enemy _ s3) as [g4 s4]. cbn [fst] in H4. subst g4.
  eexists. split; [reflexivity|]. reflexivity.
Qed.

Lemma spawn_types_NoDup (lvl : Z) : NoDup (spawn_types lvl).
Proof.
  unfold spawn_types.
  destruct (lvl <? 3); [|destruct (lvl <? 5)];
    repeat constructor; simpl; intuition discriminate.
Qed.

Lemma drawn_type_In (lvl : Z) (s : rng) : In (drawn_type lvl s) (spawn_types lvl).
Proof.
  unfold drawn_type. destruct (lvl <? 3) eqn:H3.
  - unfold spawn_types. rewrite H3. now left.
  - apply nth_In.
    assert (0 < Z.of_nat (length (spawn_types lvl))).
    { unfold spawn_types. rewrite H3. destruct (lvl <? 5); simpl; lia. }
    pose proof (Z.mod_pos_bound (s O) _ H). lia.
Qed.

(** C6. The enemy spawner either leaves the state as it is, when the number of
    enemies has reached [max_enemies_on_screen], or appends exactly one enemy
    and assigns nothing else.  The type of the new enemy is the element of
    the level's candidate list ([Basic] below level 3, [Basic, Fast] at levels
    3 and 4, [Basic, Fast, Tank] from level 5) at the index drawn by
    [random.choice]; the candidates are pairwise distinct, so the uniform
    index makes the choice among them uniform. *)
Theorem spawn_enemy_contract (g : GameState) (s : rng) :
  (if Z.of_nat (length (enemies g)) >=? max_enemies_on_screen g
   then spawn_enemy g s = (g, s)
   else exists e,
       fst (spawn_enemy g s) = set_enemies (enemies g ++ [e]) g
       /\ Enemy.type e = drawn_type (level g) s
       /\ In (Enemy.type e) (spawn_types (level g)))
  /\ NoDup (spawn_types (level g))
  /\ spawn_types (level g) =
       (if level g <? 3 then [ENEMY_BASIC]
        else if level g <? 5 then [ENEMY_BASIC; ENEMY_FAST]
        else [ENEMY_BASIC; ENEMY_FAST; ENEMY_TANK]).
Proof.
  split; [|split; [apply spawn_types_NoDup | reflexivity]].
  destruct (Z.of_nat (length (enemies g)) >=? max_enemies_on_screen g) eqn:H.
  - now apply spawn_enemy_full.
  - destruct (spawn_enemy_appends g s H) as (e & He & Ht & _).
    exists e. repeat split; auto. rewrite Ht. apply drawn_type_In.
Qed.

(** ** The menu and game-over handlers *)

(** A handler leaves the globals as they are or ends in a fresh reset with
    the mode [PLAYING]. *)
Lemma handle_menu_input_cases (evs : list event) (st : GameState * mode) (s : rng) :
  fst (fst (handle_menu_input evs st s)) = st
  \/ exists l, length l = 4%nat
       /\ fst (fst (handle_menu_input evs st s)) = (set_enemies l reset_base, PLAYING).
Proof.
  revert st s. induction evs as [|ev evs IH]; intros st s; [now left|].
  destruct ev as [|[| | |]|]; cbn [handle_menu_input]; try (now left); try apply IH.
  unfold bind. destruct (reset_game_shape (fst st) s) as (l & Hl & Hlen).
  destruct (reset_game (fst st) s) as [g' s']. cbn [fst] in Hl. subst g'.
  destruct (IH (set_enemies l reset_base, PLAYING) s') as [H|H].
  - right. exists l. now rewrite H.
  - now right.
Qed.

Lemma handle_game_over_input_cases (evs : list event) (st : GameState * mode)
  (s : rng) :
  fst (fst (handle_game_over_input evs st s)) = st
  \/ exists l, length l = 4%nat
       /\ fst (fst (handle_game_over_input evs st s))
          = (set_enemies l reset_base, PLAYING).
Proof.
  revert st s. induction evs as [|ev evs IH]; intros st s; [now left|].
  destruct ev as [|[| | |]|]; cbn [handle_game_over_input]; try (now left);
    try apply IH.
  unfold bind. destruct (reset_game_shape (fst st) s) as (l & Hl & Hlen).
  destruct (reset_game (fst st) s) as [g' s']. cbn [fst] in Hl. subst g'.
  destruct (IH (set_enemies l reset_base, PLAYING) s') as [H|H].
  - right. exists l. now rewrite H.
  - now right.
Qed.

(** The state after a start from the menu does not depend on the state
    before it. *)
Lemma handle_menu_input_forgets (evs : list event) (g1 g2 : GameState) (gs : mode)
  (s : rng) :
  gs <> PLAYING ->
  snd (fst (fst (handle_menu_input evs (g1, gs) s))) = PLAYING ->
  fst (fst (fst (handle_menu_input evs (g1, gs) s)))
  = fst (fst (fst (handle_menu_input evs (g2, gs) s))).
Proof.
  intros Hgs. induction evs as [|ev evs IH]; [intros H; now elim Hgs|].
  destruct ev as [|[| | |]|]; cbn [handle_menu_input]; try exact IH;
    try (intros H; now elim Hgs).
  intros _. unfold bind. cbn [fst]. now rewrite (reset_game_base g1), (reset_game_base g2).
Qed.

Lemma main_iteration_menu (inp : frame) (w : world) :
  game_state w = MENU ->
  (game (fst (main_iteration inp w)), game_state (fst (main_iteration inp w)))
  = fst (fst (handle_menu_input (events inp) (game w, MENU) (random_state w))).
Proof.
  intros H. unfold main_iteration. rewrite H.
  destruct (handle_menu_input _ _ _) as [[[g gs] r] s']. reflexivity.
Qed.

Lemma main_iteration_game_over (inp : frame) (w : world) :
  game_state w = GAME_OVER ->
  (game (fst (main_iteration inp w)), game_state (fst (main_iteration inp w)))
  = fst (fst (handle_game_over_input (events inp) (game w, GAME_OVER)
                (random_state w))).
Proof.
  intros H. unfold main_iteration. rewrite H.
  destruct (handle_game_over_input _ _ _) as [[[g gs] r] s']. reflexivity.
Qed.

(** What a menu or game-over frame does to the running flag and to the mode:
    the events before the first [QUIT] or escape key are handled, and the
    mode becomes [PLAYING] when one of them is the start key. *)
Lemma handle_menu_input_running (evs : list event) (st : GameState * mode) (s : rng) :
  snd (fst (handle_menu_input evs st s)) = negb (existsb quits_menu evs)
  /\ fst (fst (handle_menu_input evs st s))
     = fst (fst (handle_menu_input (handled quits_menu evs) st s))
  /\ snd (fst (fst (handle_menu_input evs st s)))
     = (if existsb (is_key K_SPACE) (handled quits_menu evs) then PLAYING
        else snd st).
Proof.
  revert st s. induction evs as [|ev evs IH]; intros st s; [now repeat split|].
  destruct ev as [|[| | |]|]; cbn [handle_menu_input handled quits_menu existsb
                                    is_key orb negb];
    try (now repeat split); try apply IH.
  unfold bind. destruct (reset_game (fst st) s) as [g' s'].
  destruct (IH (g', PLAYING) s') as (H1 & H2 & H3).
  repeat split; try assumption. rewrite H3. cbn [snd].
  destruct (existsb (is_key K_SPACE) _); reflexivity.
Qed.

Lemma handle_game_over_input_running (evs : list event) (st : GameState * mode)
  (s : rng) :
  snd (fst (handle_game_over_input evs st s)) = negb (existsb quits_menu evs)
  /\ fst (fst (handle_game_over_input evs st s))
     = fst (fst (handle_game_over_input (handled quits_menu evs) st s))
  /\ snd (fst (fst (handle_game_over_input evs st s)))
     = (if existsb (is_key K_r) (handled quits_menu evs) then PLAYING else snd st).
Proof.
  revert st s. induction evs as [|ev evs IH]; intros st s; [now repeat split|].
  destruct ev as [|[| | |]|]; cbn [handle_game_over_input handled quits_menu existsb
                                    is_key orb negb];
    try (now repeat split); try apply IH.
  unfold bind. destruct (reset_game (fst st) s) as [g' s'].
  destruct (IH (g', PLAYING) s') as (H1 & H2 & H3).
  repeat split; try assumption. rewrite H3. cbn [snd].
  destruct (existsb (is_key K_r) _); reflexivity.
Qed.

(** C8.  In the menu a frame takes the mode to [PLAYING] exactly when it
    handles a space bar, on the game-over screen exactly when it handles an
    R; and a frame that takes the mode from [MENU] or from [GAME_OVER] to
    [PLAYING] leaves the score at 0, the level at 1, the lives at 3 and
    exactly 4 enemies in the enemy collection. *)
Theorem restart_resets (w : world) (inp : frame) :
  game_state w = MENU \/ game_state w = GAME_OVER ->
  (game_state w = MENU ->
   (game_state (fst (main_iteration inp w)) = PLAYING
    <-> existsb (is_key K_SPACE) (handled quits_menu (events inp)) = true))
  /\ (game_state w = GAME_OVER ->
      (game_state (fst (main_iteration inp w)) = PLAYING
       <-> existsb (is_key K_r) (handled quits_menu (events inp)) = true))
  /\ (game_state (fst (main_iteration inp w)) = PLAYING ->
      score_value (game (fst (main_iteration inp w))) = 0
      /\ level (game (fst (main_iteration inp w))) = 1
      /\ lives (game (fst (main_iteration inp w))) = 3
      /\ length (enemies (game (fst (main_iteration inp w)))) = 4%nat).
Proof.
  intros Hmode. split; [|split].
  - intros Hm. pose proof (main_iteration_menu inp w Hm) as E.
    destruct (handle_menu_input_running (events inp) (game w, MENU)
                (random_state w)) as (_ & _ & H).
    rewrite <- E in H. cbn [snd] in H. rewrite H.
    destruct (existsb (is_key K_SPACE) _); split; intros; congruence.
  - intros Hm. pose proof (main_iteration_game_over inp w Hm) as E.
    destruct (handle_game_over_input_running (events inp) (game w, GAME_OVER)
                (random_state w)) as (_ & _ & H).
    rewrite <- E in H. cbn [snd] in H. rewrite H.
    destruct (existsb (is_key K_r) _); split; intros; congruence.
  - intros Hplay.
    assert (H : (game (fst (main_iteration inp w)),
                 game_state (fst (main_iteration inp w))) = (game w, game_state w)
                \/ exists l, length l = 4%nat
                     /\ (game (fst (main_iteration inp w)),
                         game_state (fst (main_iteration inp w)))
                        = (set_enemies l reset_base, PLAYING)).
    { destruct Hmode as [Hm|Hm].
      - rewrite (main_iteration_menu inp w Hm), Hm. apply handle_menu_input_cases.
      - rewrite (main_iteration_game_over inp w Hm), Hm.
        apply handle_game_over_input_cases. }
    destruct H as [H|(l & Hlen & H)]; injection H as Hg Hs.
    + rewrite Hs in Hplay. destruct Hmode as [Hm|Hm]; rewrite Hm in Hplay; discriminate.
    + rewrite Hg. cbn. auto.
Qed.

(** A start from the menu on the space bar, and a restart on R from the
    game-over screen that [left_session 9] ends in. *)
Lemma restart_resets_witness :
  ((game_state (initial_world left_rng) = MENU \/ game_state (initial_world left_rng) = GAME_OVER)
   /\ game_state (initial_world left_rng) = MENU
   /\ game_state (fst (main_iteration press_space (initial_world left_rng))) = PLAYING
   /\ ((game_state (initial_world left_rng) = MENU ->
      (game_state (fst (main_iteration press_space (initial_world left_rng))) = PLAYING
       <-> existsb (is_key K_SPACE) (handled quits_menu (events press_space)) = true))
     /\ (game_state (initial_world left_rng) = GAME_OVER ->
         (game_state (fst (main_iteration press_space (initial_world left_rng))) = PLAYING
          <-> existsb (is_key K_r) (handled quits_menu (events press_space)) = true))
     /\ (game_state (fst (main_iteration press_space (initial_world left_rng))) = PLAYING ->
         score_value (game (fst (main_iteration press_space (initial_world left_rng)))) = 0
         /\ level (game (fst (main_iteration press_space (initial_world left_rng)))) = 1
         /\ lives (game (fst (main_iteration press_space (initial_world left_rng)))) = 3
         /\ length (enemies (game (fst (main_iteration press_space (initial_world left_rng))))) = 4%nat)))
  /\ ((game_state (left_session 9) = MENU \/ game_state (left_session 9) = GAME_OVER)
      /\ game_state (left_session 9) = GAME_OVER
      /\ game_state (fst (main_iteration press_r (left_session 9))) = PLAYING
      /\ ((game_state (left_session 9) = MENU ->
      (game_state (fst (main_iteration press_r (left_session 9))) = PLAYING
       <-> existsb (is_key K_SPACE) (handled quits_menu (events press_r)) = true))
     /\ (game_state (left_session 9) = GAME_OVER ->
         (game_state (fst (main_iteration press_r (left_session 9))) = PLAYING
          <-> existsb (is_key K_r) (handled quits_menu (events press_r)) = true))
     /\ (game_state (fst (main_iteration press_r (left_session 9))) = PLAYING ->
         score_value (game (fst (main_iteration press_r (left_session 9)))) = 0
         /\ level (game (fst (main_iteration press_r (left_session 9)))) = 1
         /\ lives (game (fst (main_iteration press_r (left_session 9)))) = 3
         /\ length (enemies (game (fst (main_iteration press_r (left_session 9))))) = 4%nat))).
Proof.
  assert (M1 : game_state (initial_world left_rng) = MENU) by (vm_compute; reflexivity).
  assert (M2 : game_state (left_session 9) = GAME_OVER) by (vm_compute; reflexivity).
  assert (P1 : game_state (fst (main_iteration press_space (initial_world left_rng))) = PLAYING)
    by (vm_compute; reflexivity).
  assert (P2 : game_state (fst (main_iteration press_r (left_session 9))) = PLAYING)
    by (vm_compute; reflexivity).
  split.
  - split; [left; exact M1|]. split; [exact M1|]. split; [exact P1|].
    exact (restart_resets (initial_world left_rng) press_space (or_introl M1)).
  - split; [right; exact M2|]. split; [exact M2|]. split; [exact P2|].
    exact (restart_resets (left_session 9) press_r (or_intror M2)).
Defined.

(** ** The subsystem updates and the lives, flag and bullet attributes *)

Ltac break_if :=
  match goal with
  | |- context [if ?c then _ else _] => destruct c eqn:?
  end.

(** Attribute reads after attribute assignments. *)
Ltac gs_simpl :=
  cbn [fst snd playerX playerY playerX_change lives score_value level game_over
       difficulty_multiplier enemies enemy_spawn_timer max_enemies_on_screen
       obstacles obstacle_spawn_timer bullets shoot_cooldown max_bullets
       rapid_fire_timer power_ups
       set_playerX set_playerY set_playerX_change set_lives set_score_value
       set_level set_game_over set_difficulty_multiplier set_enemies
       set_enemy_spawn_timer set_max_enemies_on_screen set_obstacles
       set_obstacle_spawn_timer set_bullets set_shoot_cooldown set_max_bullets
       set_rapid_fire_timer set_power_ups].

Lemma advances_refl (st : GameState * mode) : advances st st.
Proof. unfold advances. intuition lia. Qed.

Lemma advances_trans (a b c : GameState * mode) :
  advances a b -> advances b c -> advances a c.
Proof.
  unfold advances. intros (F1 & L1 & B1 & M1 & C1 & R1) (F2 & L2 & B2 & M2 & C2 & R2).
  split; [auto|]. split; [lia|]. split; [lia|]. repeat split; congruence.
Qed.

Lemma lose_life_advances (g g' : GameState) (gs : mode) :
  lives g' = lives g - 1 ->
  game_over g' = game_over g ->
  bullets g' = bullets g -> max_bullets g' = max_bullets g ->
  shoot_cooldown g' = shoot_cooldown g -> rapid_fire_timer g' = rapid_fire_timer g ->
  advances (g, gs)
    (if lives g' <=? 0 then (set_game_over true g', GAME_OVER) else (g', gs)).
Proof.
  intros Hl Hg Hb Hm Hc Hr. unfold advances, flagged.
  destruct (lives g' <=? 0) eqn:E; cbn [fst snd]; cbn;
    rewrite ?Hb, ?Hm, ?Hc, ?Hr, ?Hg, ?Hl;
    (split; [|repeat split; lia]).
  - intros _. split; [auto|]. intros. apply Z.leb_le in E. lia.
  - apply Z.leb_gt in E. intros [_ H]. destruct H as [H1 H2]; [lia|].
    split; [lia|]. auto.
Qed.

Lemma kill_enemy_advances (e : Enemy.t) (g : GameState) (gs : mode) (s : rng) :
  advances (g, gs) (fst (kill_enemy e g s), gs).
Proof.
  unfold kill_enemy, bind, ret, level_up.
  destruct (random s) as [r s']. cbn [fst].
  unfold advances, flagged.
  repeat break_if; cbn; intuition lia.
Qed.

Lemma enemies_loop_advances (todo : list Enemy.t) (st : GameState * mode) (s : rng) :
  advances st (fst (enemies_loop todo st s)).
Proof.
  revert st s. induction todo as [|e todo IH]; intros [g gs] s; [apply advances_refl|].
  cbn [enemies_loop].
  destruct (fgtb (Enemy.y e) _).
  - match goal with
    | |- context [lives ?g' <=? 0] =>
        pose proof (lose_life_advances g g' gs eq_refl eq_refl eq_refl eq_refl
                      eq_refl eq_refl) as L;
        destruct (lives g' <=? 0)
    end; (eapply advances_trans; [exact L | apply IH]).
  - destruct (find _ _) as [b|]; [destruct (_ <=? 0)|].
    + unfold bind. pose proof (kill_enemy_advances (Enemy.set_health (Enemy.health (move_enemy e) - 1) (move_enemy e)) (set_bullets (list_remove Bullet.eqb b (bullets g)) g) gs s) as K.
      destruct (kill_enemy _ _ s) as [g' s']. cbn [fst] in K.
      eapply advances_trans; [|apply IH].
      eapply advances_trans; [|exact K].
      unfold advances, flagged; cbn. pose proof (list_remove_length Bullet.eqb b (bullets g)). intuition lia.
    + eapply advances_trans; [|apply IH].
      unfold advances, flagged; cbn. pose proof (list_remove_length Bullet.eqb b (bullets g)). intuition lia.
    + eapply advances_trans; [|apply IH].
      unfold advances, flagged; cbn. intuition lia.
Qed.

Lemma update_enemies_advances (st : GameState * mode) (s : rng) :
  advances st (fst (update_enemies st s)).
Proof.
  destruct st as [g gs]. unfold update_enemies, bind, ret.
  set (g1 := set_enemy_spawn_timer (enemy_spawn_timer g + 1) g).
  destruct (enemy_spawn_timer g1 >=? _).
  - destruct (spawn_enemy_frame g1 s) as [l Hl].
    destruct (spawn_enemy g1 s) as [g2 s2]. cbn [fst] in Hl. subst g2.
    eapply advances_trans; [|apply enemies_loop_advances].
    unfold advances, flagged; cbn. intuition lia.
  - eapply advances_trans; [|apply enemies_loop_advances].
    unfold advances, flagged; cbn. intuition lia.
Qed.

Lemma obstacles_loop_advances (rect : Z * Z * Z * Z) (todo : list Obstacle.t)
  (st : GameState * mode) :
  advances st (obstacles_loop rect todo st).
Proof.
  revert st. induction todo as [|o todo IH]; intros [g gs]; [apply advances_refl|].
  cbn [obstacles_loop]. destruct rect as [[[px py] pw] ph].
  destruct (Obstacle.y _ >? SCREEN_HEIGHT).
  - eapply advances_trans; [|apply IH].
    unfold advances, flagged; cbn. intuition lia.
  - set (g1 := match find _ (bullets g) with Some _ => _ | None => g end).
    assert (H1 : advances (g, gs) (g1, gs)).
    { subst g1. destruct (find _ (bullets g)) as [b|]; [|apply advances_refl].
      unfold advances, flagged; cbn.
      pose proof (list_remove_length Bullet.eqb b (bullets g)). intuition lia. }
    destruct (rect_overlap _ _ _ _ _ _ _ _).
    + match goal with
      | |- context [lives ?g' <=? 0] =>
          pose proof (lose_life_advances g1 g' gs eq_refl eq_refl eq_refl eq_refl
                        eq_refl eq_refl) as L;
          destruct (lives g' <=? 0)
      end; (eapply advances_trans; [exact H1|]);
        (eapply advances_trans; [exact L | apply IH]).
    + eapply advances_trans; [exact H1|].
      eapply advances_trans; [|apply IH].
      unfold advances, flagged; cbn. intuition lia.
Qed.

Lemma update_obstacles_advances (st : GameState * mode) (s : rng) :
  advances st (fst (update_obstacles st s)).
Proof.
  destruct st as [g gs]. unfold update_obstacles, bind, ret.
  set (g1 := set_obstacle_spawn_timer (obstacle_spawn_timer g + 1) g).
  destruct (obstacle_spawn_timer g1 >=? _).
  - destruct (spawn_obstacle_frame g1 s) as [o Ho].
    destruct (spawn_obstacle g1 s) as [g2 s2]. cbn [fst] in *. subst g2.
    eapply advances_trans; [|apply obstacles_loop_advances].
    unfold advances, flagged; cbn. intuition lia.
  - cbn [fst]. eapply advances_trans; [|apply obstacles_loop_advances].
    unfold advances, flagged; cbn. intuition lia.
Qed.

Lemma update_player_fields (g : GameState) :
  keeps g (update_player g)
  /\ bullets (update_player g) = bullets g
  /\ shoot_cooldown (update_player g) = shoot_cooldown g
  /\ rapid_fire_timer (update_player g) = rapid_fire_timer g.
Proof. unfold update_player, keeps. repeat break_if; cbn; auto 10. Qed.

Lemma bullets_loop_length (done todo : list Bullet.t) :
  (length (bullets_loop done todo) <= length done + length todo)%nat.
Proof.
  revert done. induction todo as [|b todo IH]; intros done; simpl; [lia|].
  destruct (_ <? 0).
  - specialize (IH (remove_current Bullet.eqb done
                      (Bullet.set_y (Bullet.y b - Bullet.speed b) b))).
    rewrite remove_current_length in IH. lia.
  - specialize (IH (done ++ [Bullet.set_y (Bullet.y b - Bullet.speed b) b])).
    rewrite length_app in IH. simpl in IH. lia.
Qed.

Lemma update_bullets_fields (g : GameState) :
  keeps g (update_bullets g)
  /\ (length (bullets (update_bullets g)) <= length (bullets g))%nat
  /\ shoot_cooldown (update_bullets g)
     = (if shoot_cooldown g >? 0 then shoot_cooldown g - 1 else shoot_cooldown g)
  /\ rapid_fire_timer (update_bullets g)
     = (if rapid_fire_timer g >? 0 then rapid_fire_timer g - 1
        else rapid_fire_timer g).
Proof.
  unfold update_bullets, keeps.
  destruct (shoot_cooldown g >? 0); cbn -[bullets_loop];
    destruct (rapid_fire_timer g >? 0); cbn -[bullets_loop]; repeat split; auto;
    match goal with
    | |- (length (bullets_loop [] ?l) <= _)%nat =>
        pose proof (bullets_loop_length [] l) as H; simpl in H; exact H
    end.
Qed.

Lemma power_ups_loop_fields (todo : list PowerUp.t) (g : GameState) :
  keeps g (power_ups_loop todo g)
  /\ bullets (power_ups_loop todo g) = bullets g
  /\ shoot_cooldown (power_ups_loop todo g) = shoot_cooldown g.
Proof.
  revert g. induction todo as [|p todo IH]; intros g; [unfold keeps; auto|].
  cbn [power_ups_loop].
  repeat break_if;
    match goal with
    | |- context [power_ups_loop todo ?g'] =>
        destruct (IH g') as ((? & ? & ?) & ? & ?)
    end;
    unfold keeps in *;
    try match goal with
      | H : context [PowerUp.type ?q] |- _ => destruct (PowerUp.type q)
      end;
    cbn in *; repeat split; congruence.
Qed.

Lemma update_power_ups_fields (g : GameState) :
  keeps g (update_power_ups g)
  /\ bullets (update_power_ups g) = bullets g
  /\ shoot_cooldown (update_power_ups g) = shoot_cooldown g.
Proof.
  unfold update_power_ups.
  destruct (power_ups_loop_fields (power_ups g) (set_power_ups [] g))
    as ((? & ? & ?) & ? & ?).
  unfold keeps in *. cbn in *. auto 10.
Qed.

(** ** Firing *)

Lemma create_bullet_spec (g : GameState) :
  create_bullet g =
  if (shoot_cooldown g <=? 0) && (bullet_count g <? effective_cap g)
  then set_shoot_cooldown (fire_cooldown g)
         (set_bullets (bullets g ++ [Bullet.mk (playerX g) (playerY g) BULLET_SPEED]) g)
  else g.
Proof. reflexivity. Qed.

Lemma fired_refl (g : GameState) : fired g g.
Proof. unfold fired, keeps. intuition lia. Qed.

Lemma fired_trans (a b c : GameState) : fired a b -> fired b c -> fired a c.
Proof.
  unfold fired, keeps, effective_cap.
  intros ((L1 & G1 & M1) & R1 & C1 & B1) ((L2 & G2 & M2) & R2 & C2 & B2).
  rewrite R1, M1 in B2.
  repeat split; try congruence; auto; lia.
Qed.

Lemma create_bullet_fired (g : GameState) : fired g (create_bullet g).
Proof.
  rewrite create_bullet_spec.
  destruct ((shoot_cooldown g <=? 0) && (bullet_count g <? effective_cap g)) eqn:E;
    [|apply fired_refl].
  apply andb_true_iff in E. destruct E as [_ E]. apply Z.ltb_lt in E.
  unfold fired, keeps, bullet_count, fire_cooldown in *. cbn.
  rewrite length_app. simpl.
  repeat split; auto; [destruct (rapid_fire_timer g >? 0); lia | lia].
Qed.

Lemma game_events_fired (evs : list event) (g : GameState) (gs : mode) :
  fired g (fst (fst (game_events evs (g, gs))))
  /\ (snd (fst (game_events evs (g, gs))) = gs
      \/ snd (fst (game_events evs (g, gs))) = MENU).
Proof.
  revert g gs. induction evs as [|ev evs IH]; intros g gs;
    [split; [apply fired_refl | now left]|].
  destruct ev as [|[| | |]|]; cbn [game_events fst snd];
    try (split; [apply fired_refl | now left]); try apply IH.
  - destruct (IH (create_bullet g) gs) as [H1 H2]. split; [|exact H2].
    eapply fired_trans; [apply create_bullet_fired | exact H1].
  - destruct (IH g MENU) as [H1 H2]. split; [exact H1|]. right. tauto.
Qed.

Lemma handle_game_input_fired (evs : list event) (keys : pressed) (g : GameState)
  (gs : mode) :
  fired g (fst (fst (handle_game_input evs keys (g, gs))))
  /\ (snd (fst (handle_game_input evs keys (g, gs))) = gs
      \/ snd (fst (handle_game_input evs keys (g, gs))) = MENU).
Proof.
  unfold handle_game_input.
  destruct (game_events_fired evs g gs) as [H1 H2].
  destruct (game_events evs (g, gs)) as [[g' gs'] c]. cbn [fst snd] in *.
  destruct c; cbn [fst snd]; [|auto].
  split; [|exact H2].
  eapply fired_trans; [exact H1|].
  unfold fired, keeps, bullet_count, effective_cap.
  repeat break_if; cbn; intuition lia.
Qed.

(** ** A whole frame *)

Lemma update_all_spec (g : GameState) (gs : mode) (s : rng) :
  (flagged (g, gs) -> flagged (fst (update_all (g, gs) s)))
  /\ lives (fst (fst (update_all (g, gs) s))) <= lives g
  /\ bullet_count (fst (fst (update_all (g, gs) s))) <= bullet_count g
  /\ max_bullets (fst (fst (update_all (g, gs) s))) = max_bullets g
  /\ (0 <= shoot_cooldown g -> 0 <= shoot_cooldown (fst (fst (update_all (g, gs) s)))).
Proof.
  unfold update_all, bind.
  destruct (update_player_fields g) as ((L1 & G1 & M1) & B1 & C1 & R1).
  set (g1 := update_player g) in *.
  destruct (update_bullets_fields g1) as ((L2 & G2 & M2) & B2 & C2 & R2).
  set (g2 := update_bullets g1) in *.
  destruct (update_power_ups_fields g2) as ((L3 & G3 & M3) & B3 & C3).
  set (g3 := update_power_ups g2) in *.
  pose proof (update_enemies_advances (g3, gs) s) as A4.
  destruct (update_enemies (g3, gs) s) as [st4 s4]. cbn [fst] in A4.
  pose proof (update_obstacles_advances st4 s4) as A5.
  destruct (update_obstacles st4 s4) as [st5 s5]. cbn [fst] in *.
  pose proof (advances_trans _ _ _ A4 A5) as (F & L & B & M & C & R).
  cbn [fst snd] in *. unfold bullet_count.
  assert (Hc : 0 <= shoot_cooldown g -> 0 <= shoot_cooldown g2).
  { rewrite C2, C1. destruct (shoot_cooldown g >? 0) eqn:E; lia. }
  split.
  { intros Hf. apply F. unfold flagged in *. cbn [fst snd] in *.
    rewrite L3, L2, L1, G3, G2, G1. exact Hf. }
  split; [lia|]. split; [rewrite B3 in B; rewrite B1 in B2; lia|]. split; [congruence|].
  rewrite C, C3. exact Hc.
Qed.

Lemma reset_inv (l : list Enemy.t) (s : rng) :
  session_inv (mkWorld (set_enemies l reset_base) PLAYING s).
Proof.
  unfold session_inv, flagged, bullet_count. cbn.
  repeat split; try lia; intros; try lia; discriminate.
Qed.

(** Every frame keeps the invariant, whatever it reads from the keyboard. *)
Lemma frame_inv (inp : frame) (w : world) :
  session_inv w -> session_inv (fst (main_iteration inp w)).
Proof.
  intros Hinv. destruct w as [g gs s].
  unfold main_iteration. cbn [game game_state random_state].
  destruct gs.
  - destruct (handle_menu_input_cases (events inp) (g, MENU) s)
      as [H|(l & _ & H)];
      destruct (handle_menu_input _ _ s) as [[[g' gs'] r] s'];
      cbn [fst] in *; injection H as -> ->; [exact Hinv | apply reset_inv].
  - destruct (handle_game_input_fired (events inp) (keys inp) g PLAYING)
      as (((L1 & G1 & M1) & R1 & C1 & B1) & Hgs).
    destruct (handle_game_input _ _ _) as [[g1 gs1] r]. cbn [fst snd] in *.
    destruct Hinv as (Hf & Hc & Hm & Hb). cbn [game game_state] in *.
    assert (Hlives : 0 < lives g).
    { destruct Hf as [Hf _]. cbn [fst snd] in Hf.
      destruct (Z_lt_le_dec 0 (lives g)) as [|Hle]; [assumption|].
      destruct (Hf Hle) as [_ Habs]. discriminate. }
    assert (Hf1 : flagged (g1, gs1)).
    { destruct Hf as [_ Hf]. destruct (Hf Hlives) as [Hgo _].
      unfold flagged. cbn [fst snd] in *. rewrite L1, G1. split; [lia|].
      intros _. split; [assumption|]. destruct Hgs as [-> | ->]; discriminate. }
    assert (Hgo : game_over g1 = false).
    { destruct Hf as [_ Hf]. destruct (Hf Hlives) as [Hgo _]. cbn in Hgo. congruence. }
    rewrite Hgo. cbn [negb].
    destruct (update_all_spec g1 gs1 s) as (F & L & B & M & C).
    destruct (update_all (g1, gs1) s) as [[g2 gs2] s2]. cbn [fst snd] in *.
    unfold session_inv. cbn [game game_state].
    split; [exact (F Hf1)|]. split; [auto|]. split; [congruence|].
    unfold effective_cap in B1. rewrite Hm in B1.
    destruct (rapid_fire_timer g >? 0); lia.
  - destruct (handle_game_over_input_cases (events inp) (g, GAME_OVER) s)
      as [H|(l & _ & H)];
      destruct (handle_game_over_input _ _ s) as [[[g' gs'] r] s'];
      cbn [fst] in *; injection H as -> ->; [exact Hinv | apply reset_inv].
Qed.

Lemma initial_inv (s : rng) : session_inv (initial_world s).
Proof.
  unfold initial_world.
  destruct (reset_game_shape blank s) as (l & Hl & _).
  destruct (reset_game blank s) as [g s']. cbn [fst] in Hl. subst g.
  unfold session_inv, flagged, bullet_count. cbn.
  repeat split; try lia; intros; try lia; discriminate.
Qed.

Lemma reachable_inv (w : world) : reachable w -> session_inv w.
Proof.
  induction 1 as [s | w inp w' _ IH Hstep]; [apply initial_inv|].
  pose proof (frame_inv inp w IH) as H. now rewrite Hstep in H.
Qed.

(** ** Sessions *)

Lemma reachable_run (inps : list frame) (w : world) :
  reachable w -> all_running inps w = true -> reachable (run inps w).
Proof.
  revert w. induction inps as [|inp inps IH]; intros w Hw Hrun; [exact Hw|].
  cbn [run all_running] in *. apply andb_true_iff in Hrun. destruct Hrun as [H1 H2].
  apply IH; [|exact H2].
  apply (reach_frame w inp); [exact Hw|].
  destruct (main_iteration inp w) as [w' r]. cbn [fst snd] in *. now subst r.
Qed.

Lemma left_session_reachable (n : nat) :
  all_running (press_space :: repeat idle n) (initial_world left_rng) = true ->
  reachable (left_session n).
Proof. intros H. apply reachable_run; [apply reach_start | exact H]. Qed.

(** ** Lives and the game-over mode *)

(** C1, as the code has it.  At the head of every frame of a session the
    lives are at most 0 exactly when the mode is [GAME_OVER], so they are
    positive in every state in which the simulation runs; and a frame takes
    the mode to [GAME_OVER] if and only if it takes the lives from a value
    above 0 to a value of at most 0.  That value can be negative. *)
Theorem lives_and_game_over (w : world) (inp : frame) :
  reachable w ->
  (game_state w = GAME_OVER <-> lives (game w) <= 0)
  /\ (game_state w <> GAME_OVER
      /\ game_state (fst (main_iteration inp w)) = GAME_OVER
      <-> 0 < lives (game w)
          /\ lives (game (fst (main_iteration inp w))) <= 0).
Proof.
  intros Hw. pose proof (reachable_inv w Hw) as Hinv.
  pose proof (frame_inv inp w Hinv) as Hinv'.
  destruct Hinv as ((F1 & F2) & _). destruct Hinv' as ((F1' & F2') & _).
  cbn [fst snd] in *.
  assert (E : game_state w = GAME_OVER <-> lives (game w) <= 0).
  { split; intros H.
    - destruct (Z_lt_le_dec 0 (lives (game w))) as [Hp|]; [|assumption].
      destruct (F2 Hp) as [_ Hn]. contradiction.
    - now apply F1. }
  split; [exact E|]. split.
  - intros [Hn Hgo]. split.
    + destruct (Z_lt_le_dec 0 (lives (game w))) as [|Hle]; [assumption|].
      elim Hn. now apply E.
    + destruct (Z_lt_le_dec 0 (lives (game (fst (main_iteration inp w)))))
        as [Hp|]; [|assumption].
      destruct (F2' Hp) as [_ Hn']. contradiction.
  - intros [Hp Hle]. split.
    + now destruct (F2 Hp).
    + now apply F1'.
Qed.

(** Four enemies that enter from the left edge reach the player zone in the
    same frame: the lives go from 3 to -1. *)
Lemma lives_below_zero :
  exists w, reachable w /\ game_state w = GAME_OVER /\ lives (game w) = -1.
Proof.
  exists (left_session 9). split; [|split].
  - apply left_session_reachable. vm_compute. reflexivity.
  - vm_compute. reflexivity.
  - vm_compute. reflexivity.
Qed.

Lemma lives_and_game_over_witness :
  reachable (left_session 8)
  /\ (game_state (left_session 8) = GAME_OVER <-> lives (game (left_session 8)) <= 0)
  /\ (game_state (left_session 8) <> GAME_OVER
      /\ game_state (fst (main_iteration idle (left_session 8))) = GAME_OVER
      <-> 0 < lives (game (left_session 8))
          /\ lives (game (fst (main_iteration idle (left_session 8)))) <= 0).
Proof.
  assert (H : reachable (left_session 8)).
  { apply left_session_reachable. vm_compute. reflexivity. }
  split; [exact H|].
  apply (lives_and_game_over (left_session 8) idle H).
Defined.

(** ** The game-over flag *)

(** C2, as the code has it.  At the head of every frame the flag is set
    exactly when the lives are at most 0; and a frame that starts with the
    flag set runs no subsystem update: it leaves the simulation state as it
    is, in the mode [GAME_OVER], unless a restart resets it.  The updates of
    the frame in which the flag is set are not cut short. *)
Theorem game_over_freezes (w : world) (inp : frame) :
  reachable w ->
  (game_over (game w) = true <-> lives (game w) <= 0)
  /\ (game_over (game w) = true ->
      (game (fst (main_iteration inp w)) = game w
       /\ game_state (fst (main_iteration inp w)) = GAME_OVER)
      \/ (exists l, length l = 4%nat
            /\ game (fst (main_iteration inp w)) = set_enemies l reset_base
            /\ game_state (fst (main_iteration inp w)) = PLAYING)).
Proof.
  intros Hw. destruct (reachable_inv w Hw) as ((F1 & F2) & _).
  cbn [fst snd] in *.
  assert (E : game_over (game w) = true <-> lives (game w) <= 0).
  { split; intros H.
    - destruct (Z_lt_le_dec 0 (lives (game w))) as [Hp|]; [|assumption].
      destruct (F2 Hp) as [Hf _]. congruence.
    - now apply F1. }
  split; [exact E|]. intros Hgo.
  assert (Hm : game_state w = GAME_OVER) by (apply F1; now apply E).
  pose proof (main_iteration_game_over inp w Hm) as Hit.
  destruct (handle_game_over_input_cases (events inp) (game w, GAME_OVER)
              (random_state w)) as [H|(l & Hl & H)];
    rewrite H in Hit; injection Hit as Hg Hs.
  - left. now split.
  - right. exists l. now repeat split.
Qed.

(** In the frame in which the enemies use up the lives, the flag is set
    inside [update_enemies] and [update_obstacles] still runs: it counts its
    spawn timer up. *)
Lemma updates_after_flag :
  exists w,
    reachable w /\ game_state w = PLAYING /\ game_over (game w) = false
    /\ let g := update_power_ups (update_bullets (update_player (game w))) in
       let st := fst (update_enemies (g, PLAYING) (random_state w)) in
       let s := snd (update_enemies (g, PLAYING) (random_state w)) in
       game_over (fst st) = true
       /\ obstacle_spawn_timer (fst st) = 8
       /\ obstacle_spawn_timer (fst (fst (update_obstacles st s))) = 9
       /\ game (fst (main_iteration idle w)) = fst (fst (update_obstacles st s)).
Proof.
  exists (left_session 8). split; [|split; [|split]].
  - apply left_session_reachable. vm_compute. reflexivity.
  - vm_compute. reflexivity.
  - vm_compute. reflexivity.
  - vm_compute. repeat split; reflexivity.
Qed.

Lemma game_over_freezes_witness :
  reachable (left_session 9)
  /\ game_over (game (left_session 9)) = true
  /\ ((game (fst (main_iteration press_r (left_session 9))) = game (left_session 9)
       /\ game_state (fst (main_iteration press_r (left_session 9))) = GAME_OVER)
      \/ (exists l, length l = 4%nat
            /\ game (fst (main_iteration press_r (left_session 9)))
               = set_enemies l reset_base
            /\ game_state (fst (main_iteration press_r (left_session 9))) = PLAYING)).
Proof.
  assert (H : reachable (left_session 9)).
  { apply left_session_reachable. vm_compute. reflexivity. }
  assert (Hgo : game_over (game (left_session 9)) = true).
  { vm_compute. reflexivity. }
  split; [exact H|]. split; [exact Hgo|].
  exact (proj2 (game_over_freezes (left_session 9) press_r H) Hgo).
Defined.

(** ** The bullet cap *)

Lemma frame_bullets (inp : frame) (w : world) :
  bullet_count (game (fst (main_iteration inp w)))
  <= Z.max (bullet_count (game w)) (effective_cap (game w)).
Proof.
  destruct w as [g gs s]. unfold main_iteration. cbn [game game_state random_state].
  destruct gs.
  - destruct (handle_menu_input_cases (events inp) (g, MENU) s)
      as [H|(l & _ & H)];
      destruct (handle_menu_input _ _ s) as [[[g' gs'] r] s'];
      cbn [fst] in *; injection H as -> ->; cbn [fst game]; [lia|].
    unfold bullet_count, effective_cap. cbn.
    destruct (rapid_fire_timer g >? 0); lia.
  - destruct (handle_game_input_fired (events inp) (keys inp) g PLAYING)
      as (((L1 & G1 & M1) & R1 & C1 & B1) & Hgs).
    destruct (handle_game_input _ _ _) as [[g1 gs1] r]. cbn [fst snd] in *.
    destruct (game_over g1); cbn [negb].
    + unfold ret. cbn [fst game]. exact B1.
    + destruct (update_all_spec g1 gs1 s) as (_ & _ & B & _).
      destruct (update_all (g1, gs1) s) as [[g2 gs2] s2]. cbn [fst snd game] in *.
      lia.
  - destruct (handle_game_over_input_cases (events inp) (g, GAME_OVER) s)
      as [H|(l & _ & H)];
      destruct (handle_game_over_input _ _ s) as [[[g' gs'] r] s'];
      cbn [fst] in *; injection H as -> ->; cbn [fst game]; [lia|].
    unfold bullet_count, effective_cap. cbn.
    destruct (rapid_fire_timer g >? 0); lia.
Qed.

(** C3, as the code has it.  At the end of every frame of a session there
    are at most 5 live bullets, and at most as many as the larger of the
    number at the start of the frame and the effective cap at the start of
    the frame (5 while the rapid-fire timer is positive, otherwise the
    configured maximum, which is 3).  The cap is applied when a bullet is
    fired: bullets fired under rapid fire stay live when the timer runs
    out. *)
Theorem bullet_count_bound (w : world) (inp : frame) :
  reachable w ->
  bullet_count (game (fst (main_iteration inp w))) <= 5
  /\ bullet_count (game (fst (main_iteration inp w)))
     <= Z.max (bullet_count (game w)) (effective_cap (game w))
  /\ effective_cap (game w) = (if rapid_fire_timer (game w) >? 0 then 5 else 3).
Proof.
  intros Hw. pose proof (reachable_inv w Hw) as Hinv.
  destruct (frame_inv inp w Hinv) as (_ & _ & _ & H5).
  destruct Hinv as (_ & _ & Hm & _).
  split; [exact H5|]. split; [apply frame_bullets|].
  unfold effective_cap. now rewrite Hm.
Qed.

Lemma rapid_fire_session_reachable : reachable rapid_fire_session.
Proof. apply reachable_run; [apply reach_start | vm_compute; reflexivity]. Qed.

(** Five bullets are live at the end of the frame in which the rapid-fire
    timer reaches 0, two more than the cap of 3 that applies from then on. *)
Lemma five_bullets_after_rapid_fire :
  exists w,
    reachable w
    /\ rapid_fire_timer (game w) = 1
    /\ bullet_count (game w) = 4
    /\ rapid_fire_timer (game (fst (main_iteration press_space w))) = 0
    /\ max_bullets (game (fst (main_iteration press_space w))) = 3
    /\ bullet_count (game (fst (main_iteration press_space w))) = 5.
Proof.
  exists rapid_fire_session. split; [apply rapid_fire_session_reachable|].
  vm_compute. repeat split; reflexivity.
Qed.

Lemma bullet_count_bound_witness :
  reachable rapid_fire_session
  /\ bullet_count (game (fst (main_iteration press_space rapid_fire_session))) <= 5
  /\ bullet_count (game (fst (main_iteration press_space rapid_fire_session)))
     <= Z.max (bullet_count (game rapid_fire_session))
          (effective_cap (game rapid_fire_session))
  /\ effective_cap (game rapid_fire_session)
     = (if rapid_fire_timer (game rapid_fire_session) >? 0 then 5 else 3).
Proof.
  split; [apply rapid_fire_session_reachable|].
  apply (bullet_count_bound rapid_fire_session press_space
           rapid_fire_session_reachable).
Defined.

(** ** The fire action *)

(** C5.  In every state in which a session can invoke the fire action (the
    state at the head of a frame, after any number of earlier events of the
    same frame), a bullet is created if and only if the shoot cooldown is 0
    and the number of bullets is below the effective maximum (5 during rapid
    fire, otherwise the configured 3).  A shot appends a bullet at the
    player's position and sets the cooldown to 5 during rapid fire and to 15
    otherwise; a refused shot leaves the state as it is. *)
Theorem fire_action (w : world) (evs : list event) :
  reachable w ->
  let g := fst (fst (game_events evs (game w, game_state w))) in
  let shot := Bullet.mk (playerX g) (playerY g) BULLET_SPEED in
  let allowed := shoot_cooldown g = 0 /\ bullet_count g < effective_cap g in
  (bullets (create_bullet g) = bullets g ++ [shot] <-> allowed)
  /\ (allowed ->
      create_bullet g
      = set_shoot_cooldown (if rapid_fire_timer g >? 0 then 5 else 15)
          (set_bullets (bullets g ++ [shot]) g))
  /\ (~ allowed -> create_bullet g = g)
  /\ effective_cap g = (if rapid_fire_timer g >? 0 then 5 else 3).
Proof.
  intros Hw g shot allowed.
  destruct (reachable_inv w Hw) as (_ & Hc & Hm & _).
  destruct (game_events_fired evs (game w) (game_state w))
    as (((_ & _ & M) & _ & C & _) & _).
  fold g in M, C. specialize (C Hc).
  assert (Hdec : (shoot_cooldown g <=? 0) && (bullet_count g <? effective_cap g)
                 = true <-> allowed).
  { unfold allowed. rewrite andb_true_iff, Z.leb_le, Z.ltb_lt. lia. }
  assert (Hyes : allowed ->
            create_bullet g
            = set_shoot_cooldown (if rapid_fire_timer g >? 0 then 5 else 15)
                (set_bullets (bullets g ++ [shot]) g)).
  { intros Ha. rewrite create_bullet_spec. apply Hdec in Ha. now rewrite Ha. }
  assert (Hno : ~ allowed -> create_bullet g = g).
  { intros Hn. rewrite create_bullet_spec.
    destruct ((shoot_cooldown g <=? 0) && (bullet_count g <? effective_cap g)) eqn:E;
      [|reflexivity].
    elim Hn. now apply Hdec. }
  split; [|split; [exact Hyes | split; [exact Hno|]]].
  - split.
    + intros Hb.
      destruct ((shoot_cooldown g <=? 0) && (bullet_count g <? effective_cap g)) eqn:E;
        [now apply Hdec|].
      rewrite Hno in Hb.
      * apply (f_equal (@length _)) in Hb. rewrite length_app in Hb. simpl in Hb. lia.
      * intros Ha. apply Hdec in Ha. congruence.
    + intros Ha. rewrite (Hyes Ha). reflexivity.
  - unfold effective_cap. now rewrite M, Hm.
Qed.

Lemma fire_action_witness :
  reachable (left_session 1)
  /\ shoot_cooldown (game (left_session 1)) = 0
  /\ bullet_count (game (left_session 1)) = 0
  /\ (let g :=
        fst (fst (game_events [] (game (left_session 1), game_state (left_session 1))))
      in
      let shot := Bullet.mk (playerX g) (playerY g) BULLET_SPEED in
      let allowed := shoot_cooldown g = 0 /\ bullet_count g < effective_cap g in
      (bullets (create_bullet g) = bullets g ++ [shot] <-> allowed)
      /\ (allowed ->
          create_bullet g
          = set_shoot_cooldown (if rapid_fire_timer g >? 0 then 5 else 15)
              (set_bullets (bullets g ++ [shot]) g))
      /\ (~ allowed -> create_bullet g = g)
      /\ effective_cap g = (if rapid_fire_timer g >? 0 then 5 else 3)).
Proof.
  assert (H : reachable (left_session 1)).
  { apply left_session_reachable. vm_compute. reflexivity. }
  split; [exact H|]. split; [vm_compute; reflexivity|].
  split; [vm_compute; reflexivity|].
  exact (fire_action (left_session 1) [] H).
Defined.

(** ** Level and cap *)

Lemma climbs_refl (g : GameState) : climbs g g.
Proof. unfold climbs. intuition lia. Qed.

Lemma climbs_trans (a b c : GameState) : climbs a b -> climbs b c -> climbs a c.
Proof. unfold climbs. intros [A1 A2] [B1 B2]. split; [tauto|]. intros H.
  specialize (A2 H). specialize (B2 (A1 H)). lia. Qed.

Lemma climbs_same (g g' : GameState) :
  level g' = level g -> max_enemies_on_screen g' = max_enemies_on_screen g ->
  climbs g g'.
Proof. unfold climbs, cap_ok. intros -> ->. intuition lia. Qed.

Lemma level_up_climbs (g : GameState) : climbs g (level_up g).
Proof.
  unfold level_up. break_if; [|apply climbs_refl].
  unfold climbs, cap_ok, MAX_ENEMIES. gs_simpl. lia.
Qed.

Lemma kill_enemy_climbs (e : Enemy.t) (g : GameState) (s : rng) :
  climbs g (fst (kill_enemy e g s)).
Proof.
  unfold kill_enemy, bind, ret. destruct (random s) as [r s']. cbn [fst].
  eapply climbs_trans; [|apply level_up_climbs].
  apply climbs_same; break_if; reflexivity.
Qed.

Lemma enemies_loop_climbs (todo : list Enemy.t) (g : GameState) (gs : mode) (s : rng) :
  climbs g (fst (fst (enemies_loop todo (g, gs) s))).
Proof.
  revert g gs s. induction todo as [|e todo IH]; intros g gs s; [apply climbs_refl|].
  cbn [enemies_loop].
  destruct (fgtb (Enemy.y e) _).
  - destruct (lives _ <=? 0);
      (eapply climbs_trans; [|apply IH]); apply climbs_same; reflexivity.
  - destruct (find _ _) as [b|]; [destruct (_ <=? 0)|].
    + unfold bind.
      pose proof (kill_enemy_climbs
                    (Enemy.set_health (Enemy.health (move_enemy e) - 1) (move_enemy e))
                    (set_bullets (list_remove Bullet.eqb b (bullets g)) g) s) as K.
      destruct (kill_enemy _ _ s) as [g' s']. cbn [fst] in K.
      eapply climbs_trans; [|apply IH].
      eapply climbs_trans; [|exact K]. apply climbs_same; reflexivity.
    + eapply climbs_trans; [|apply IH]. apply climbs_same; reflexivity.
    + eapply climbs_trans; [|apply IH]. apply climbs_same; reflexivity.
Qed.

Lemma obstacles_loop_level (rect : Z * Z * Z * Z) (todo : list Obstacle.t)
  (g : GameState) (gs : mode) :
  level (fst (obstacles_loop rect todo (g, gs))) = level g
  /\ max_enemies_on_screen (fst (obstacles_loop rect todo (g, gs)))
     = max_enemies_on_screen g.
Proof.
  revert g gs. induction todo as [|o todo IH]; intros g gs; [now split|].
  cbn [obstacles_loop]. destruct rect as [[[px py] pw] ph].
  destruct (Obstacle.y _ >? SCREEN_HEIGHT).
  - match goal with
    | |- context [obstacles_loop ?r todo (?g1, ?m)] => destruct (IH g1 m) as [-> ->]
    end. now split.
  - set (g1 := match find _ (bullets g) with Some _ => _ | None => g end).
    assert (H1 : level g1 = level g
                 /\ max_enemies_on_screen g1 = max_enemies_on_screen g).
    { subst g1. destruct (find _ (bullets g)); now split. }
    destruct H1 as [H1 H2].
    destruct (rect_overlap px py pw ph _ _ _ _); [destruct (lives _ <=? 0)|];
      match goal with
      | |- context [obstacles_loop ?r todo (?g2, ?m)] => destruct (IH g2 m) as [-> ->]
      end; gs_simpl; now split.
Qed.

Lemma power_ups_loop_level (todo : list PowerUp.t) (g : GameState) :
  level (power_ups_loop todo g) = level g
  /\ max_enemies_on_screen (power_ups_loop todo g) = max_enemies_on_screen g.
Proof.
  revert g. induction todo as [|p todo IH]; intros g; [now split|].
  cbn [power_ups_loop].
  repeat break_if;
    match goal with
    | |- context [power_ups_loop todo ?g'] => destruct (IH g') as [-> ->]
    end;
    try match goal with
      | |- context [PowerUp.type ?q] => destruct (PowerUp.type q)
      end;
    gs_simpl; now split.
Qed.

Lemma update_all_climbs (g : GameState) (gs : mode) (s : rng) :
  climbs g (fst (fst (update_all (g, gs) s))).
Proof.
  unfold update_all, bind.
  set (g3 := update_power_ups (update_bullets (update_player g))).
  assert (H3 : climbs g g3).
  { apply climbs_same; subst g3; unfold update_power_ups;
      match goal with
      | |- context [power_ups_loop ?t ?g'] =>
          destruct (power_ups_loop_level t g') as [E1 E2]; rewrite ?E1, ?E2
      end;
      unfold update_bullets, update_player; repeat break_if; reflexivity. }
  assert (H4 : climbs g3 (fst (fst (update_enemies (g3, gs) s)))).
  { unfold update_enemies, bind, ret.
    destruct (_ >=? _).
    - destruct (spawn_enemy_frame
                  (set_enemy_spawn_timer (enemy_spawn_timer g3 + 1) g3) s) as [l Hl].
      destruct (spawn_enemy _ s) as [g' s']. cbn [fst] in Hl. subst g'.
      eapply climbs_trans; [|apply enemies_loop_climbs]. apply climbs_same; reflexivity.
    - eapply climbs_trans; [|apply enemies_loop_climbs]. apply climbs_same; reflexivity. }
  destruct (update_enemies (g3, gs) s) as [[g4 gs4] s4]. cbn [fst] in H4.
  eapply climbs_trans; [exact H3|]. eapply climbs_trans; [exact H4|].
  unfold update_obstacles, bind, ret.
  destruct (_ >=? _).
  - destruct (spawn_obstacle_frame
                (set_obstacle_spawn_timer (obstacle_spawn_timer g4 + 1) g4) s4)
      as [o Ho].
    destruct (spawn_obstacle _ s4) as [g' s']. cbn [fst snd] in *. subst g'.
    apply climbs_same;
      match goal with
      | |- context [obstacles_loop ?r ?t (?g', ?m)] =>
          destruct (obstacles_loop_level r t g' m) as [E1 E2]; rewrite ?E1, ?E2
      end; reflexivity.
  - cbn [fst snd]. apply climbs_same;
      match goal with
      | |- context [obstacles_loop ?r ?t (?g', ?m)] =>
          destruct (obstacles_loop_level r t g' m) as [E1 E2]; rewrite ?E1, ?E2
      end; reflexivity.
Qed.

Lemma game_events_level (evs : list event) (g : GameState) (gs : mode) :
  level (fst (fst (game_events evs (g, gs)))) = level g
  /\ max_enemies_on_screen (fst (fst (game_events evs (g, gs))))
     = max_enemies_on_screen g.
Proof.
  revert g gs. induction evs as [|ev evs IH]; intros g gs; [now split|].
  destruct ev as [|[| | |]|]; cbn [game_events fst snd]; try apply IH; try now split.
  destruct (IH (create_bullet g) gs) as [-> ->].
  unfold create_bullet. break_if; now split.
Qed.

Lemma frame_cap_ok (inp : frame) (w : world) :
  cap_ok (game w) -> cap_ok (game (fst (main_iteration inp w))).
Proof.
  intros Hc. destruct w as [g gs s].
  unfold main_iteration. cbn [game game_state random_state] in *.
  assert (Hr : forall l, cap_ok (set_enemies l reset_base)).
  { intros l. unfold cap_ok, MAX_ENEMIES. cbn. lia. }
  destruct gs.
  - destruct (handle_menu_input_cases (events inp) (g, MENU) s)
      as [H|(l & _ & H)];
      destruct (handle_menu_input _ _ s) as [[[g' gs'] r] s'];
      cbn [fst] in *; injection H as -> ->; [exact Hc | apply Hr].
  - unfold handle_game_input.
    destruct (game_events_level (events inp) g PLAYING) as [L M].
    destruct (game_events _ _) as [[g1 gs1] c]. cbn [fst snd] in *.
    assert (H1 : cap_ok g1) by (unfold cap_ok in *; rewrite L, M; exact Hc).
    assert (H2 : forall v, cap_ok (set_playerX_change v g1)) by (intros; exact H1).
    destruct c.
    + set (g2 := if K_LEFT (keys inp) || K_a (keys inp) then _ else _).
      assert (H3 : cap_ok g2) by (subst g2; repeat break_if; apply H2).
      destruct (game_over g2); cbn [negb]; [exact H3|].
      pose proof (update_all_climbs g2 gs1 s) as [K _].
      destruct (update_all (g2, gs1) s) as [[g3 gs3] s3]. cbn [fst game] in *. auto.
    + destruct (game_over g1); cbn [negb]; [exact H1|].
      pose proof (update_all_climbs g1 gs1 s) as [K _].
      destruct (update_all (g1, gs1) s) as [[g3 gs3] s3]. cbn [fst game] in *. auto.
  - destruct (handle_game_over_input_cases (events inp) (g, GAME_OVER) s)
      as [H|(l & _ & H)];
      destruct (handle_game_over_input _ _ s) as [[[g' gs'] r] s'];
      cbn [fst] in *; injection H as -> ->; [exact Hc | apply Hr].
Qed.

Lemma reachable_cap_ok (w : world) : reachable w -> cap_ok (game w).
Proof.
  induction 1 as [s | w inp w' _ IH Hstep].
  - unfold initial_world. destruct (reset_game_shape blank s) as (l & Hl & _).
    destruct (reset_game blank s) as [g s']. cbn [fst game] in *. subst g.
    unfold cap_ok, MAX_ENEMIES. cbn. lia.
  - pose proof (frame_cap_ok inp w IH) as H. now rewrite Hstep in H.
Qed.

(** ** Kills and the level-up rule *)

(** The kill in the loop: an enemy outside the player zone that a bullet
    hits and whose health drops to 0 or below is handed to [kill_enemy]. *)
Lemma enemies_loop_kill (e : Enemy.t) (todo : list Enemy.t) (g : GameState)
  (gs : mode) (s : rng) (b : Bullet.t) :
  fgtb (Enemy.y e) (float_of_int (SCREEN_HEIGHT - 160)) = false ->
  find (hits (move_enemy e)) (bullets g) = Some b ->
  Enemy.health e - 1 <= 0 ->
  enemies_loop (e :: todo) (g, gs) s
  = (let (g', s') :=
       kill_enemy (Enemy.set_health (Enemy.health e - 1) (move_enemy e))
         (set_bullets (list_remove Bullet.eqb b (bullets g)) g) s in
     enemies_loop todo (g', gs) s').
Proof.
  intros Hz Hb Hh. cbn [enemies_loop]. rewrite Hz, Hb.
  assert (Hm : Enemy.health (move_enemy e) = Enemy.health e).
  { unfold move_enemy. repeat break_if; reflexivity. }
  rewrite Hm.
  replace (Enemy.health (Enemy.set_health (Enemy.health e - 1) (move_enemy e)) <=? 0)
    with true by (cbn; lia).
  reflexivity.
Qed.

(** C7, as the code has it.  A kill adds the enemy's points to the score and
    then evaluates the level-up rule on the new score: if it is at least
    [(150 + 50 * level) * level], the level goes up by exactly 1, the
    difficulty multiplier by 0.2, and the cap on the enemies on screen is set
    to [min 8 (4 + new level)], which is never above 8; otherwise level,
    multiplier and cap stay.  In a session the cap is 6 at levels 1 and 2, 7
    at level 3 and 8 from level 4 ([cap_ok], which holds in every state of a
    session), so the new cap is never below the old one, but it need not be
    above it. *)
Theorem kill_awards_and_levels_up (enemy : Enemy.t) (g : GameState) (s : rng) :
  let g' := fst (kill_enemy enemy g s) in
  let points_needed := 150 + 50 * level g in
  score_value g' = score_value g + Enemy.points enemy
  /\ (if score_value g + Enemy.points enemy >=? points_needed * level g
      then level g' = level g + 1
           /\ difficulty_multiplier g' = (difficulty_multiplier g + 0.2)%float
           /\ max_enemies_on_screen g' = Z.min MAX_ENEMIES (4 + (level g + 1))
           /\ max_enemies_on_screen g' <= 8
      else level g' = level g
           /\ difficulty_multiplier g' = difficulty_multiplier g
           /\ max_enemies_on_screen g' = max_enemies_on_screen g)
  /\ (cap_ok g ->
      cap_ok g' /\ max_enemies_on_screen g <= max_enemies_on_screen g')
  /\ (forall todo gs b e,
        enemy = Enemy.set_health (Enemy.health e - 1) (move_enemy e) ->
        fgtb (Enemy.y e) (float_of_int (SCREEN_HEIGHT - 160)) = false ->
        find (hits (move_enemy e)) (bullets g) = Some b ->
        Enemy.health enemy <= 0 ->
        fst (enemies_loop (e :: todo) (g, gs) s)
        = fst (let (g1, s1) :=
                 kill_enemy enemy (set_bullets (list_remove Bullet.eqb b (bullets g)) g)
                   s in
               enemies_loop todo (g1, gs) s1)).
Proof.
  cbv zeta. split; [|split; [|split]].
  - unfold kill_enemy, bind, ret, level_up. destruct (random s) as [r s'].
    cbn [fst]. repeat break_if; reflexivity.
  - unfold kill_enemy, bind, ret, level_up. destruct (random s) as [r s'].
    cbn [fst]. replace (50 * level g) with (level g * 50) by lia.
    destruct (r <? 0.15)%float; gs_simpl;
      destruct (score_value g + Enemy.points enemy >=? (150 + level g * 50) * level g);
      gs_simpl; repeat split; auto; unfold MAX_ENEMIES; lia.
  - intros Hc. destruct (kill_enemy_climbs enemy g s) as [K1 K2].
    split; [exact (K1 Hc) | exact (proj2 (K2 Hc))].
  - intros todo gs b e He Hz Hb Hh. subst enemy.
    rewrite (enemies_loop_kill e todo g gs s b Hz Hb); [reflexivity|].
    cbn in Hh. exact Hh.
Qed.

(** The first level-up of a session does not raise the cap: it is 6 after a
    reset, and [min 8 (4 + 2)] is 6 again.  The enemy moves to (100, 100),
    where the bullet is; the kill takes the score from 190 to 200, which is
    [(150 + 50 * 1) * 1]. *)
Lemma first_level_up_keeps_cap :
  level before_level_2 = 1
  /\ max_enemies_on_screen before_level_2 = 6
  /\ (let g' := fst (fst (update_enemies (before_level_2, PLAYING) zero_rng)) in
      enemies g' = [] /\ bullets g' = []
      /\ score_value g' = 200 /\ level g' = 2 /\ max_enemies_on_screen g' = 6).
Proof. vm_compute. repeat split; reflexivity. Qed.

Lemma kill_awards_and_levels_up_witness :
  fgtb (Enemy.y basic_enemy) (float_of_int (SCREEN_HEIGHT - 160)) = false
  /\ find (hits (move_enemy basic_enemy)) (bullets before_level_2)
     = Some (Bullet.mk 100 100 10)
  /\ Enemy.health
       (Enemy.set_health (Enemy.health basic_enemy - 1) (move_enemy basic_enemy)) <= 0
  /\ fst (enemies_loop [basic_enemy] (before_level_2, PLAYING) zero_rng)
     = fst (let (g1, s1) :=
              kill_enemy
                (Enemy.set_health (Enemy.health basic_enemy - 1)
                   (move_enemy basic_enemy))
                (set_bullets
                   (list_remove Bullet.eqb (Bullet.mk 100 100 10)
                      (bullets before_level_2))
                   before_level_2)
                zero_rng in
            enemies_loop [] (g1, PLAYING) s1).
Proof.
  assert (H1 : fgtb (Enemy.y basic_enemy) (float_of_int (SCREEN_HEIGHT - 160)) = false).
  { vm_compute. reflexivity. }
  assert (H2 : find (hits (move_enemy basic_enemy)) (bullets before_level_2)
               = Some (Bullet.mk 100 100 10)).
  { vm_compute. reflexivity. }
  assert (H3 : Enemy.health
                 (Enemy.set_health (Enemy.health basic_enemy - 1)
                    (move_enemy basic_enemy)) <= 0).
  { vm_compute. discriminate. }
  split; [exact H1|]. split; [exact H2|]. split; [exact H3|].
  exact (proj2 (proj2 (proj2 (kill_awards_and_levels_up
                         (Enemy.set_health (Enemy.health basic_enemy - 1)
                            (move_enemy basic_enemy))
                         before_level_2 zero_rng)))
           [] PLAYING (Bullet.mk 100 100 10) basic_enemy eq_refl H1 H2 H3).
Defined.

(** ** The step down at the edges *)






(** ** Obstacles *)

Lemma obstacles_loop_survivors (rect : Z * Z * Z * Z) (todo : list Obstacle.t)
  (g : GameState) (gs : mode) :
  Permutation (obstacles (fst (obstacles_loop rect todo (g, gs))))
    (obstacles g ++ map fall (filter (stays rect) todo))
  /\ lives (fst (obstacles_loop rect todo (g, gs)))
     = lives g - Z.of_nat (length (filter (hits_player rect) todo)).
Proof.
  revert g gs. induction todo as [|o todo IH]; intros g gs.
  - cbn [obstacles_loop filter map length fst]. rewrite app_nil_r.
    split; [reflexivity | cbn [Z.of_nat]; lia].
  - cbn [obstacles_loop filter]. destruct rect as [[[px py] pw] ph].
    fold (fall o).
    assert (Hst : stays (px, py, pw, ph) o
                  = negb (Obstacle.y (fall o) >? SCREEN_HEIGHT)
                    && negb (rect_overlap px py pw ph (Obstacle.x (fall o))
                               (Obstacle.y (fall o)) (Obstacle.w (fall o))
                               (Obstacle.h (fall o)))).
    { unfold stays, hits_player, past_bottom.
      destruct (Obstacle.y (fall o) >? SCREEN_HEIGHT); [reflexivity|].
      cbn [negb andb]. reflexivity. }
    assert (Hhp : hits_player (px, py, pw, ph) o
                  = negb (Obstacle.y (fall o) >? SCREEN_HEIGHT)
                    && rect_overlap px py pw ph (Obstacle.x (fall o))
                         (Obstacle.y (fall o)) (Obstacle.w (fall o))
                         (Obstacle.h (fall o))) by reflexivity.
    rewrite Hst, Hhp. clear Hst Hhp.
    destruct (Obstacle.y (fall o) >? SCREEN_HEIGHT) eqn:Eb; cbn [negb andb].
    + match goal with
      | |- context [obstacles_loop ?r todo (?g1, ?m)] =>
          destruct (IH g1 m) as [IH1 IH2]
      end.
      split.
      * rewrite IH1. apply Permutation_app_tail. gs_simpl.
        apply remove_current_perm. intros a. apply Obstacle_eqb_eq.
      * rewrite IH2. reflexivity.
    + set (g1 := match find _ (bullets g) with Some _ => _ | None => g end).
      assert (Ho : obstacles g1 = obstacles g /\ lives g1 = lives g).
      { subst g1. destruct (find _ (bullets g)); split; reflexivity. }
      destruct Ho as [Ho Hl].
      destruct (rect_overlap px py pw ph _ _ _ _) eqn:Ep; cbn [negb andb].
      * match goal with
        | |- context [lives ?g' <=? 0] => destruct (lives g' <=? 0)
        end;
          match goal with
          | |- context [obstacles_loop ?r todo (?g2, ?m)] =>
              destruct (IH g2 m) as [IH1 IH2]
          end;
          (split;
           [ rewrite IH1; apply Permutation_app_tail; gs_simpl; rewrite Ho;
             apply remove_current_perm; intros a; apply Obstacle_eqb_eq
           | rewrite IH2; cbn [length]; gs_simpl; rewrite Hl; lia ]).
      * match goal with
        | |- context [obstacles_loop ?r todo (?g2, ?m)] =>
            destruct (IH g2 m) as [IH1 IH2]
        end.
        split.
        -- rewrite IH1. gs_simpl. cbn [map]. rewrite Ho, <- app_assoc. reflexivity.
        -- rewrite IH2. gs_simpl. rewrite Hl. reflexivity.
Qed.

(** An obstacle that stays on screen, misses the player and overlaps a bullet
    takes the first such bullet out of the bullet collection and is kept. *)
Lemma obstacles_loop_absorb (px py pw ph : Z) (obs : Obstacle.t)
  (todo : list Obstacle.t) (g : GameState) (gs : mode) (b : Bullet.t) :
  past_bottom obs = false ->
  hits_player (px, py, pw, ph) obs = false ->
  find (absorbs (fall obs)) (bullets g) = Some b ->
  obstacles_loop (px, py, pw, ph) (obs :: todo) (g, gs)
  = obstacles_loop (px, py, pw, ph) todo
      (set_obstacles (obstacles g ++ [fall obs])
         (set_bullets (list_remove Bullet.eqb b (bullets g)) g), gs).
Proof.
  unfold hits_player, past_bottom. intros Hb Hp Hf. rewrite Hb in Hp.
  cbn [negb andb] in Hp. cbn [obstacles_loop]. fold (fall obs).
  rewrite Hb, Hf, Hp. reflexivity.
Qed.

(** An obstacle that stays on screen, overlaps a bullet and hits the player
    takes the first such bullet out of the bullet collection, costs a life
    and is removed. *)
Lemma obstacles_loop_absorb_hit (px py pw ph : Z) (obs : Obstacle.t)
  (todo : list Obstacle.t) (g : GameState) (gs : mode) (b : Bullet.t) :
  past_bottom obs = false ->
  hits_player (px, py, pw, ph) obs = true ->
  find (absorbs (fall obs)) (bullets g) = Some b ->
  obstacles_loop (px, py, pw, ph) (obs :: todo) (g, gs)
  = obstacles_loop (px, py, pw, ph) todo
      (let g1 :=
         set_obstacles (remove_current Obstacle.eqb (obstacles g) (fall obs))
           (set_lives (lives g - 1)
              (set_bullets (list_remove Bullet.eqb b (bullets g)) g)) in
       if lives g - 1 <=? 0 then (set_game_over true g1, GAME_OVER) else (g1, gs)).
Proof.
  unfold hits_player, past_bottom. intros Hb Hp Hf. rewrite Hb in Hp.
  cbn [negb andb] in Hp. cbn [obstacles_loop]. fold (fall obs).
  rewrite Hb, Hf, Hp. gs_simpl. destruct (lives g - 1 <=? 0); reflexivity.
Qed.

(** C4, as the code has it.  After [update_obstacles] the collection holds,
    moved down by their speed, exactly the obstacles (the one spawned in this
    frame included) that neither went past the bottom edge nor hit the
    player, and every obstacle that hit the player cost one life.  Absorbing
    a bullet removes the bullet and is no cause of removal: an obstacle that
    absorbs a bullet stays when it misses the player, and when it hits the
    player it is removed for that reason, at the cost of a life. *)
Theorem obstacle_removal (g : GameState) (gs : mode) (s : rng) :
  let rect := (playerX g, playerY g, 64, 64) in
  let g' := fst (fst (update_obstacles (g, gs) s)) in
  exists coll : list Obstacle.t,
    (coll = obstacles g \/ exists o, coll = obstacles g ++ [o])
    /\ Permutation (obstacles g') (map fall (filter (stays rect) coll))
    /\ lives g' = lives g - Z.of_nat (length (filter (hits_player rect) coll))
    /\ (forall o, stays rect o = negb (past_bottom o || hits_player rect o))
    /\ (forall o, In o coll -> past_bottom o = false -> hits_player rect o = false ->
          In (fall o) (obstacles g'))
    /\ (forall obs todo g0 gs0 b,
          past_bottom obs = false -> hits_player rect obs = false ->
          find (absorbs (fall obs)) (bullets g0) = Some b ->
          obstacles_loop rect (obs :: todo) (g0, gs0)
          = obstacles_loop rect todo
              (set_obstacles (obstacles g0 ++ [fall obs])
                 (set_bullets (list_remove Bullet.eqb b (bullets g0)) g0), gs0))
    /\ (forall obs todo g0 gs0 b,
          past_bottom obs = false -> hits_player rect obs = true ->
          find (absorbs (fall obs)) (bullets g0) = Some b ->
          obstacles_loop rect (obs :: todo) (g0, gs0)
          = obstacles_loop rect todo
              (let g1 :=
                 set_obstacles
                   (remove_current Obstacle.eqb (obstacles g0) (fall obs))
                   (set_lives (lives g0 - 1)
                      (set_bullets (list_remove Bullet.eqb b (bullets g0)) g0)) in
               if lives g0 - 1 <=? 0 then (set_game_over true g1, GAME_OVER)
               else (g1, gs0))).
Proof.
  cbv zeta.
  assert (Habs : forall obs todo g0 gs0 b,
            past_bottom obs = false ->
            hits_player (playerX g, playerY g, 64, 64) obs = false ->
            find (absorbs (fall obs)) (bullets g0) = Some b ->
            obstacles_loop (playerX g, playerY g, 64, 64) (obs :: todo) (g0, gs0)
            = obstacles_loop (playerX g, playerY g, 64, 64) todo
                (set_obstacles (obstacles g0 ++ [fall obs])
                   (set_bullets (list_remove Bullet.eqb b (bullets g0)) g0), gs0)).
  { intros. now apply obstacles_loop_absorb. }
  assert (Hhit : forall obs todo g0 gs0 b,
            past_bottom obs = false ->
            hits_player (playerX g, playerY g, 64, 64) obs = true ->
            find (absorbs (fall obs)) (bullets g0) = Some b ->
            obstacles_loop (playerX g, playerY g, 64, 64) (obs :: todo) (g0, gs0)
            = obstacles_loop (playerX g, playerY g, 64, 64) todo
                (let g1 :=
                   set_obstacles
                     (remove_current Obstacle.eqb (obstacles g0) (fall obs))
                     (set_lives (lives g0 - 1)
                        (set_bullets (list_remove Bullet.eqb b (bullets g0)) g0)) in
                 if lives g0 - 1 <=? 0 then (set_game_over true g1, GAME_OVER)
                 else (g1, gs0))).
  { intros. now apply obstacles_loop_absorb_hit. }
  unfold update_obstacles, bind, ret.
  set (g1 := set_obstacle_spawn_timer (obstacle_spawn_timer g + 1) g).
  set (rect := (playerX g, playerY g, 64, 64)).
  assert (Hmain : forall g2 : GameState,
            playerX g2 = playerX g -> playerY g2 = playerY g -> lives g2 = lives g ->
            let g' := fst (obstacles_loop rect (obstacles g2) (set_obstacles [] g2, gs)) in
            Permutation (obstacles g') (map fall (filter (stays rect) (obstacles g2)))
            /\ lives g' = lives g
                 - Z.of_nat (length (filter (hits_player rect) (obstacles g2)))
            /\ (forall o, stays rect o = negb (past_bottom o || hits_player rect o))
            /\ (forall o, In o (obstacles g2) ->
                  past_bottom o = false -> hits_player rect o = false ->
                  In (fall o) (obstacles g'))).
  { intros g2 Hx Hy Hl g'.
    destruct (obstacles_loop_survivors rect (obstacles g2) (set_obstacles [] g2) gs)
      as [P L].
    fold g' in P, L. cbn in P. split; [exact P|]. split; [rewrite L; cbn; lia|].
    split; [intros o; unfold stays; now rewrite negb_orb|].
    intros o Ho Eb Eh.
    apply (Permutation_in _ (Permutation_sym P)).
    apply in_map. apply filter_In. split; [exact Ho|].
    unfold stays. now rewrite Eb, Eh. }
  destruct (obstacle_spawn_timer g1 >=? _).
  - destruct (spawn_obstacle_frame g1 s) as [o Ho].
    destruct (spawn_obstacle g1 s) as [g2 s2]. cbn [fst snd] in *. subst g2.
    exists (obstacles g ++ [o]). split; [right; eauto|].
    destruct (Hmain (set_obstacle_spawn_timer 0
                       (set_obstacles (obstacles g1 ++ [o]) g1)))
      as (P & L & S & I); try reflexivity.
    repeat split; assumption.
  - cbn [fst snd]. exists (obstacles g). split; [now left|].
    destruct (Hmain g1) as (P & L & S & I); try reflexivity.
    repeat split; assumption.
Qed.

(** An obstacle absorbs a bullet and stays in the collection: frame 100 of
    [absorb_session] moves the bullet to (368, 120) and the obstacle to
    (360, 104), where they overlap; the bullet is removed, the obstacle is
    not. *)
Lemma absorbing_obstacle_survives :
  exists w,
    reachable w
    /\ obstacles (game w) = [Obstacle.mk 360 96 20 20 8 (200, 180, 60)]
    /\ bullets (game w) = [Bullet.mk 368 130 10]
    /\ absorbs (Obstacle.mk 360 104 20 20 8 (200, 180, 60)) (Bullet.mk 368 120 10)
       = true
    /\ bullets (game (fst (main_iteration idle w))) = []
    /\ obstacles (game (fst (main_iteration idle w)))
       = [Obstacle.mk 360 104 20 20 8 (200, 180, 60)].
Proof.
  exists absorb_session. split.
  - apply reachable_run; [apply reach_start | vm_compute; reflexivity].
  - vm_compute. repeat split; reflexivity.
Qed.

(** An obstacle absorbs a bullet and is removed all the same, because it also
    hits the player: the shot of the frame after [absorb_hit_session] moves
    the bullet to (368, 470) and the obstacle to (360, 464), where the
    obstacle overlaps both the bullet and the player. *)
Lemma absorbing_obstacle_hits_player :
  exists w,
    reachable w
    /\ obstacles (game w) = [Obstacle.mk 360 456 20 20 8 (200, 180, 60)]
    /\ bullets (game w) = [] /\ lives (game w) = 3
    /\ absorbs (Obstacle.mk 360 464 20 20 8 (200, 180, 60)) (Bullet.mk 368 470 10)
       = true
    /\ hits_player (playerX (game w), playerY (game w), 64, 64)
         (Obstacle.mk 360 456 20 20 8 (200, 180, 60)) = true
    /\ bullets (game (fst (main_iteration press_space w))) = []
    /\ obstacles (game (fst (main_iteration press_space w))) = []
    /\ lives (game (fst (main_iteration press_space w))) = 2.
Proof.
  exists absorb_hit_session. split.
  - apply reachable_run; [apply reach_start | vm_compute; reflexivity].
  - vm_compute. repeat split; reflexivity.
Qed.

(** ** The mode variable *)

(** The updates write the mode variable and never read it: the game they
    compute and the draws they consume do not depend on it. *)
Lemma enemies_loop_mode (todo : list Enemy.t) (g : GameState) (gs1 gs2 : mode)
  (s : rng) :
  fst (fst (enemies_loop todo (g, gs1) s)) = fst (fst (enemies_loop todo (g, gs2) s))
  /\ snd (enemies_loop todo (g, gs1) s) = snd (enemies_loop todo (g, gs2) s).
Proof.
  revert g gs1 gs2 s. induction todo as [|e todo IH]; intros g gs1 gs2 s;
    [now split|].
  cbn [enemies_loop].
  destruct (fgtb (Enemy.y e) _).
  - destruct (lives _ <=? 0); apply IH.
  - destruct (find _ _) as [b|]; [destruct (_ <=? 0)|]; [|apply IH..].
    unfold bind. destruct (kill_enemy _ _ s) as [g' s']. apply IH.
Qed.

Lemma obstacles_loop_mode (rect : Z * Z * Z * Z) (todo : list Obstacle.t)
  (g : GameState) (gs1 gs2 : mode) :
  fst (obstacles_loop rect todo (g, gs1)) = fst (obstacles_loop rect todo (g, gs2)).
Proof.
  revert g gs1 gs2. induction todo as [|o todo IH]; intros g gs1 gs2; [reflexivity|].
  cbn [obstacles_loop]. destruct rect as [[[px py] pw] ph].
  destruct (Obstacle.y _ >? SCREEN_HEIGHT); [apply IH|].
  destruct (rect_overlap px py pw ph _ _ _ _); [|apply IH].
  destruct (lives _ <=? 0); apply IH.
Qed.

Lemma update_all_mode (g : GameState) (gs1 gs2 : mode) (s : rng) :
  fst (fst (update_all (g, gs1) s)) = fst (fst (update_all (g, gs2) s))
  /\ snd (update_all (g, gs1) s) = snd (update_all (g, gs2) s).
Proof.
  unfold update_all, bind.
  set (g3 := update_power_ups _).
  assert (H : fst (fst (update_enemies (g3, gs1) s))
              = fst (fst (update_enemies (g3, gs2) s))
              /\ snd (update_enemies (g3, gs1) s) = snd (update_enemies (g3, gs2) s)).
  { unfold update_enemies, bind, ret.
    destruct (_ >=? _); [destruct (spawn_enemy _ s)|]; apply enemies_loop_mode. }
  destruct (update_enemies (g3, gs1) s) as [[g4 m4] s4].
  destruct (update_enemies (g3, gs2) s) as [[g4' m4'] s4'].
  cbn [fst snd] in H. destruct H as [<- <-].
  unfold update_obstacles, bind, ret.
  destruct (_ >=? _); [destruct (spawn_obstacle _ s4)|]; cbn [fst snd];
    (split; [apply obstacles_loop_mode | reflexivity]).
Qed.

Lemma game_events_mode (evs : list event) (g : GameState) (gs1 gs2 : mode) :
  fst (fst (game_events evs (g, gs1))) = fst (fst (game_events evs (g, gs2)))
  /\ snd (game_events evs (g, gs1)) = snd (game_events evs (g, gs2)).
Proof.
  revert g gs1 gs2. induction evs as [|ev evs IH]; intros g gs1 gs2; [now split|].
  destruct ev as [|[| | |]|]; cbn [game_events fst snd]; try apply IH; now split.
Qed.

(** An escape key in the event queue changes nothing but the mode. *)
Lemma game_events_escape (evs1 evs2 : list event) (g : GameState) (gs : mode) :
  fst (fst (game_events (evs1 ++ KEYDOWN K_ESCAPE :: evs2) (g, gs)))
  = fst (fst (game_events (evs1 ++ evs2) (g, gs)))
  /\ snd (game_events (evs1 ++ KEYDOWN K_ESCAPE :: evs2) (g, gs))
     = snd (game_events (evs1 ++ evs2) (g, gs)).
Proof.
  revert g gs. induction evs1 as [|ev evs1 IH]; intros g gs.
  - cbn [app game_events fst snd]. apply game_events_mode.
  - destruct ev as [|[| | |]|]; cbn [app game_events fst snd]; try apply IH;
      now split.
Qed.

Lemma handle_game_input_escape (evs1 evs2 : list event) (keys : pressed)
  (g : GameState) (gs : mode) :
  fst (fst (handle_game_input (evs1 ++ KEYDOWN K_ESCAPE :: evs2) keys (g, gs)))
  = fst (fst (handle_game_input (evs1 ++ evs2) keys (g, gs)))
  /\ snd (handle_game_input (evs1 ++ KEYDOWN K_ESCAPE :: evs2) keys (g, gs))
     = snd (handle_game_input (evs1 ++ evs2) keys (g, gs)).
Proof.
  unfold handle_game_input.
  destruct (game_events_escape evs1 evs2 g gs) as [H1 H2].
  destruct (game_events (evs1 ++ _ :: evs2) (g, gs)) as [[g1 m1] c1].
  destruct (game_events (evs1 ++ evs2) (g, gs)) as [[g2 m2] c2].
  cbn [fst snd] in *. subst g2 c2. destruct c1; now split.
Qed.

Lemma main_iteration_escape (evs1 evs2 : list event) (held : pressed) (w : world) :
  game_state w = PLAYING ->
  game (fst (main_iteration (mkFrame (evs1 ++ KEYDOWN K_ESCAPE :: evs2) held) w))
  = game (fst (main_iteration (mkFrame (evs1 ++ evs2) held) w)).
Proof.
  intros Hm. unfold main_iteration. rewrite Hm. cbn [events keys].
  destruct (handle_game_input_escape evs1 evs2 held (game w) PLAYING) as [H1 H2].
  destruct (handle_game_input (evs1 ++ _ :: evs2) held _) as [[g1 m1] c1].
  destruct (handle_game_input (evs1 ++ evs2) held _) as [[g2 m2] c2].
  cbn [fst snd] in *. subst g2 c2.
  destruct (game_over g1); cbn [negb].
  - reflexivity.
  - destruct (update_all_mode g1 m1 m2 (random_state w)) as [H _].
    destruct (update_all (g1, m1) _) as [[ga ma] sa].
    destruct (update_all (g1, m2) _) as [[gb mb] sb]. exact H.
Qed.

(** C10.  The escape key of a playing frame changes only the mode variable:
    the handler sets the mode to [MENU] and leaves score, level, lives, the
    four timers and the four entity collections as they are, and a frame
    with the key in its event queue computes the same game as the frame
    without it.  A frame that takes the mode from [MENU] to [PLAYING] ends in
    a freshly reset state that does not depend on the state before it, so
    nothing of an abandoned session is resumed. *)
Theorem back_to_menu_changes_mode_only :
  (forall (held : pressed) (g : GameState) (gs : mode),
     let g' := fst (fst (handle_game_input [KEYDOWN K_ESCAPE] held (g, gs))) in
     snd (fst (handle_game_input [KEYDOWN K_ESCAPE] held (g, gs))) = MENU
     /\ score_value g' = score_value g /\ level g' = level g /\ lives g' = lives g
     /\ shoot_cooldown g' = shoot_cooldown g
     /\ rapid_fire_timer g' = rapid_fire_timer g
     /\ enemy_spawn_timer g' = enemy_spawn_timer g
     /\ obstacle_spawn_timer g' = obstacle_spawn_timer g
     /\ enemies g' = enemies g /\ bullets g' = bullets g
     /\ obstacles g' = obstacles g /\ power_ups g' = power_ups g)
  /\ (forall (evs1 evs2 : list event) (held : pressed) (w : world),
        game_state w = PLAYING ->
        game (fst (main_iteration
                     (mkFrame (evs1 ++ KEYDOWN K_ESCAPE :: evs2) held) w))
        = game (fst (main_iteration (mkFrame (evs1 ++ evs2) held) w)))
  /\ (forall (inp : frame) (g1 g2 : GameState) (s : rng),
        game_state (fst (main_iteration inp (mkWorld g1 MENU s))) = PLAYING ->
        game (fst (main_iteration inp (mkWorld g1 MENU s)))
        = game (fst (main_iteration inp (mkWorld g2 MENU s)))
        /\ exists l, length l = 4%nat
             /\ game (fst (main_iteration inp (mkWorld g1 MENU s)))
                = set_enemies l reset_base).
Proof.
  split; [|split].
  - intros held g gs. unfold handle_game_input. cbn [game_events fst snd].
    repeat break_if; cbn; auto 20.
  - apply main_iteration_escape.
  - intros inp g1 g2 s Hplay.
    pose proof (main_iteration_menu inp (mkWorld g1 MENU s) eq_refl) as H1.
    pose proof (main_iteration_menu inp (mkWorld g2 MENU s) eq_refl) as H2.
    cbn [game game_state random_state] in H1, H2.
    assert (Hp : snd (fst (fst (handle_menu_input (events inp) (g1, MENU) s)))
                 = PLAYING) by (now rewrite <- H1).
    split.
    + apply (f_equal fst) in H1, H2. cbn [fst] in H1, H2. rewrite H1, H2.
      apply handle_menu_input_forgets; [discriminate | exact Hp].
    + destruct (handle_menu_input_cases (events inp) (g1, MENU) s)
        as [H|(l & Hl & H)]; rewrite H in H1, Hp.
      * discriminate.
      * exists l. split; [exact Hl|]. now injection H1.
Qed.

Lemma back_to_menu_witness :
  game_state (left_session 3) = PLAYING
  /\ game_state
       (fst (main_iteration (mkFrame [KEYDOWN K_ESCAPE] no_keys) (left_session 3)))
     = MENU
  /\ game (fst (main_iteration
                  (mkFrame ([] ++ KEYDOWN K_ESCAPE :: []) no_keys) (left_session 3)))
     = game (fst (main_iteration (mkFrame ([] ++ []) no_keys) (left_session 3))).
Proof.
  assert (H : game_state (left_session 3) = PLAYING) by (vm_compute; reflexivity).
  split; [exact H|]. split; [vm_compute; reflexivity|].
  exact (proj1 (proj2 back_to_menu_changes_mode_only) [] [] no_keys
           (left_session 3) H).
Defined.

(** * Further properties of the code *)

(** ** Rectangle overlap *)

(** X1.  [rect_overlap] does not depend on the order of its two
    rectangles. *)
Theorem rect_overlap_sym (ax ay aw ah bx by' bw bh : Z) :
  rect_overlap ax ay aw ah bx by' bw bh = rect_overlap bx by' bw bh ax ay aw ah.
Proof.
  unfold rect_overlap. apply eq_true_iff_eq.
  rewrite !andb_true_iff, !Z.ltb_lt, !Z.gtb_lt. lia.
Qed.

(** X2.  For rectangles of positive width and height, [rect_overlap] holds
    exactly when the two rectangles share a pixel; rectangles that only touch
    along an edge do not overlap. *)
Theorem rect_overlap_shares_pixel (ax ay aw ah bx by' bw bh : Z) :
  0 < aw -> 0 < ah -> 0 < bw -> 0 < bh ->
  (rect_overlap ax ay aw ah bx by' bw bh = true <->
   exists x y,
     ax <= x < ax + aw /\ ay <= y < ay + ah
     /\ bx <= x < bx + bw /\ by' <= y < by' + bh)
  /\ rect_overlap ax ay aw ah (ax + aw) by' bw bh = false
  /\ rect_overlap ax ay aw ah bx (ay + ah) bw bh = false.
Proof.
  intros Haw Hah Hbw Hbh. unfold rect_overlap. split; [|split].
  - rewrite !andb_true_iff, !Z.ltb_lt, !Z.gtb_lt. split.
    + intros H. exists (Z.max ax bx), (Z.max ay by'). lia.
    + intros (x & y & H). lia.
  - apply not_true_iff_false. rewrite !andb_true_iff, !Z.ltb_lt, !Z.gtb_lt. lia.
  - apply not_true_iff_false. rewrite !andb_true_iff, !Z.ltb_lt, !Z.gtb_lt. lia.
Qed.

Lemma rect_overlap_shares_pixel_witness :
  (rect_overlap 368 480 64 64 360 464 20 20 = true <->
   exists x y,
     368 <= x < 368 + 64 /\ 480 <= y < 480 + 64
     /\ 360 <= x < 360 + 20 /\ 464 <= y < 464 + 20)
  /\ rect_overlap 368 480 64 64 (368 + 64) 464 20 20 = false
  /\ rect_overlap 368 480 64 64 360 (480 + 64) 20 20 = false.
Proof.
  apply (rect_overlap_shares_pixel 368 480 64 64 360 464 20 20); lia.
Defined.

(** ** The player *)

(** X3.  [update_player] moves the player by its velocity and clamps the
    result to [[0, SCREEN_WIDTH - 64]], whatever the velocity and the old
    position are; it assigns no other attribute. *)
Theorem update_player_clamps (g : GameState) :
  playerX (update_player g)
  = Z.max 0 (Z.min (SCREEN_WIDTH - 64) (playerX g + playerX_change g))
  /\ 0 <= playerX (update_player g) <= SCREEN_WIDTH - 64
  /\ update_player g = set_playerX (playerX (update_player g)) g.
Proof.
  unfold update_player, SCREEN_WIDTH. gs_simpl.
  destruct (playerX g + playerX_change g <=? 0) eqn:E1; gs_simpl;
    [|destruct (playerX g + playerX_change g >=? 800 - 64) eqn:E2; gs_simpl];
    repeat split; try lia; destruct g; reflexivity.
Qed.

(** ** Bullets *)

Lemma Bullet_eqb_eq (a b : Bullet.t) : Bullet.eqb a b = true -> a = b.
Proof.
  destruct a, b. unfold Bullet.eqb; simpl.
  rewrite !andb_true_iff, !Z.eqb_eq. intros [[-> ->] ->]. reflexivity.
Qed.

Lemma bullets_loop_filter (done todo : list Bullet.t) :
  Forall (fun b => on_screen b = true) done ->
  bullets_loop done todo = done ++ filter on_screen (map fly todo).
Proof.
  revert done. induction todo as [|b todo IH]; intros done Hd.
  - cbn. now rewrite app_nil_r.
  - cbn [bullets_loop map filter]. fold (fly b).
    assert (Hos : on_screen (fly b) = negb (Bullet.y (fly b) <? 0)) by reflexivity.
    rewrite Hos. clear Hos.
    destruct (Bullet.y (fly b) <? 0) eqn:E; cbn [negb].
    + rewrite IH.
      * f_equal. unfold remove_current.
        destruct (existsb (fun a => Bullet.eqb a (fly b)) done) eqn:Ex; [|reflexivity].
        apply existsb_exists in Ex. destruct Ex as (a & Ha & Heq).
        apply Bullet_eqb_eq in Heq. subst a.
        rewrite Forall_forall in Hd. specialize (Hd _ Ha).
        unfold on_screen in Hd. rewrite E in Hd. discriminate.
      * unfold remove_current.
        destruct (existsb (fun a => Bullet.eqb a (fly b)) done) eqn:Ex; [|exact Hd].
        apply existsb_exists in Ex. destruct Ex as (a & Ha & Heq).
        apply Bullet_eqb_eq in Heq. subst a.
        rewrite Forall_forall in Hd. specialize (Hd _ Ha).
        unfold on_screen in Hd. rewrite E in Hd. discriminate.
    + rewrite IH.
      * now rewrite <- app_assoc.
      * apply Forall_app. split; [exact Hd|]. constructor; [|constructor].
        unfold on_screen. now rewrite E.
Qed.

(** X4.  [update_bullets] moves every bullet up by its speed and keeps, in
    their order, exactly the bullets whose new y is not negative; the shoot
    cooldown and the rapid-fire timer go down by 1 when they are positive and
    stay as they are otherwise. *)
Theorem update_bullets_moves_and_culls (g : GameState) :
  bullets (update_bullets g) = filter on_screen (map fly (bullets g))
  /\ Forall (fun b => 0 <= Bullet.y b) (bullets (update_bullets g))
  /\ shoot_cooldown (update_bullets g)
     = (if shoot_cooldown g >? 0 then shoot_cooldown g - 1 else shoot_cooldown g)
  /\ rapid_fire_timer (update_bullets g)
     = (if rapid_fire_timer g >? 0 then rapid_fire_timer g - 1
        else rapid_fire_timer g).
Proof.
  assert (H : bullets (update_bullets g) = filter on_screen (map fly (bullets g))).
  { unfold update_bullets. cbn [bullets set_bullets].
    rewrite bullets_loop_filter by constructor. cbn [app].
    repeat break_if; reflexivity. }
  split; [exact H|]. split.
  - rewrite H. apply Forall_forall. intros b Hb. apply filter_In in Hb.
    destruct Hb as [_ Hb]. unfold on_screen in Hb.
    destruct (Bullet.y b <? 0) eqn:E; [discriminate|]. lia.
  - destruct (update_bullets_fields g) as (_ & _ & C & R). now split.
Qed.

(** ** Power-ups *)

(** The loop of [update_power_ups] assigns [power_ups] and
    [rapid_fire_timer] only. *)
Lemma power_ups_loop_frame {A : Type} (f : GameState -> A) :
  (forall v g, f (set_power_ups v g) = f g) ->
  (forall v g, f (set_rapid_fire_timer v g) = f g) ->
  forall todo g, f (power_ups_loop todo g) = f g.
Proof.
  intros Hp Hr. induction todo as [|p todo IH]; intros g; [reflexivity|].
  cbn [power_ups_loop]. repeat break_if; rewrite IH, ?Hp;
    try match goal with
      | |- context [PowerUp.type ?q] => destruct (PowerUp.type q)
      end;
    rewrite ?Hr; reflexivity.
Qed.

Lemma power_ups_loop_spec (todo : list PowerUp.t) (g : GameState) :
  rapid_fire_timer (power_ups_loop todo g)
  = (if existsb (picked_up g) todo then 300 else rapid_fire_timer g)
  /\ length (power_ups (power_ups_loop todo g))
     = (length (power_ups g)
        + length (filter (fun p => negb (below_screen p) && negb (picked_up g p))
                    todo))%nat.
Proof.
  revert g. induction todo as [|p todo IH]; intros g.
  - cbn. split; [reflexivity | lia].
  - cbn [power_ups_loop existsb filter]. fold (sink p).
    assert (Hb : below_screen p = fgtb (PowerUp.y (sink p)) (float_of_int SCREEN_HEIGHT))
      by reflexivity.
    assert (Hk : picked_up g p
                 = negb (fgtb (PowerUp.y (sink p)) (float_of_int SCREEN_HEIGHT))
                   && is_collision (PowerUp.x (sink p)) (PowerUp.y (sink p))
                        (float_of_int (playerX g)) (float_of_int (playerY g)) 40)
      by reflexivity.
    rewrite Hk, Hb. clear Hk Hb.
    destruct (fgtb (PowerUp.y (sink p)) (float_of_int SCREEN_HEIGHT));
      cbn [negb andb orb];
      [|destruct (is_collision _ _ _ _ _); cbn [negb andb orb]];
      try destruct (PowerUp.type (sink p));
      match goal with
      | |- context [power_ups_loop todo ?g'] =>
          destruct (IH g') as [IH1 IH2]; change (picked_up g') with (picked_up g) in *
      end;
      rewrite IH1, IH2; gs_simpl;
      rewrite ?remove_current_length, ?length_app; cbn [length];
      (split; [try reflexivity; now destruct (existsb (picked_up g) todo) | lia]).
Qed.



Lemma list_remove_Forall {A : Type} (Q : A -> Prop) (eqb : A -> A -> bool) (v : A)
  (l : list A) :
  Forall Q l -> Forall Q (list_remove eqb v l).
Proof.
  induction 1 as [|a l Ha Hl IH]; cbn [list_remove]; [constructor|].
  destruct (eqb a v); [exact Hl | now constructor].
Qed.

(** [coll.remove(o)] keeps a property of the elements, when [o] has it or
    cannot have a twin in [done]. *)
Lemma remove_current_Forall {A : Type} (Q : A -> Prop) (eqb : A -> A -> bool)
  (done : list A) (o : A) :
  Forall Q done ->
  (existsb (fun a => eqb a o) done = true -> Q o) ->
  Forall Q (remove_current eqb done o).
Proof.
  intros Hd Ho. unfold remove_current.
  destruct (existsb _ done); [|exact Hd].
  apply Forall_app. split; [now apply list_remove_Forall|].
  constructor; [now apply Ho | constructor].
Qed.

Lemma twin_Forall {A : Type} (Q : A -> Prop) (eqb : A -> A -> bool)
  (done : list A) (o : A) :
  (forall a, eqb a o = true -> a = o) ->
  Forall Q done -> existsb (fun a => eqb a o) done = true -> Q o.
Proof.
  intros Heq Hd Hex. apply existsb_exists in Hex. destruct Hex as (a & Ha & E).
  rewrite Forall_forall in Hd. rewrite <- (Heq a E). now apply Hd.
Qed.




(** ** The event queues *)

Lemma game_events_running (evs : list event) (st : GameState * mode) :
  snd (game_events evs st) = negb (existsb quits_game evs)
  /\ fst (game_events evs st) = fst (game_events (handled quits_game evs) st)
  /\ snd (fst (game_events evs st))
     = (if existsb (is_key K_ESCAPE) (handled quits_game evs) then MENU else snd st).
Proof.
  revert st. induction evs as [|ev evs IH]; intros st; [now repeat split|].
  destruct ev as [|[| | |]|]; cbn [game_events handled quits_game existsb
                                    is_key orb negb];
    try (now repeat split); try apply IH.
  - exact (IH (create_bullet (fst st), snd st)).
  - destruct (IH (fst st, MENU)) as (H1 & H2 & H3).
    repeat split; try assumption. rewrite H3. cbn [snd].
    destruct (existsb (is_key K_ESCAPE) _); reflexivity.
Qed.

(** The event loop of a playing frame assigns [bullets] and
    [shoot_cooldown] only. *)
Lemma create_bullet_frame {A : Type} (f : GameState -> A) :
  (forall v g, f (set_bullets v g) = f g) ->
  (forall v g, f (set_shoot_cooldown v g) = f g) ->
  forall g, f (create_bullet g) = f g.
Proof.
  intros Hb Hc g. unfold create_bullet. break_if; [|reflexivity].
  now rewrite Hc, Hb.
Qed.

Lemma game_events_frame {A : Type} (f : GameState -> A) :
  (forall v g, f (set_bullets v g) = f g) ->
  (forall v g, f (set_shoot_cooldown v g) = f g) ->
  forall evs g gs, f (fst (fst (game_events evs (g, gs)))) = f g.
Proof.
  intros Hb Hc. induction evs as [|ev evs IH]; intros g gs; [reflexivity|].
  destruct ev as [|[| | |]|]; cbn [game_events fst snd]; try apply IH;
    try reflexivity.
  rewrite IH. now apply create_bullet_frame.
Qed.

(** X6.  The menu and the game-over handler return [False] exactly when the
    queue holds a [QUIT] or an escape key, the handler of a playing frame
    exactly when it holds a [QUIT]; the events behind the first such event
    are not handled; and a playing frame that ends on [QUIT] leaves the
    player's velocity as it was. *)
Theorem handlers_quit (evs : list event) (held : pressed) (st : GameState * mode)
  (s : rng) :
  (snd (fst (handle_menu_input evs st s)) = negb (existsb quits_menu evs)
   /\ fst (fst (handle_menu_input evs st s))
      = fst (fst (handle_menu_input (handled quits_menu evs) st s)))
  /\ (snd (fst (handle_game_over_input evs st s)) = negb (existsb quits_menu evs)
      /\ fst (fst (handle_game_over_input evs st s))
         = fst (fst (handle_game_over_input (handled quits_menu evs) st s)))
  /\ snd (handle_game_input evs held st) = negb (existsb quits_game evs)
  /\ (if existsb quits_game evs
      then fst (handle_game_input evs held st)
           = fst (game_events (handled quits_game evs) st)
           /\ playerX_change (fst (fst (handle_game_input evs held st)))
              = playerX_change (fst st)
      else fst (handle_game_input evs held st)
           = fst (handle_game_input (handled quits_game evs) held st)).
Proof.
  destruct (handle_menu_input_running evs st s) as (M1 & M2 & _).
  destruct (handle_game_over_input_running evs st s) as (O1 & O2 & _).
  split; [now split|]. split; [now split|].
  unfold handle_game_input.
  assert (Hv : playerX_change (fst (fst (game_events (handled quits_game evs) st)))
               = playerX_change (fst st)).
  { destruct st as [g gs]. now apply game_events_frame. }
  destruct (game_events_running evs st) as (G1 & G2 & _).
  destruct (game_events_running (handled quits_game evs) st) as (G1' & _ & _).
  assert (Hh : existsb quits_game (handled quits_game evs) = false).
  { clear. induction evs as [|ev evs IH]; [reflexivity|].
    cbn [handled]. destruct (quits_game ev) eqn:E; [reflexivity|].
    cbn [existsb]. now rewrite E, IH. }
  rewrite Hh in G1'. cbn [negb] in G1'.
  destruct (game_events evs st) as [[g1 m1] c1].
  destruct (game_events (handled quits_game evs) st) as [[g2 m2] c2].
  cbn [fst snd] in *. subst c1 c2. injection G2 as -> ->.
  destruct (existsb quits_game evs); cbn [negb fst snd].
  - split; [reflexivity|]. split; [reflexivity | exact Hv].
  - split; reflexivity.
Qed.

(** ** Spawning *)

Lemma randint_range (a b : Z) (s : rng) :
  a <= b -> a <= fst (randint a b s) <= b.
Proof.
  intros H. unfold randint, randbelow, bind, next_raw, ret. cbn [fst].
  pose proof (Z.mod_pos_bound (s O) (b - a + 1)). lia.
Qed.

Ltac draw_int :=
  match goal with
  | |- context [let (_, _) := randint ?a ?b ?s in _] =>
      let H := fresh "Hr" in
      pose proof (randint_range a b s ltac:(unfold SCREEN_WIDTH, OBSTACLE_SPEED_MIN,
                                              OBSTACLE_SPEED_MAX; lia)) as H;
      destruct (randint a b s) as [? ?]; cbn [fst] in H
  end.

(** What [spawn_obstacle] decides about an obstacle. *)
Lemma spawn_obstacle_shape (g : GameState) (s : rng) :
  exists o,
    fst (spawn_obstacle g s) = set_obstacles (obstacles g ++ [o]) g
    /\ Obstacle.y o = -24 /\ Obstacle.w o = 20 /\ Obstacle.h o = 20
    /\ 0 <= Obstacle.x o <= SCREEN_WIDTH - 24
    /\ OBSTACLE_SPEED_MIN + level g / 2 <= Obstacle.speed o
       <= OBSTACLE_SPEED_MAX + level g / 2.
Proof.
  unfold spawn_obstacle, bind, ret. repeat draw_int. cbn [fst].
  eexists. split; [reflexivity|].
  cbn [Obstacle.x Obstacle.y Obstacle.w Obstacle.h Obstacle.speed].
  unfold SCREEN_WIDTH, OBSTACLE_SPEED_MIN, OBSTACLE_SPEED_MAX in *.
  repeat split; lia.
Qed.

(** X7.  [spawn_obstacle] appends exactly one obstacle and assigns nothing
    else: a 20 by 20 square at [y = -24] with [x] in [[0, SCREEN_WIDTH - 24]]
    and a speed between [8 + level // 2] and [14 + level // 2]. *)
Theorem spawn_obstacle_bounds (g : GameState) (s : rng) :
  exists o,
    fst (spawn_obstacle g s) = set_obstacles (obstacles g ++ [o]) g
    /\ Obstacle.y o = -24 /\ Obstacle.w o = 20 /\ Obstacle.h o = 20
    /\ 0 <= Obstacle.x o <= SCREEN_WIDTH - 24
    /\ OBSTACLE_SPEED_MIN + level g / 2 <= Obstacle.speed o
       <= OBSTACLE_SPEED_MAX + level g / 2.
Proof. exact (spawn_obstacle_shape g s). Qed.

(** Everything that [spawn_enemy] decides about an enemy. *)
Lemma spawn_enemy_shape (g : GameState) (s : rng) :
  (Z.of_nat (length (enemies g)) >=? max_enemies_on_screen g) = false ->
  exists e,
    fst (spawn_enemy g s) = set_enemies (enemies g ++ [e]) g
    /\ (Enemy.health e = base_health (Enemy.type e) + level g / 3
        /\ Enemy.max_health e = Enemy.health e
        /\ Enemy.points e = points_of (Enemy.type e)
        /\ Enemy.y_change e = float_of_int ENEMY_DROP_SPEED)
    /\ ((exists x y,
           0 <= x <= SCREEN_WIDTH - 64 /\ -140 <= y <= -60
           /\ Enemy.x e = float_of_int x /\ Enemy.y e = float_of_int y
           /\ (Enemy.x_change e = base_speed_of (Enemy.type e) g
               \/ Enemy.x_change e = (- base_speed_of (Enemy.type e) g)%float))
        \/ (exists y,
              60 <= y <= 200
              /\ Enemy.x e = float_of_int (-64) /\ Enemy.y e = float_of_int y
              /\ Enemy.x_change e = abs (base_speed_of (Enemy.type e) g))
        \/ (exists y,
              60 <= y <= 200
              /\ Enemy.x e = float_of_int SCREEN_WIDTH /\ Enemy.y e = float_of_int y
              /\ Enemy.x_change e = (- abs (base_speed_of (Enemy.type e) g))%float)).
Proof.
  intros Hcap. unfold spawn_enemy. rewrite Hcap.
  unfold bind at 1.
  destruct ((if level g >=? 5
             then choice ENEMY_BASIC [ENEMY_BASIC; ENEMY_FAST; ENEMY_TANK]
             else if level g >=? 3 then choice ENEMY_BASIC [ENEMY_BASIC; ENEMY_FAST]
                  else ret ENEMY_BASIC) s) as [t s0].
  destruct t; cbv beta iota; unfold bind;
    destruct (choices_spawn_from s0) as [side s1];
    destruct (uniform _ _ s1) as [u s2];
    destruct side; repeat draw_int;
    try match goal with
      | |- context [choice true [true; false] ?s'] =>
          destruct (choice true [true; false] s') as [[|] ?]
      end;
    unfold ret; cbn [fst]; eexists; (split; [reflexivity|]);
    (split; [cbn; repeat split; reflexivity|]);
    cbn [Enemy.x Enemy.y Enemy.x_change Enemy.type base_speed_of].
  all: first
    [ match goal with
      | Hx : 0 <= ?x <= SCREEN_WIDTH - 64, Hy : -140 <= ?y <= -60 |- _ =>
          left; exists x, y; split; [exact Hx|]; split; [exact Hy|];
          split; [reflexivity|]; split; [reflexivity|];
          first [left; reflexivity | right; reflexivity]
      end
    | match goal with
      | Hy : 60 <= ?y <= 200 |- _ =>
          first
            [ right; left; exists y; split; [exact Hy|]; repeat split; reflexivity
            | right; right; exists y; split; [exact Hy|]; repeat split; reflexivity ]
      end ].
Qed.

(** X8.  The stats of a spawned enemy follow from its type and the level:
    health and maximal health are [1 + level // 3] for Basic and Fast and
    [3 + level // 3] for Tank, the points are 10, 20 and 30, and the
    step-down is 30. *)
Theorem spawn_enemy_stats (g : GameState) (s : rng) :
  (Z.of_nat (length (enemies g)) >=? max_enemies_on_screen g) = false ->
  exists e,
    fst (spawn_enemy g s) = set_enemies (enemies g ++ [e]) g
    /\ Enemy.health e = base_health (Enemy.type e) + level g / 3
    /\ Enemy.max_health e = Enemy.health e
    /\ Enemy.points e = points_of (Enemy.type e)
    /\ Enemy.y_change e = 30%float.
Proof.
  intros Hcap. destruct (spawn_enemy_shape g s Hcap) as (e & He & (H1 & H2 & H3 & H4) & _).
  exists e. repeat split; assumption.
Qed.

Lemma spawn_enemy_stats_witness :
  (Z.of_nat (length (enemies reset_base)) >=? max_enemies_on_screen reset_base) = false
  /\ exists e,
       fst (spawn_enemy reset_base zero_rng) = set_enemies (enemies reset_base ++ [e]) reset_base
       /\ Enemy.health e = base_health (Enemy.type e) + level reset_base / 3
       /\ Enemy.max_health e = Enemy.health e
       /\ Enemy.points e = points_of (Enemy.type e)
       /\ Enemy.y_change e = 30%float.
Proof.
  split; [reflexivity|]. exact (spawn_enemy_stats reset_base zero_rng eq_refl).
Defined.

(** X9.  A spawned enemy enters at the top, at the left edge or at the right
    edge.  At the top its [x] is in [[0, SCREEN_WIDTH - 64]], its [y] in
    [[-140, -60]] and it moves left or right at its base speed; at the left
    edge it starts at [x = -64] with [y] in [[60, 200]] and the velocity
    [abs base_speed]; at the right edge at [x = SCREEN_WIDTH] with [y] in
    [[60, 200]] and the velocity [- abs base_speed].  The base speed is
    [ENEMY_SPEED * difficulty_multiplier], times 1.8 for Fast and 0.6 for
    Tank. *)
Theorem spawn_enemy_origin (g : GameState) (s : rng) :
  (Z.of_nat (length (enemies g)) >=? max_enemies_on_screen g) = false ->
  exists e,
    fst (spawn_enemy g s) = set_enemies (enemies g ++ [e]) g
    /\ ((exists x y,
           0 <= x <= SCREEN_WIDTH - 64 /\ -140 <= y <= -60
           /\ Enemy.x e = float_of_int x /\ Enemy.y e = float_of_int y
           /\ (Enemy.x_change e = base_speed_of (Enemy.type e) g
               \/ Enemy.x_change e = (- base_speed_of (Enemy.type e) g)%float))
        \/ (exists y,
              60 <= y <= 200
              /\ Enemy.x e = float_of_int (-64) /\ Enemy.y e = float_of_int y
              /\ Enemy.x_change e = abs (base_speed_of (Enemy.type e) g))
        \/ (exists y,
              60 <= y <= 200
              /\ Enemy.x e = float_of_int SCREEN_WIDTH /\ Enemy.y e = float_of_int y
              /\ Enemy.x_change e = (- abs (base_speed_of (Enemy.type e) g))%float)).
Proof.
  intros Hcap. destruct (spawn_enemy_shape g s Hcap) as (e & He & _ & Hg).
  exists e. split; assumption.
Qed.

Lemma spawn_enemy_origin_witness :
  (Z.of_nat (length (enemies reset_base)) >=? max_enemies_on_screen reset_base) = false
  /\ exists e,
       fst (spawn_enemy reset_base left_rng)
       = set_enemies (enemies reset_base ++ [e]) reset_base
       /\ ((exists x y,
              0 <= x <= SCREEN_WIDTH - 64 /\ -140 <= y <= -60
              /\ Enemy.x e = float_of_int x /\ Enemy.y e = float_of_int y
              /\ (Enemy.x_change e = base_speed_of (Enemy.type e) reset_base
                  \/ Enemy.x_change e
                     = (- base_speed_of (Enemy.type e) reset_base)%float))
           \/ (exists y,
                 60 <= y <= 200
                 /\ Enemy.x e = float_of_int (-64) /\ Enemy.y e = float_of_int y
                 /\ Enemy.x_change e = abs (base_speed_of (Enemy.type e) reset_base))
           \/ (exists y,
                 60 <= y <= 200
                 /\ Enemy.x e = float_of_int SCREEN_WIDTH
                 /\ Enemy.y e = float_of_int y
                 /\ Enemy.x_change e
                    = (- abs (base_speed_of (Enemy.type e) reset_base))%float)).
Proof.
  split; [reflexivity|]. exact (spawn_enemy_origin reset_base left_rng eq_refl).
Defined.


(** ** What the updates leave alone *)

Ltac gs_simpl_in H :=
  cbn [fst snd playerX playerY playerX_change lives score_value level game_over
       difficulty_multiplier enemies enemy_spawn_timer max_enemies_on_screen
       obstacles obstacle_spawn_timer bullets shoot_cooldown max_bullets
       rapid_fire_timer power_ups
       set_playerX set_playerY set_playerX_change set_lives set_score_value
       set_level set_game_over set_difficulty_multiplier set_enemies
       set_enemy_spawn_timer set_max_enemies_on_screen set_obstacles
       set_obstacle_spawn_timer set_bullets set_shoot_cooldown set_max_bullets
       set_rapid_fire_timer set_power_ups] in H.

Lemma level_up_frame {A : Type} (f : GameState -> A) :
  outside_kill f -> forall g, f (level_up g) = f g.
Proof.
  intros (Hs & He & Hp & Hl & Hd & Hm) g. unfold level_up.
  break_if; [|reflexivity]. now rewrite Hm, Hd, Hl.
Qed.

Lemma kill_enemy_frame {A : Type} (f : GameState -> A) :
  outside_kill f -> forall e g s, f (fst (kill_enemy e g s)) = f g.
Proof.
  intros Hk e g s. unfold kill_enemy, bind, ret.
  destruct (random s) as [r s']. cbn [fst]. rewrite (level_up_frame f Hk).
  destruct Hk as (Hs & He & Hp & Hl & Hd & Hm).
  break_if; now rewrite ?Hp, He, Hs.
Qed.

Lemma enemies_loop_frame {A : Type} (f : GameState -> A) :
  outside_enemies_loop f ->
  forall todo g gs s, f (fst (fst (enemies_loop todo (g, gs) s))) = f g.
Proof.
  intros (Hk & Hl & Hg & Hb).
  pose proof Hk as (Hs & He & Hp & Hlv & Hd & Hm).
  induction todo as [|e todo IH]; intros g gs s; [reflexivity|].
  cbn [enemies_loop].
  destruct (fgtb (Enemy.y e) _).
  - destruct (lives _ <=? 0); rewrite IH; now rewrite ?Hg, He, Hl.
  - destruct (find _ _) as [b|]; [destruct (_ <=? 0)|].
    + unfold bind.
      pose proof (kill_enemy_frame f Hk
                    (Enemy.set_health (Enemy.health (move_enemy e) - 1) (move_enemy e))
                    (set_bullets (list_remove Bullet.eqb b (bullets g)) g) s) as K.
      destruct (kill_enemy _ _ s) as [g' s']. cbn [fst] in K.
      rewrite IH, K. apply Hb.
    + rewrite IH. now rewrite He, Hb.
    + rewrite IH. apply He.
Qed.

Lemma update_enemies_frame {A : Type} (f : GameState -> A) :
  outside_enemies f ->
  forall g gs s, f (fst (fst (update_enemies (g, gs) s))) = f g.
Proof.
  intros Ho g gs s. unfold update_enemies, bind, ret.
  pose proof Ho as (Hloop & Ht).
  pose proof Hloop as ((Hs & He & Hp & Hlv & Hd & Hm) & Hl & Hg & Hb).
  destruct (_ >=? _).
  - destruct (spawn_enemy_frame
                (set_enemy_spawn_timer (enemy_spawn_timer g + 1) g) s) as [l Hl'].
    destruct (spawn_enemy _ s) as [g' s']. cbn [fst] in Hl'. subst g'.
    rewrite (enemies_loop_frame f Hloop). now rewrite He, Ht, He, Ht.
  - rewrite (enemies_loop_frame f Hloop). now rewrite He, Ht.
Qed.

Lemma obstacles_loop_frame {A : Type} (f : GameState -> A) :
  outside_obstacles_loop f ->
  forall rect todo g gs, f (fst (obstacles_loop rect todo (g, gs))) = f g.
Proof.
  intros (Hl & Hg & Hb & Ho) rect.
  induction todo as [|o todo IH]; intros g gs; [reflexivity|].
  cbn [obstacles_loop]. destruct rect as [[[px py] pw] ph].
  destruct (Obstacle.y _ >? SCREEN_HEIGHT); [rewrite IH; apply Ho|].
  set (g1 := match find _ (bullets g) with Some _ => _ | None => g end).
  assert (H1 : f g1 = f g) by (subst g1; destruct (find _ (bullets g)); auto).
  destruct (rect_overlap px py pw ph _ _ _ _); [destruct (lives _ <=? 0)|];
    rewrite IH; now rewrite ?Hg, Ho, ?Hl.
Qed.

Lemma update_obstacles_frame {A : Type} (f : GameState -> A) :
  outside_obstacles f ->
  forall g gs s, f (fst (fst (update_obstacles (g, gs) s))) = f g.
Proof.
  intros H g gs s. unfold update_obstacles, bind, ret.
  pose proof H as (Hloop & Ht). pose proof Hloop as (Hl & Hg & Hb & Ho).
  destruct (_ >=? _).
  - destruct (spawn_obstacle_frame
                (set_obstacle_spawn_timer (obstacle_spawn_timer g + 1) g) s)
      as [o Hs].
    destruct (spawn_obstacle _ s) as [g' s']. cbn [fst snd] in *. subst g'.
    rewrite (obstacles_loop_frame f Hloop). now rewrite Ho, Ht, Ho, Ht.
  - cbn [fst snd]. rewrite (obstacles_loop_frame f Hloop). now rewrite Ho, Ht.
Qed.

Lemma update_player_frame {A : Type} (f : GameState -> A) :
  (forall v g, f (set_playerX v g) = f g) -> forall g, f (update_player g) = f g.
Proof. intros H g. unfold update_player. repeat break_if; now rewrite ?H. Qed.

Lemma update_bullets_frame {A : Type} (f : GameState -> A) :
  (forall v g, f (set_bullets v g) = f g) ->
  (forall v g, f (set_shoot_cooldown v g) = f g) ->
  (forall v g, f (set_rapid_fire_timer v g) = f g) ->
  forall g, f (update_bullets g) = f g.
Proof.
  intros Hb Hc Hr g. unfold update_bullets. rewrite Hb.
  repeat break_if; now rewrite ?Hr, ?Hc.
Qed.

Lemma update_power_ups_frame {A : Type} (f : GameState -> A) :
  (forall v g, f (set_power_ups v g) = f g) ->
  (forall v g, f (set_rapid_fire_timer v g) = f g) ->
  forall g, f (update_power_ups g) = f g.
Proof.
  intros Hp Hr g. unfold update_power_ups.
  rewrite (power_ups_loop_frame f Hp Hr). apply Hp.
Qed.

Ltac outside :=
  unfold outside_enemies, outside_enemies_loop, outside_kill, outside_obstacles,
    outside_obstacles_loop;
  repeat split; intros; reflexivity.

(** X10.  [update_enemies] leaves the player, the obstacles and their spawn
    timer, the shoot cooldown, the bullet cap and the rapid-fire timer as
    they are. *)
Theorem update_enemies_footprint (g : GameState) (gs : mode) (s : rng) :
  let g' := fst (fst (update_enemies (g, gs) s)) in
  playerX g' = playerX g /\ playerY g' = playerY g
  /\ playerX_change g' = playerX_change g
  /\ obstacles g' = obstacles g
  /\ obstacle_spawn_timer g' = obstacle_spawn_timer g
  /\ shoot_cooldown g' = shoot_cooldown g
  /\ max_bullets g' = max_bullets g
  /\ rapid_fire_timer g' = rapid_fire_timer g.
Proof.
  cbv zeta. repeat split;
    match goal with
    | |- ?f _ = ?f g => apply (update_enemies_frame f); outside
    end.
Qed.

(** X11.  [update_obstacles] leaves the player, the score, the level, the
    difficulty multiplier, the enemies with their spawn timer and cap, the
    power-ups, the shoot cooldown, the bullet cap and the rapid-fire timer as
    they are. *)
Theorem update_obstacles_footprint (g : GameState) (gs : mode) (s : rng) :
  let g' := fst (fst (update_obstacles (g, gs) s)) in
  playerX g' = playerX g /\ playerY g' = playerY g
  /\ playerX_change g' = playerX_change g
  /\ score_value g' = score_value g /\ level g' = level g
  /\ difficulty_multiplier g' = difficulty_multiplier g
  /\ enemies g' = enemies g
  /\ enemy_spawn_timer g' = enemy_spawn_timer g
  /\ max_enemies_on_screen g' = max_enemies_on_screen g
  /\ power_ups g' = power_ups g
  /\ shoot_cooldown g' = shoot_cooldown g
  /\ max_bullets g' = max_bullets g
  /\ rapid_fire_timer g' = rapid_fire_timer g.
Proof.
  cbv zeta. repeat split;
    match goal with
    | |- ?f _ = ?f g => apply (update_obstacles_frame f); outside
    end.
Qed.

(** ** The mode at the end of a frame *)

Lemma mode_after_same (m : mode) (g g' : GameState) :
  lives g' = lives g -> mode_after m g' = mode_after m g.
Proof. unfold mode_after. now intros ->. Qed.

Lemma enemies_loop_mode_after (m : mode) (todo : list Enemy.t)
  (st : GameState * mode) (s : rng) :
  snd st = mode_after m (fst st) ->
  snd (fst (enemies_loop todo st s))
  = mode_after m (fst (fst (enemies_loop todo st s))).
Proof.
  revert st s. induction todo as [|e todo IH]; intros [g gs] s H; [exact H|].
  cbn [enemies_loop]. cbn [fst snd] in H.
  destruct (fgtb (Enemy.y e) _).
  - destruct (lives _ <=? 0) eqn:E; apply IH; gs_simpl_in E;
      unfold mode_after in *; gs_simpl; rewrite E; [reflexivity|].
    rewrite H. destruct (lives g <=? 0) eqn:E'; [lia | reflexivity].
  - destruct (find _ _) as [b|]; [destruct (_ <=? 0)|].
    + unfold bind.
      pose proof (kill_enemy_frame lives ltac:(unfold outside_kill; now repeat split)
                    (Enemy.set_health (Enemy.health (move_enemy e) - 1) (move_enemy e))
                    (set_bullets (list_remove Bullet.eqb b (bullets g)) g) s) as K.
      destruct (kill_enemy _ _ s) as [g' s']. cbn [fst] in K.
      apply IH. cbn [fst snd]. rewrite H. symmetry. apply mode_after_same. exact K.
    + apply IH. exact H.
    + apply IH. exact H.
Qed.

Lemma update_enemies_mode_after (m : mode) (st : GameState * mode) (s : rng) :
  snd st = mode_after m (fst st) ->
  snd (fst (update_enemies st s)) = mode_after m (fst (fst (update_enemies st s))).
Proof.
  destruct st as [g gs]. intros H. unfold update_enemies, bind, ret.
  destruct (_ >=? _).
  - destruct (spawn_enemy_frame
                (set_enemy_spawn_timer (enemy_spawn_timer g + 1) g) s) as [l Hl].
    destruct (spawn_enemy _ s) as [g' s']. cbn [fst] in Hl. subst g'.
    apply enemies_loop_mode_after. exact H.
  - apply enemies_loop_mode_after. exact H.
Qed.

Lemma obstacles_loop_mode_after (m : mode) (rect : Z * Z * Z * Z)
  (todo : list Obstacle.t) (st : GameState * mode) :
  snd st = mode_after m (fst st) ->
  snd (obstacles_loop rect todo st) = mode_after m (fst (obstacles_loop rect todo st)).
Proof.
  revert st. induction todo as [|o todo IH]; intros [g gs] H; [exact H|].
  cbn [obstacles_loop]. cbn [fst snd] in H. destruct rect as [[[px py] pw] ph].
  destruct (Obstacle.y _ >? SCREEN_HEIGHT); [apply IH; exact H|].
  set (g1 := match find _ (bullets g) with Some _ => _ | None => g end).
  assert (H1 : lives g1 = lives g) by (subst g1; now destruct (find _ (bullets g))).
  destruct (rect_overlap px py pw ph _ _ _ _).
  - destruct (lives _ <=? 0) eqn:E; apply IH; gs_simpl_in E;
      unfold mode_after in *; gs_simpl; rewrite E; [reflexivity|].
    rewrite H. destruct (lives g <=? 0) eqn:E'; [lia | reflexivity].
  - apply IH. cbn [fst snd]. rewrite H. symmetry. apply mode_after_same. exact H1.
Qed.

Lemma update_obstacles_mode_after (m : mode) (st : GameState * mode) (s : rng) :
  snd st = mode_after m (fst st) ->
  snd (fst (update_obstacles st s))
  = mode_after m (fst (fst (update_obstacles st s))).
Proof.
  destruct st as [g gs]. intros H. unfold update_obstacles, bind, ret.
  destruct (_ >=? _).
  - destruct (spawn_obstacle_frame
                (set_obstacle_spawn_timer (obstacle_spawn_timer g + 1) g) s)
      as [o Ho].
    destruct (spawn_obstacle _ s) as [g' s']. cbn [fst snd] in *. subst g'.
    apply obstacles_loop_mode_after. exact H.
  - cbn [fst snd]. apply obstacles_loop_mode_after. exact H.
Qed.

Lemma update_all_mode_after (g : GameState) (m : mode) (s : rng) :
  0 < lives g ->
  snd (fst (update_all (g, m) s)) = mode_after m (fst (fst (update_all (g, m) s))).
Proof.
  intros Hl. unfold update_all, bind.
  set (g3 := update_power_ups (update_bullets (update_player g))).
  assert (H3 : lives g3 = lives g).
  { subst g3. rewrite (update_power_ups_frame lives), (update_bullets_frame lives),
      (update_player_frame lives); reflexivity. }
  pose proof (update_enemies_mode_after m (g3, m) s) as H4.
  destruct (update_enemies (g3, m) s) as [st4 s4]. cbn [fst snd] in H4.
  apply update_obstacles_mode_after. apply H4.
  unfold mode_after. rewrite H3. destruct (lives g <=? 0) eqn:E; [lia | reflexivity].
Qed.

(** X12.  In a session, the mode at the end of a frame is a function of the
    mode at its head, of the events handled and of the lives at its end: the
    menu starts the game on the space bar, the game-over screen on R; a
    playing frame ends in [GAME_OVER] when the lives are used up, else in the
    menu when an escape key was handled, else it goes on playing. *)
Theorem mode_transitions (w : world) (inp : frame) :
  reachable w ->
  game_state (fst (main_iteration inp w))
  = next_mode (game_state w) (events inp)
      (lives (game (fst (main_iteration inp w)))).
Proof.
  intros Hr. pose proof (reachable_inv w Hr) as (Hf & _).
  destruct w as [g gs s]. unfold main_iteration, next_mode.
  cbn [game game_state random_state fst snd] in *.
  destruct gs.
  - destruct (handle_menu_input_running (events inp) (g, MENU) s) as (_ & _ & H).
    destruct (handle_menu_input _ _ s) as [[[g' gs'] r] s']. exact H.
  - destruct Hf as [Hf0 Hf1]. cbn [fst snd] in *.
    assert (Hl : 0 < lives g).
    { destruct (Z_lt_le_dec 0 (lives g)) as [|Hle]; [assumption|].
      destruct (Hf0 Hle) as [_ Habs]. discriminate. }
    destruct (Hf1 Hl) as [Hgo _].
    unfold handle_game_input.
    destruct (game_events_running (events inp) (g, PLAYING)) as (_ & _ & Hm).
    pose proof (game_events_frame lives ltac:(reflexivity) ltac:(reflexivity)
                  (events inp) g PLAYING) as Hl1.
    pose proof (game_events_frame game_over ltac:(reflexivity) ltac:(reflexivity)
                  (events inp) g PLAYING) as Hg1.
    destruct (game_events _ _) as [[g1 gs1] c]. cbn [fst snd] in *.
    set (g2 := if K_LEFT (keys inp) || K_a (keys inp) then _ else _).
    assert (H2 : lives g2 = lives g /\ game_over g2 = false).
    { subst g2. repeat break_if; gs_simpl; split; congruence. }
    destruct H2 as [L2 G2].
    destruct c.
    + rewrite G2. cbn [negb].
      pose proof (update_all_mode_after g2 gs1 s ltac:(lia)) as H.
      destruct (update_all (g2, gs1) s) as [[g3 gs3] s3]. cbn [fst snd game game_state] in *.
      rewrite H, Hm. reflexivity.
    + rewrite Hg1, Hgo. cbn [negb].
      pose proof (update_all_mode_after g1 gs1 s ltac:(lia)) as H.
      destruct (update_all (g1, gs1) s) as [[g3 gs3] s3]. cbn [fst snd game game_state] in *.
      rewrite H, Hm. reflexivity.
  - destruct (handle_game_over_input_running (events inp) (g, GAME_OVER) s)
      as (_ & _ & H).
    destruct (handle_game_over_input _ _ s) as [[[g' gs'] r] s']. exact H.
Qed.

Lemma mode_transitions_witness :
  reachable (left_session 8)
  /\ game_state (fst (main_iteration idle (left_session 8)))
     = next_mode (game_state (left_session 8)) (events idle)
         (lives (game (fst (main_iteration idle (left_session 8))))).
Proof.
  assert (H : reachable (left_session 8)).
  { apply left_session_reachable. vm_compute. reflexivity. }
  split; [exact H|].
  apply (mode_transitions (left_session 8) idle H).
Defined.

(** ** Properties kept by every step of a session *)

Lemma steps_over_and (B P : GameState -> Prop) :
  steps_over (fun _ => True) B -> steps_over B P ->
  steps_over (fun _ => True) (fun g => B g /\ P g).
Proof.
  intros (B1 & B2 & B3 & B4 & B5 & B6 & B7 & B8)
         (P1 & P2 & P3 & P4 & P5 & P6 & P7 & P8).
  repeat split; intros; intuition auto.
Qed.

Lemma game_events_steps (P : GameState -> Prop) :
  steps_over (fun _ => True) P ->
  forall evs g m, P g -> P (fst (fst (game_events evs (g, m)))).
Proof.
  intros (_ & H2 & _). induction evs as [|ev evs IH]; intros g m Hg; [exact Hg|].
  destruct ev as [|[| | |]|]; cbn [game_events fst snd]; auto.
Qed.

Lemma handle_game_input_steps (P : GameState -> Prop) :
  steps_over (fun _ => True) P ->
  forall evs held g m, P g -> P (fst (fst (handle_game_input evs held (g, m)))).
Proof.
  intros HP evs held g m Hg. unfold handle_game_input.
  pose proof (game_events_steps P HP evs g m Hg) as H1.
  destruct HP as (_ & _ & H3 & _).
  destruct (game_events evs (g, m)) as [[g1 m1] c]. cbn [fst snd] in *.
  destruct c; cbn [fst]; [|exact H1].
  repeat break_if; apply H3; cbn [In]; auto.
Qed.

Lemma update_all_steps (P : GameState -> Prop) :
  steps_over (fun _ => True) P ->
  forall g m s, P g -> P (fst (fst (update_all (g, m) s))).
Proof.
  intros (_ & _ & _ & H4 & H5 & H6 & H7 & H8) g m s Hg.
  unfold update_all, bind.
  set (g3 := update_power_ups (update_bullets (update_player g))).
  assert (H3 : P g3) by (subst g3; auto).
  pose proof (H7 g3 m s I H3) as K.
  destruct (update_enemies (g3, m) s) as [[g4 m4] s4]. cbn [fst] in K.
  apply H8; auto.
Qed.

Lemma handle_menu_input_steps (P : GameState -> Prop) :
  steps_over (fun _ => True) P ->
  forall evs st s, P (fst st) -> P (fst (fst (fst (handle_menu_input evs st s)))).
Proof.
  intros (H1 & _). induction evs as [|ev evs IH]; intros st s Hg; [exact Hg|].
  destruct ev as [|[| | |]|]; cbn [handle_menu_input]; try exact Hg; try now apply IH.
  unfold bind. pose proof (H1 (fst st) s) as K.
  destruct (reset_game (fst st) s) as [g' s']. apply IH. exact K.
Qed.

Lemma handle_game_over_input_steps (P : GameState -> Prop) :
  steps_over (fun _ => True) P ->
  forall evs st s,
    P (fst st) -> P (fst (fst (fst (handle_game_over_input evs st s)))).
Proof.
  intros (H1 & _). induction evs as [|ev evs IH]; intros st s Hg; [exact Hg|].
  destruct ev as [|[| | |]|]; cbn [handle_game_over_input]; try exact Hg;
    try now apply IH.
  unfold bind. pose proof (H1 (fst st) s) as K.
  destruct (reset_game (fst st) s) as [g' s']. apply IH. exact K.
Qed.

Lemma frame_steps (P : GameState -> Prop) :
  steps_over (fun _ => True) P ->
  forall inp w, P (game w) -> P (game (fst (main_iteration inp w))).
Proof.
  intros HP inp [g gs s] Hg. unfold main_iteration.
  cbn [game game_state random_state] in *.
  destruct gs.
  - pose proof (handle_menu_input_steps P HP (events inp) (g, MENU) s Hg) as K.
    destruct (handle_menu_input _ _ s) as [[[g' gs'] r] s']. exact K.
  - pose proof (handle_game_input_steps P HP (events inp) (keys inp) g PLAYING Hg)
      as K.
    destruct (handle_game_input _ _ _) as [[g1 gs1] r]. cbn [fst] in K.
    destruct (game_over g1); cbn [negb]; [exact K|].
    pose proof (update_all_steps P HP g1 gs1 s K) as K2.
    destruct (update_all (g1, gs1) s) as [[g2 gs2] s2]. exact K2.
  - pose proof (handle_game_over_input_steps P HP (events inp) (g, GAME_OVER) s Hg)
      as K.
    destruct (handle_game_over_input _ _ s) as [[[g' gs'] r] s']. exact K.
Qed.

Lemma reachable_steps (P : GameState -> Prop) :
  steps_over (fun _ => True) P -> forall w, reachable w -> P (game w).
Proof.
  intros HP w. induction 1 as [s | w inp w' _ IH Hstep].
  - unfold initial_world. destruct HP as (H1 & _). pose proof (H1 blank s) as K.
    destruct (reset_game blank s) as [g s']. exact K.
  - pose proof (frame_steps P HP inp w IH) as H. now rewrite Hstep in H.
Qed.

(** Steps that assign nothing a property depends on. *)
Ltac framed :=
  match goal with
  | |- ?P (create_bullet _) =>
      rewrite (create_bullet_frame P) by (intros; reflexivity)
  | |- ?P (update_player _) =>
      rewrite (update_player_frame P) by (intros; reflexivity)
  | |- ?P (update_bullets _) =>
      rewrite (update_bullets_frame P) by (intros; reflexivity)
  | |- ?P (update_power_ups _) =>
      rewrite (update_power_ups_frame P) by (intros; reflexivity)
  | |- ?P (fst (fst (update_enemies _ _))) =>
      rewrite (update_enemies_frame P) by outside
  | |- ?P (fst (fst (update_obstacles _ _))) =>
      rewrite (update_obstacles_frame P) by outside
  | |- ?P (set_playerX_change _ ?g) => change (P g)
  end; try assumption.

Lemma update_enemies_climbs (g : GameState) (gs : mode) (s : rng) :
  climbs g (fst (fst (update_enemies (g, gs) s))).
Proof.
  unfold update_enemies, bind, ret.
  destruct (_ >=? _).
  - destruct (spawn_enemy_frame
                (set_enemy_spawn_timer (enemy_spawn_timer g + 1) g) s) as [l Hl].
    destruct (spawn_enemy _ s) as [g' s']. cbn [fst] in Hl. subst g'.
    eapply climbs_trans; [|apply enemies_loop_climbs]. apply climbs_same; reflexivity.
  - eapply climbs_trans; [|apply enemies_loop_climbs]. apply climbs_same; reflexivity.
Qed.

Lemma cap_ok_steps : steps_over (fun _ => True) cap_ok.
Proof.
  unfold steps_over.
  repeat match goal with |- _ /\ _ => split end; intros; try framed.
  - destruct (reset_game_shape g s) as (l & -> & _). unfold cap_ok, MAX_ENEMIES.
    cbn. lia.
  - destruct (update_enemies_climbs g m s) as [K _]. now apply K.
Qed.

Lemma player_ok_steps : steps_over (fun _ => True) player_ok.
Proof.
  unfold steps_over.
  repeat match goal with |- _ /\ _ => split end; intros; try framed.
  - destruct (reset_game_shape g s) as (l & -> & _). unfold player_ok. cbn. lia.
  - unfold player_ok in *. gs_simpl. cbn [In] in H. intuition lia.
  - unfold player_ok, update_player, SCREEN_WIDTH in *. gs_simpl.
    destruct (playerX g + playerX_change g <=? 0) eqn:E1; gs_simpl;
      [|destruct (playerX g + playerX_change g >=? 800 - 64) eqn:E2; gs_simpl];
      intuition lia.
Qed.

Lemma timers_ok_steps : steps_over (fun _ => True) timers_ok.
Proof.
  unfold steps_over.
  repeat match goal with |- _ /\ _ => split end; intros; try framed.
  - destruct (reset_game_shape g s) as (l & -> & _). unfold timers_ok. cbn. lia.
  - unfold timers_ok, create_bullet in *. repeat break_if; gs_simpl; lia.
  - destruct (update_bullets_fields g) as (_ & _ & C & R).
    unfold timers_ok in *. rewrite C, R. repeat break_if; lia.
  - unfold timers_ok in *.
    rewrite (update_power_ups_frame shoot_cooldown) by (intros; reflexivity).
    unfold update_power_ups.
    destruct (power_ups_loop_spec (power_ups g) (set_power_ups [] g)) as [-> _].
    break_if; gs_simpl; lia.
Qed.

(** X13.  In a session the player never leaves the screen: its [x] stays in
    [[0, SCREEN_WIDTH - 64]], its [y] is [SCREEN_HEIGHT - 120], and its
    velocity is [- PLAYER_SPEED], 0 or [PLAYER_SPEED]. *)
Theorem player_stays_on_screen (w : world) :
  reachable w ->
  0 <= playerX (game w) <= SCREEN_WIDTH - 64
  /\ playerY (game w) = SCREEN_HEIGHT - 120
  /\ (playerX_change (game w) = - PLAYER_SPEED \/ playerX_change (game w) = 0
      \/ playerX_change (game w) = PLAYER_SPEED).
Proof. intros H. exact (reachable_steps player_ok player_ok_steps w H). Qed.

Lemma player_stays_on_screen_witness :
  reachable (left_session 8)
  /\ 0 <= playerX (game (left_session 8)) <= SCREEN_WIDTH - 64
  /\ playerY (game (left_session 8)) = SCREEN_HEIGHT - 120
  /\ (playerX_change (game (left_session 8)) = - PLAYER_SPEED
      \/ playerX_change (game (left_session 8)) = 0
      \/ playerX_change (game (left_session 8)) = PLAYER_SPEED).
Proof.
  assert (H : reachable (left_session 8)).
  { apply left_session_reachable. vm_compute. reflexivity. }
  split; [exact H|]. apply (player_stays_on_screen (left_session 8) H).
Defined.

(** X14.  In a session the shoot cooldown stays in [[0, 15]] and the
    rapid-fire timer in [[0, 300]]. *)
Theorem timers_in_range (w : world) :
  reachable w ->
  0 <= shoot_cooldown (game w) <= 15 /\ 0 <= rapid_fire_timer (game w) <= 300.
Proof. intros H. exact (reachable_steps timers_ok timers_ok_steps w H). Qed.

Lemma timers_in_range_witness :
  reachable rapid_fire_session
  /\ 0 <= shoot_cooldown (game rapid_fire_session) <= 15
  /\ 0 <= rapid_fire_timer (game rapid_fire_session) <= 300.
Proof.
  split; [exact rapid_fire_session_reachable|].
  apply (timers_in_range rapid_fire_session rapid_fire_session_reachable).
Defined.

(** ** Bullets, obstacles and spawn timers in a session *)

(** The enemy and obstacle updates take bullets out and put none in. *)
Lemma enemies_loop_bullets (Q : Bullet.t -> Prop) (todo : list Enemy.t)
  (g : GameState) (gs : mode) (s : rng) :
  Forall Q (bullets g) ->
  Forall Q (bullets (fst (fst (enemies_loop todo (g, gs) s)))).
Proof.
  revert g gs s. induction todo as [|e todo IH]; intros g gs s H; [exact H|].
  cbn [enemies_loop].
  destruct (fgtb (Enemy.y e) _).
  - destruct (lives _ <=? 0); apply IH; exact H.
  - destruct (find _ _) as [b|]; [destruct (_ <=? 0)|].
    + unfold bind.
      pose proof (kill_enemy_frame bullets ltac:(unfold outside_kill; now repeat split)
                    (Enemy.set_health (Enemy.health (move_enemy e) - 1) (move_enemy e))
                    (set_bullets (list_remove Bullet.eqb b (bullets g)) g) s) as K.
      destruct (kill_enemy _ _ s) as [g' s']. cbn [fst] in K.
      apply IH. rewrite K. gs_simpl. now apply list_remove_Forall.
    + apply IH. gs_simpl. now apply list_remove_Forall.
    + apply IH. exact H.
Qed.

Lemma obstacles_loop_bullets (Q : Bullet.t -> Prop) (rect : Z * Z * Z * Z)
  (todo : list Obstacle.t) (g : GameState) (gs : mode) :
  Forall Q (bullets g) ->
  Forall Q (bullets (fst (obstacles_loop rect todo (g, gs)))).
Proof.
  revert g gs. induction todo as [|o todo IH]; intros g gs H; [exact H|].
  cbn [obstacles_loop]. destruct rect as [[[px py] pw] ph].
  destruct (Obstacle.y _ >? SCREEN_HEIGHT); [apply IH; exact H|].
  set (g1 := match find _ (bullets g) with Some _ => _ | None => g end).
  assert (H1 : Forall Q (bullets g1)).
  { subst g1. destruct (find _ (bullets g)); [|exact H].
    gs_simpl. now apply list_remove_Forall. }
  destruct (rect_overlap px py pw ph _ _ _ _); [destruct (lives _ <=? 0)|];
    apply IH; exact H1.
Qed.

Lemma bullets_ok_steps : steps_over player_ok bullets_ok.
Proof.
  unfold steps_over.
  repeat match goal with |- _ /\ _ => split end; intros; try framed.
  - destruct (reset_game_shape g s) as (l & -> & _). constructor.
  - unfold bullets_ok, create_bullet in *. break_if; [|assumption]. gs_simpl.
    apply Forall_app. split; [assumption|]. constructor; [|constructor].
    destruct H as (Hx & Hy & _). unfold bullet_ok.
    cbn [Bullet.x Bullet.y Bullet.speed]. rewrite Hy.
    unfold SCREEN_HEIGHT. repeat split; lia.
  - unfold bullets_ok, update_bullets in *. cbn [bullets set_bullets].
    rewrite bullets_loop_filter by constructor. cbn [app].
    assert (Hb : Forall bullet_ok (bullets g)) by (repeat break_if; exact H0).
    replace (bullets (if rapid_fire_timer _ >? 0 then _ else _)) with (bullets g)
      by (repeat break_if; reflexivity).
    apply Forall_forall. intros b' Hb'. apply filter_In in Hb'.
    destruct Hb' as [Hin Hon]. apply in_map_iff in Hin.
    destruct Hin as (b & <- & Hin). rewrite Forall_forall in Hb.
    destruct (Hb b Hin) as (Hs & Hx & Hy & Hm).
    unfold on_screen, fly in *. cbn [Bullet.x Bullet.y Bullet.speed Bullet.set_y] in *.
    destruct (Bullet.y b - Bullet.speed b <? 0) eqn:E; [discriminate|].
    unfold bullet_ok. cbn [Bullet.x Bullet.y Bullet.speed Bullet.set_y].
    rewrite Hs in *. unfold BULLET_SPEED in *.
    repeat split; try lia.
    replace (Bullet.y b - 10) with (Bullet.y b + (-1) * 10) by lia.
    now rewrite Z.mod_add.
  - unfold bullets_ok, update_enemies, bind, ret in *.
    destruct (_ >=? _).
    + destruct (spawn_enemy_frame
                  (set_enemy_spawn_timer (enemy_spawn_timer g + 1) g) s) as [l Hl].
      destruct (spawn_enemy _ s) as [g' s']. cbn [fst] in Hl. subst g'.
      apply enemies_loop_bullets. exact H0.
    + apply enemies_loop_bullets. exact H0.
  - unfold bullets_ok, update_obstacles, bind, ret in *.
    destruct (_ >=? _).
    + destruct (spawn_obstacle_frame
                  (set_obstacle_spawn_timer (obstacle_spawn_timer g + 1) g) s)
        as [o Ho].
      destruct (spawn_obstacle _ s) as [g' s']. cbn [fst snd] in *. subst g'.
      apply obstacles_loop_bullets. exact H0.
    + cbn [fst snd]. apply obstacles_loop_bullets. exact H0.
Qed.

(** X15.  In a session every live bullet is on the screen, between the top
    edge and the player's row: its speed is [BULLET_SPEED], its [x] is in
    [[0, SCREEN_WIDTH - 64]], and its [y] is a multiple of 10 in
    [[0, SCREEN_HEIGHT - 120]]. *)
Theorem bullets_on_screen (w : world) :
  reachable w ->
  Forall (fun b =>
            Bullet.speed b = BULLET_SPEED
            /\ 0 <= Bullet.x b <= SCREEN_WIDTH - 64
            /\ 0 <= Bullet.y b <= SCREEN_HEIGHT - 120
            /\ Bullet.y b mod 10 = 0)
    (bullets (game w)).
Proof.
  intros H.
  exact (proj2 (reachable_steps _
                  (steps_over_and _ _ player_ok_steps bullets_ok_steps) w H)).
Qed.

Lemma bullets_on_screen_witness :
  reachable rapid_fire_session
  /\ Forall (fun b =>
               Bullet.speed b = BULLET_SPEED
               /\ 0 <= Bullet.x b <= SCREEN_WIDTH - 64
               /\ 0 <= Bullet.y b <= SCREEN_HEIGHT - 120
               /\ Bullet.y b mod 10 = 0)
       (bullets (game rapid_fire_session)).
Proof.
  split; [exact rapid_fire_session_reachable|].
  apply (bullets_on_screen rapid_fire_session rapid_fire_session_reachable).
Defined.

Lemma obstacles_loop_ok (rect : Z * Z * Z * Z) (todo : list Obstacle.t)
  (g : GameState) (gs : mode) :
  Forall obstacle_ok (obstacles g) -> Forall obstacle_ok todo ->
  Forall obstacle_ok (obstacles (fst (obstacles_loop rect todo (g, gs)))).
Proof.
  revert g gs. induction todo as [|o todo IH]; intros g gs Hd Ht; [exact Hd|].
  inversion Ht as [|? ? Ho Ht']; subst.
  cbn [obstacles_loop]. destruct rect as [[[px py] pw] ph].
  fold (fall o). set (o' := fall o).
  assert (Htwin : existsb (fun a => Obstacle.eqb a o') (obstacles g) = true ->
                  obstacle_ok o').
  { apply twin_Forall; [|exact Hd]. intros a. apply Obstacle_eqb_eq. }
  destruct (Obstacle.y o' >? SCREEN_HEIGHT) eqn:E.
  - apply IH; [|exact Ht']. gs_simpl. now apply remove_current_Forall.
  - assert (Ho' : obstacle_ok o').
    { subst o'. unfold obstacle_ok, fall, OBSTACLE_SPEED_MIN in *.
      cbn [Obstacle.x Obstacle.y Obstacle.w Obstacle.h Obstacle.speed
           Obstacle.set_y] in *. intuition lia. }
    set (g1 := match find _ (bullets g) with Some _ => _ | None => g end).
    assert (H1 : obstacles g1 = obstacles g)
      by (subst g1; now destruct (find _ (bullets g))).
    destruct (rect_overlap px py pw ph _ _ _ _); [destruct (lives _ <=? 0)|];
      (apply IH; [|exact Ht']); gs_simpl; rewrite H1;
      try (now apply remove_current_Forall).
    apply Forall_app. split; [exact Hd|]. now constructor.
Qed.

Lemma obstacles_ok_steps : steps_over cap_ok obstacles_ok.
Proof.
  unfold steps_over.
  repeat match goal with |- _ /\ _ => split end; intros; try framed.
  - destruct (reset_game_shape g s) as (l & -> & _). constructor.
  - unfold obstacles_ok, update_obstacles, bind, ret in *.
    destruct (_ >=? _).
    + destruct (spawn_obstacle_shape
                  (set_obstacle_spawn_timer (obstacle_spawn_timer g + 1) g) s)
        as (o & Ho & Hy & Hw & Hh & Hx & Hs).
      destruct (spawn_obstacle _ s) as [g' s']. cbn [fst snd] in *. subst g'.
      apply obstacles_loop_ok; [constructor|]. gs_simpl.
      apply Forall_app. split; [exact H0|]. constructor; [|constructor].
      destruct H as [Hl _]. gs_simpl_in Hs.
      pose proof (Z.div_pos (level g) 2 ltac:(lia) ltac:(lia)).
      unfold obstacle_ok, SCREEN_HEIGHT. rewrite Hy, Hw, Hh.
      repeat split; try lia; apply Hx.
    + cbn [fst snd]. apply obstacles_loop_ok; [constructor | exact H0].
Qed.

Lemma spawn_timers_ok_steps : steps_over cap_ok spawn_timers_ok.
Proof.
  unfold steps_over.
  repeat match goal with |- _ /\ _ => split end; intros; try framed.
  - destruct (reset_game_shape g s) as (l & -> & _). unfold spawn_timers_ok.
    cbn. lia.
  - destruct H as [Hl _]. unfold update_enemies, bind, ret.
    destruct (_ >=? _) eqn:E; gs_simpl_in E.
    + destruct (spawn_enemy_frame
                  (set_enemy_spawn_timer (enemy_spawn_timer g + 1) g) s) as [l Hl'].
      destruct (spawn_enemy _ s) as [g' s']. cbn [fst] in Hl'. subst g'.
      rewrite (enemies_loop_frame spawn_timers_ok) by outside.
      unfold spawn_timers_ok, ENEMY_SPAWN_RATE in *. gs_simpl. lia.
    + rewrite (enemies_loop_frame spawn_timers_ok) by outside.
      unfold spawn_timers_ok, ENEMY_SPAWN_RATE in *. gs_simpl. lia.
  - destruct H as [Hl _]. unfold update_obstacles, bind, ret.
    destruct (_ >=? _) eqn:E; gs_simpl_in E.
    + destruct (spawn_obstacle_frame
                  (set_obstacle_spawn_timer (obstacle_spawn_timer g + 1) g) s)
        as [o Ho].
      destruct (spawn_obstacle _ s) as [g' s']. cbn [fst snd] in *. subst g'.
      rewrite (obstacles_loop_frame spawn_timers_ok) by outside.
      unfold spawn_timers_ok, OBSTACLE_SPAWN_RATE in *. gs_simpl. lia.
    + cbn [fst snd]. rewrite (obstacles_loop_frame spawn_timers_ok) by outside.
      unfold spawn_timers_ok, OBSTACLE_SPAWN_RATE in *. gs_simpl. lia.
Qed.

(** X16.  In a session every obstacle in the collection is a 20 by 20 square
    with a speed of at least [OBSTACLE_SPEED_MIN], an [x] in
    [[0, SCREEN_WIDTH - 24]] and a [y] in [[-24, SCREEN_HEIGHT]]: an obstacle
    below the bottom edge is never kept. *)
Theorem obstacles_in_range (w : world) :
  reachable w ->
  Forall (fun o =>
            Obstacle.w o = 20 /\ Obstacle.h o = 20
            /\ OBSTACLE_SPEED_MIN <= Obstacle.speed o
            /\ 0 <= Obstacle.x o <= SCREEN_WIDTH - 24
            /\ -24 <= Obstacle.y o <= SCREEN_HEIGHT)
    (obstacles (game w)).
Proof.
  intros H.
  exact (proj2 (reachable_steps _
                  (steps_over_and _ _ cap_ok_steps obstacles_ok_steps) w H)).
Qed.

Lemma obstacles_in_range_witness :
  reachable absorb_session
  /\ Forall (fun o =>
               Obstacle.w o = 20 /\ Obstacle.h o = 20
               /\ OBSTACLE_SPEED_MIN <= Obstacle.speed o
               /\ 0 <= Obstacle.x o <= SCREEN_WIDTH - 24
               /\ -24 <= Obstacle.y o <= SCREEN_HEIGHT)
       (obstacles (game absorb_session)).
Proof.
  assert (H : reachable absorb_session).
  { apply reachable_run; [apply reach_start|]. vm_compute. reflexivity. }
  split; [exact H|]. apply (obstacles_in_range absorb_session H).
Defined.

(** X17.  In a session the enemy spawn timer stays in [[0, 110)] and the
    obstacle spawn timer in [[0, 85)]: the spawn rates
    [max(30, ENEMY_SPAWN_RATE - 10 * level)] and
    [max(30, OBSTACLE_SPAWN_RATE - 5 * level)] are at most 110 and 85, and a
    timer that reaches its rate is set back to 0. *)
Theorem spawn_timers_in_range (w : world) :
  reachable w ->
  0 <= enemy_spawn_timer (game w) < ENEMY_SPAWN_RATE - 10
  /\ 0 <= obstacle_spawn_timer (game w) < OBSTACLE_SPAWN_RATE - 5.
Proof.
  intros H.
  exact (proj2 (reachable_steps _
                  (steps_over_and _ _ cap_ok_steps spawn_timers_ok_steps) w H)).
Qed.

Lemma spawn_timers_in_range_witness :
  reachable (left_session 8)
  /\ 0 <= enemy_spawn_timer (game (left_session 8)) < ENEMY_SPAWN_RATE - 10
  /\ 0 <= obstacle_spawn_timer (game (left_session 8)) < OBSTACLE_SPAWN_RATE - 5.
Proof.
  assert (H : reachable (left_session 8)).
  { apply left_session_reachable. vm_compute. reflexivity. }
  split; [exact H|]. apply (spawn_timers_in_range (left_session 8) H).
Defined.

(** ** Enemies and score in a session *)

Lemma Enemy_eqb_health (a b : Enemy.t) :
  Enemy.eqb a b = true -> Enemy.health a = Enemy.health b.
Proof.
  unfold Enemy.eqb. rewrite !andb_true_iff, !Z.eqb_eq. intros H.
  decompose [and] H. assumption.
Qed.

Lemma move_enemy_fields (e : Enemy.t) :
  Enemy.health (move_enemy e) = Enemy.health e
  /\ Enemy.max_health (move_enemy e) = Enemy.max_health e
  /\ Enemy.points (move_enemy e) = Enemy.points e
  /\ Enemy.type (move_enemy e) = Enemy.type e
  /\ Enemy.y_change (move_enemy e) = Enemy.y_change e
  /\ Enemy.fall_speed (move_enemy e) = Enemy.fall_speed e.
Proof. unfold move_enemy. repeat break_if; cbn; auto 10. Qed.

Lemma move_enemy_ok (e : Enemy.t) : enemy_ok e -> enemy_ok (move_enemy e).
Proof.
  destruct (move_enemy_fields e) as (H1 & H2 & H3 & H4 & H5 & _).
  unfold enemy_ok. now rewrite H1, H2, H3, H4, H5.
Qed.

Lemma points_of_bounds (t : enemy_type) : 10 <= points_of t <= 30 /\ points_of t mod 10 = 0.
Proof. destruct t; cbn; split; (lia || reflexivity). Qed.

Lemma spawn_enemy_ok (g : GameState) (s : rng) :
  cap_ok g -> enemies_ok g ->
  cap_ok (fst (spawn_enemy g s)) /\ enemies_ok (fst (spawn_enemy g s)).
Proof.
  intros Hc (Hlen & Hall & Hs).
  destruct (Z.of_nat (length (enemies g)) >=? max_enemies_on_screen g) eqn:E.
  - rewrite spawn_enemy_full by exact E. cbn [fst]. unfold enemies_ok. tauto.
  - destruct (spawn_enemy_shape g s E) as (e & -> & (H1 & H2 & H3 & H4) & _).
    split; [exact Hc|]. unfold enemies_ok. gs_simpl.
    rewrite length_app. cbn [length]. split; [lia|]. split; [|exact Hs].
    apply Forall_app. split; [exact Hall|]. constructor; [|constructor].
    destruct Hc as [Hl _].
    pose proof (Z.div_pos (level g) 3 ltac:(lia) ltac:(lia)).
    unfold enemy_ok. rewrite H2, H1.
    repeat split; try assumption; destruct (Enemy.type e); cbn [base_health]; lia.
Qed.

Lemma repeat_call_spawn_ok (n : nat) (g : GameState) (s : rng) :
  cap_ok g -> enemies_ok g ->
  cap_ok (fst (repeat_call n spawn_enemy g s))
  /\ enemies_ok (fst (repeat_call n spawn_enemy g s)).
Proof.
  revert g s. induction n as [|n IH]; intros g s Hc He; [now split|].
  cbn [repeat_call]. unfold bind.
  destruct (spawn_enemy_ok g s Hc He) as [Hc1 He1].
  destruct (spawn_enemy g s) as [g1 s1]. now apply IH.
Qed.

Lemma level_up_fields (g : GameState) :
  enemies (level_up g) = enemies g /\ score_value (level_up g) = score_value g.
Proof. unfold level_up. break_if; now split. Qed.

(** A kill in the middle of the loop: the enemy [e] has no health left, so
    it has no twin among the enemies visited before. *)
Lemma kill_enemy_ok (e : Enemy.t) (todo : list Enemy.t) (g : GameState) (s : rng) :
  cap_ok g ->
  Z.of_nat (length (enemies g) + S (length todo)) <= max_enemies_on_screen g ->
  Forall enemy_ok (enemies g) -> Forall enemy_ok todo ->
  0 <= score_value g -> score_value g mod 10 = 0 ->
  Enemy.health e <= 0 -> Enemy.points e = points_of (Enemy.type e) ->
  cap_ok (fst (kill_enemy e g s))
  /\ enemies_mid todo (fst (kill_enemy e g s))
  /\ score_value g <= score_value (fst (kill_enemy e g s)).
Proof.
  intros Hc Hlen Hd Ht Hs Hm Hh Hp. unfold kill_enemy, bind, ret.
  destruct (random s) as [r s']. cbn [fst].
  set (gk := if (r <? 0.15)%float then _ else _).
  assert (Hk : cap_ok gk
               /\ max_enemies_on_screen gk = max_enemies_on_screen g
               /\ enemies gk = remove_current Enemy.eqb (enemies g) e
               /\ score_value gk = score_value g + Enemy.points e).
  { subst gk. break_if; (split; [exact Hc|]); repeat split; reflexivity. }
  destruct Hk as (Hck & Hcap & Hen & Hsc).
  destruct (level_up_climbs gk) as [C1 C2]. destruct (C2 Hck) as [_ Hle].
  destruct (level_up_fields gk) as [Le Ls].
  destruct (points_of_bounds (Enemy.type e)) as [Hb Hb10].
  split; [now apply C1|]. unfold enemies_mid. rewrite Le, Ls, Hen, Hsc, Hp.
  rewrite remove_current_length.
  split; [|lia].
  split; [lia|]. split; [|split; [exact Ht|]].
  - apply remove_current_Forall; [exact Hd|]. intros Hex.
    apply existsb_exists in Hex. destruct Hex as (a & Ha & E).
    apply Enemy_eqb_health in E. rewrite Forall_forall in Hd.
    destruct (Hd a Ha) as [[H1 _] _]. lia.
  - split; [lia|]. rewrite <- Zplus_mod_idemp_r, Hb10, Z.add_0_r. exact Hm.
Qed.

Lemma enemies_loop_ok (todo : list Enemy.t) (g : GameState) (gs : mode) (s : rng) :
  cap_ok g -> enemies_mid todo g ->
  cap_ok (fst (fst (enemies_loop todo (g, gs) s)))
  /\ enemies_ok (fst (fst (enemies_loop todo (g, gs) s)))
  /\ score_value g <= score_value (fst (fst (enemies_loop todo (g, gs) s))).
Proof.
  revert g gs s. induction todo as [|e todo IH]; intros g gs s Hc Hmid.
  - cbn [enemies_loop ret fst]. destruct Hmid as (Hlen & Hd & _ & Hs).
    split; [exact Hc|]. split; [|lia]. unfold enemies_ok.
    rewrite Nat.add_0_r in Hlen. now repeat split.
  - destruct Hmid as (Hlen & Hd & Ht & Hs & Hm).
    inversion Ht as [|? ? He Ht']; subst. cbn [length] in Hlen.
    cbn [enemies_loop].
    destruct (fgtb (Enemy.y e) _).
    + assert (Hmid' : forall g',
                enemies g' = remove_current Enemy.eqb (enemies g) e ->
                max_enemies_on_screen g' = max_enemies_on_screen g ->
                score_value g' = score_value g -> enemies_mid todo g').
      { intros g' E1 E2 E3. unfold enemies_mid.
        rewrite E1, E2, E3, remove_current_length.
        split; [lia|]. split; [|now repeat split].
        apply remove_current_Forall; auto. }
      destruct (lives _ <=? 0);
        match goal with
        | |- context [enemies_loop todo (?g', ?m) s] =>
            destruct (IH g' m s Hc (Hmid' g' eq_refl eq_refl eq_refl))
              as (K1 & K2 & K3)
        end; exact (conj K1 (conj K2 K3)).
    + destruct (move_enemy_fields e) as (F1 & F2 & F3 & F4 & F5 & _).
      pose proof (move_enemy_ok e He) as Hmo.
      assert (Hmid' : forall g' e',
                enemy_ok e' ->
                enemies g' = enemies g ++ [e'] ->
                max_enemies_on_screen g' = max_enemies_on_screen g ->
                score_value g' = score_value g -> enemies_mid todo g').
      { intros g' e' Hok E1 E2 E3. unfold enemies_mid.
        rewrite E1, E2, E3, length_app. cbn [length].
        split; [lia|]. split; [|now repeat split].
        apply Forall_app. split; [exact Hd|]. now constructor. }
      destruct (find _ _) as [b|]; [destruct (_ <=? 0) eqn:Eh|].
      * unfold bind.
        pose proof (kill_enemy_ok
                      (Enemy.set_health (Enemy.health (move_enemy e) - 1) (move_enemy e))
                      todo (set_bullets (list_remove Bullet.eqb b (bullets g)) g) s
                      Hc Hlen Hd Ht' Hs Hm) as K.
        cbn [Enemy.health Enemy.set_health Enemy.points Enemy.type] in *.
        rewrite F3, F4 in K. destruct He as (_ & Hp & _).
        destruct (K ltac:(lia) Hp) as (K1 & K2 & K3).
        destruct (kill_enemy _ _ s) as [g' s']. cbn [fst] in *.
        destruct (IH g' gs s' K1 K2) as (J1 & J2 & J3).
        gs_simpl_in K3. split; [exact J1|]. split; [exact J2 | lia].
      * assert (Hok : enemy_ok (Enemy.set_health (Enemy.health (move_enemy e) - 1)
                                  (move_enemy e))).
        { cbn [Enemy.health Enemy.set_health] in Eh.
          unfold enemy_ok in *.
          cbn [Enemy.health Enemy.set_health Enemy.points Enemy.type
               Enemy.max_health Enemy.y_change].
          rewrite F1, F2, F3, F4, F5 in *. intuition lia. }
        match goal with
        | |- context [enemies_loop todo (?g', ?m) s] =>
            destruct (IH g' m s Hc (Hmid' g' _ Hok eq_refl eq_refl eq_refl))
              as (K1 & K2 & K3)
        end. exact (conj K1 (conj K2 K3)).
      * match goal with
        | |- context [enemies_loop todo (?g', ?m) s] =>
            destruct (IH g' m s Hc (Hmid' g' _ Hmo eq_refl eq_refl eq_refl))
              as (K1 & K2 & K3)
        end. exact (conj K1 (conj K2 K3)).
Qed.

Lemma update_enemies_ok (g : GameState) (gs : mode) (s : rng) :
  cap_ok g -> enemies_ok g ->
  enemies_ok (fst (fst (update_enemies (g, gs) s)))
  /\ score_value g <= score_value (fst (fst (update_enemies (g, gs) s))).
Proof.
  intros Hc He. unfold update_enemies, bind, ret.
  assert (Hstart : forall g1, cap_ok g1 -> enemies_ok g1 ->
            score_value g1 = score_value g ->
            enemies_mid (enemies g1) (set_enemies [] g1)).
  { intros g1 _ (H1 & H2 & H3) _. unfold enemies_mid. gs_simpl.
    split; [exact H1|]. split; [constructor|]. now split. }
  destruct (_ >=? _).
  - destruct (spawn_enemy_ok (set_enemy_spawn_timer (enemy_spawn_timer g + 1) g) s
                Hc He) as [Hc1 He1].
    destruct (spawn_enemy_frame
                (set_enemy_spawn_timer (enemy_spawn_timer g + 1) g) s) as [l Hl].
    destruct (spawn_enemy _ s) as [g1 s1]. cbn [fst] in *.
    assert (Hs1 : score_value g1 = score_value g) by (subst g1; reflexivity).
    destruct (enemies_loop_ok (enemies g1)
                (set_enemies [] (set_enemy_spawn_timer 0 g1)) gs s1 Hc1
                (Hstart (set_enemy_spawn_timer 0 g1) Hc1 He1 Hs1)) as (_ & K2 & K3).
    split; [exact K2|]. rewrite <- Hs1. exact K3.
  - destruct (enemies_loop_ok (enemies g)
                (set_enemies [] (set_enemy_spawn_timer (enemy_spawn_timer g + 1) g))
                gs s Hc
                (Hstart (set_enemy_spawn_timer (enemy_spawn_timer g + 1) g) Hc He
                   eq_refl)) as (_ & K2 & K3).
    split; assumption.
Qed.

Lemma enemies_ok_steps : steps_over cap_ok enemies_ok.
Proof.
  unfold steps_over.
  repeat match goal with |- _ /\ _ => split end; intros; try framed.
  - rewrite reset_game_base. unfold spawn_initial_enemies.
    apply repeat_call_spawn_ok.
    + unfold cap_ok, MAX_ENEMIES. cbn. lia.
    + unfold enemies_ok. cbn. repeat split; try lia. constructor.
  - now apply update_enemies_ok.
Qed.

(** X18.  In a session there are never more enemies on screen than the cap
    allows, and the cap is at most [MAX_ENEMIES]; every enemy in the
    collection has at least 1 and at most its maximal health, and is worth
    the points of its type; the score is a multiple of 10 and not
    negative. *)
Theorem enemies_within_cap (w : world) :
  reachable w ->
  Z.of_nat (length (enemies (game w))) <= max_enemies_on_screen (game w)
  /\ max_enemies_on_screen (game w) <= MAX_ENEMIES
  /\ Forall (fun e =>
               1 <= Enemy.health e <= Enemy.max_health e
               /\ Enemy.points e = points_of (Enemy.type e))
       (enemies (game w))
  /\ 0 <= score_value (game w) /\ score_value (game w) mod 10 = 0.
Proof.
  intros H.
  destruct (reachable_steps _ (steps_over_and _ _ cap_ok_steps enemies_ok_steps) w H)
    as ((_ & Hcap) & Hlen & Hall & Hs).
  split; [exact Hlen|]. split; [unfold MAX_ENEMIES in *; lia|].
  split; [|exact Hs].
  eapply Forall_impl; [|exact Hall]. intros e (H1 & H2 & _). now split.
Qed.

Lemma enemies_within_cap_witness :
  reachable rapid_fire_session
  /\ Z.of_nat (length (enemies (game rapid_fire_session)))
     <= max_enemies_on_screen (game rapid_fire_session)
  /\ max_enemies_on_screen (game rapid_fire_session) <= MAX_ENEMIES
  /\ Forall (fun e =>
               1 <= Enemy.health e <= Enemy.max_health e
               /\ Enemy.points e = points_of (Enemy.type e))
       (enemies (game rapid_fire_session))
  /\ 0 <= score_value (game rapid_fire_session)
  /\ score_value (game rapid_fire_session) mod 10 = 0.
Proof.
  split; [exact rapid_fire_session_reachable|].
  apply (enemies_within_cap rapid_fire_session rapid_fire_session_reachable).
Defined.

(** ** A playing frame from its head to its end *)

Lemma handle_game_input_frame {A : Type} (f : GameState -> A) :
  (forall v g, f (set_bullets v g) = f g) ->
  (forall v g, f (set_shoot_cooldown v g) = f g) ->
  (forall v g, f (set_playerX_change v g) = f g) ->
  forall evs held g m, f (fst (fst (handle_game_input evs held (g, m)))) = f g.
Proof.
  intros Hb Hc Hv evs held g m. unfold handle_game_input.
  pose proof (game_events_frame f Hb Hc evs g m) as H.
  destruct (game_events evs (g, m)) as [[g1 m1] c]. cbn [fst snd] in *.
  destruct c; cbn [fst]; [|exact H]. repeat break_if; now rewrite Hv.
Qed.

(** In a session, a playing frame runs the five updates on the state that
    its events leave. *)
Lemma playing_frame (w : world) (inp : frame) :
  reachable w -> game_state w = PLAYING ->
  game (fst (main_iteration inp w))
  = fst (fst (update_all
                (fst (handle_game_input (events inp) (keys inp) (game w, PLAYING)))
                (random_state w))).
Proof.
  intros Hr Hm. pose proof (reachable_inv w Hr) as ((Hf0 & Hf1) & _).
  destruct w as [g gs s]. cbn [game game_state random_state fst snd] in *. subst gs.
  assert (Hl : 0 < lives g).
  { destruct (Z_lt_le_dec 0 (lives g)) as [|Hle]; [assumption|].
    destruct (Hf0 Hle) as [_ Habs]. discriminate. }
  destruct (Hf1 Hl) as [Hgo _].
  unfold main_iteration. cbn [game game_state random_state].
  pose proof (handle_game_input_frame game_over ltac:(reflexivity) ltac:(reflexivity)
                ltac:(reflexivity) (events inp) (keys inp) g PLAYING) as Hg1.
  destruct (handle_game_input _ _ _) as [[g1 gs1] r]. cbn [fst snd] in *.
  rewrite Hg1, Hgo. cbn [negb].
  destruct (update_all (g1, gs1) s) as [[g2 gs2] s2]. reflexivity.
Qed.

Lemma update_all_score (g : GameState) (m : mode) (s : rng) :
  cap_ok g -> enemies_ok g ->
  score_value g <= score_value (fst (fst (update_all (g, m) s))).
Proof.
  intros Hc He. unfold update_all, bind.
  set (g3 := update_power_ups (update_bullets (update_player g))).
  assert (H3 : cap_ok g3 /\ enemies_ok g3 /\ score_value g3 = score_value g).
  { subst g3. split; [|split].
    - repeat framed.
    - repeat framed.
    - rewrite (update_power_ups_frame score_value), (update_bullets_frame score_value),
        (update_player_frame score_value); reflexivity. }
  destruct H3 as (Hc3 & He3 & Hs3).
  destruct (update_enemies_ok g3 m s Hc3 He3) as [_ K].
  destruct (update_enemies (g3, m) s) as [[g4 m4] s4]. cbn [fst] in K.
  rewrite (update_obstacles_frame score_value) by outside. lia.
Qed.

(** X19.  In a playing frame of a session the score, the level and the cap
    on the enemies never go down, and the lives never go up. *)
Theorem playing_frame_monotone (w : world) (inp : frame) :
  reachable w -> game_state w = PLAYING ->
  score_value (game w) <= score_value (game (fst (main_iteration inp w)))
  /\ level (game w) <= level (game (fst (main_iteration inp w)))
  /\ max_enemies_on_screen (game w)
     <= max_enemies_on_screen (game (fst (main_iteration inp w)))
  /\ lives (game (fst (main_iteration inp w))) <= lives (game w).
Proof.
  intros Hr Hm. rewrite (playing_frame w inp Hr Hm).
  pose proof (reachable_steps _ (steps_over_and _ _ cap_ok_steps enemies_ok_steps)
                w Hr) as HQ.
  pose proof (handle_game_input_steps _
                (steps_over_and _ _ cap_ok_steps enemies_ok_steps)
                (events inp) (keys inp) (game w) PLAYING HQ) as [Hc He].
  pose proof (handle_game_input_frame
                (fun g => (score_value g, level g, max_enemies_on_screen g, lives g))
                ltac:(reflexivity) ltac:(reflexivity) ltac:(reflexivity)
                (events inp) (keys inp) (game w) PLAYING) as Hf.
  destruct (handle_game_input _ _ _) as [[g1 m1] r]. cbn [fst snd] in *.
  injection Hf as <- <- <- <-.
  pose proof (update_all_score g1 m1 (random_state w) Hc He) as Hs.
  destruct (update_all_climbs g1 m1 (random_state w)) as [_ Hcl].
  destruct (Hcl Hc) as [Hlv Hcap].
  destruct (update_all_spec g1 m1 (random_state w)) as (_ & Hl & _).
  repeat split; assumption.
Qed.

Lemma playing_frame_monotone_witness :
  reachable (left_session 8) /\ game_state (left_session 8) = PLAYING
  /\ score_value (game (left_session 8))
     <= score_value (game (fst (main_iteration idle (left_session 8))))
  /\ level (game (left_session 8))
     <= level (game (fst (main_iteration idle (left_session 8))))
  /\ max_enemies_on_screen (game (left_session 8))
     <= max_enemies_on_screen (game (fst (main_iteration idle (left_session 8))))
  /\ lives (game (fst (main_iteration idle (left_session 8))))
     <= lives (game (left_session 8)).
Proof.
  assert (H : reachable (left_session 8)).
  { apply left_session_reachable. vm_compute. reflexivity. }
  assert (Hm : game_state (left_session 8) = PLAYING) by (vm_compute; reflexivity).
  split; [exact H|]. split; [exact Hm|].
  apply (playing_frame_monotone (left_session 8) idle H Hm).
Defined.

Lemma update_player_x (g : GameState) :
  playerX (update_player g)
  = Z.max 0 (Z.min (SCREEN_WIDTH - 64) (playerX g + playerX_change g)).
Proof.
  unfold update_player, SCREEN_WIDTH. gs_simpl.
  destruct (playerX g + playerX_change g <=? 0) eqn:E1; gs_simpl;
    [|destruct (playerX g + playerX_change g >=? 800 - 64) eqn:E2; gs_simpl]; lia.
Qed.

Lemma update_all_player (g : GameState) (m : mode) (s : rng) :
  playerX (fst (fst (update_all (g, m) s)))
  = Z.max 0 (Z.min (SCREEN_WIDTH - 64) (playerX g + playerX_change g)).
Proof.
  unfold update_all, bind.
  set (g3 := update_power_ups (update_bullets (update_player g))).
  assert (H3 : playerX g3 = playerX (update_player g)).
  { subst g3. rewrite (update_power_ups_frame playerX), (update_bullets_frame playerX);
      reflexivity. }
  pose proof (update_enemies_frame playerX ltac:(outside) g3 m s) as H4.
  destruct (update_enemies (g3, m) s) as [[g4 m4] s4]. cbn [fst] in H4.
  rewrite (update_obstacles_frame playerX) by outside.
  rewrite H4, H3. apply update_player_x.
Qed.

(** X20.  In a playing frame of a session the player moves by the velocity
    that the held keys select (left and A win over right and D; a frame that
    ends on [QUIT] keeps the velocity of the frame before), and the result is
    clamped to [[0, SCREEN_WIDTH - 64]]. *)
Theorem player_follows_keys (w : world) (inp : frame) :
  reachable w -> game_state w = PLAYING ->
  playerX (game (fst (main_iteration inp w)))
  = Z.max 0
      (Z.min (SCREEN_WIDTH - 64)
         (playerX (game w)
          + (if existsb quits_game (events inp) then playerX_change (game w)
             else key_velocity (keys inp)))).
Proof.
  intros Hr Hm. rewrite (playing_frame w inp Hr Hm).
  assert (H : playerX (fst (fst (handle_game_input (events inp) (keys inp)
                                   (game w, PLAYING)))) = playerX (game w)
              /\ playerX_change (fst (fst (handle_game_input (events inp) (keys inp)
                                             (game w, PLAYING))))
                 = (if existsb quits_game (events inp) then playerX_change (game w)
                    else key_velocity (keys inp))).
  { split; [now apply handle_game_input_frame|].
    unfold handle_game_input.
    destruct (game_events_running (events inp) (game w, PLAYING)) as (Hc & _ & _).
    pose proof (game_events_frame playerX_change ltac:(reflexivity)
                  ltac:(reflexivity) (events inp) (game w) PLAYING) as Hv.
    destruct (game_events _ _) as [[g1 m1] c]. cbn [fst snd] in *. subst c.
    destruct (existsb quits_game (events inp)); cbn [negb fst]; [exact Hv|].
    unfold key_velocity. repeat break_if; reflexivity. }
  destruct (handle_game_input _ _ _) as [[g1 m1] r]. cbn [fst snd] in *.
  destruct H as [Hx Hv]. rewrite update_all_player, Hx, Hv. reflexivity.
Qed.

Lemma player_follows_keys_witness :
  reachable (left_session 2) /\ game_state (left_session 2) = PLAYING
  /\ playerX (game (fst (main_iteration hold_right (left_session 2))))
     = Z.max 0
         (Z.min (SCREEN_WIDTH - 64)
            (playerX (game (left_session 2))
             + (if existsb quits_game (events hold_right)
                then playerX_change (game (left_session 2))
                else key_velocity (keys hold_right)))).
Proof.
  assert (H : reachable (left_session 2)).
  { apply left_session_reachable. vm_compute. reflexivity. }
  assert (Hm : game_state (left_session 2) = PLAYING) by (vm_compute; reflexivity).
  split; [exact H|]. split; [exact Hm|].
  apply (player_follows_keys (left_session 2) hold_right H Hm).
Defined.

(** ** Lives *)

Lemma enemies_loop_lives (todo : list Enemy.t) (g : GameState) (gs : mode) (s : rng) :
  lives (fst (fst (enemies_loop todo (g, gs) s)))
  = lives g - Z.of_nat (length (filter breached todo)).
Proof.
  revert g gs s. induction todo as [|e todo IH]; intros g gs s.
  - cbn. lia.
  - cbn [enemies_loop filter]. unfold breached at 1.
    destruct (fgtb (Enemy.y e) _).
    + destruct (lives _ <=? 0); rewrite IH; gs_simpl; cbn [length]; lia.
    + destruct (find _ _) as [b|]; [destruct (_ <=? 0)|].
      * unfold bind.
        pose proof (kill_enemy_frame lives ltac:(unfold outside_kill; now repeat split)
                      (Enemy.set_health (Enemy.health (move_enemy e) - 1)
                         (move_enemy e))
                      (set_bullets (list_remove Bullet.eqb b (bullets g)) g) s) as K.
        destruct (kill_enemy _ _ s) as [g' s']. cbn [fst] in K.
        rewrite IH, K. reflexivity.
      * rewrite IH. reflexivity.
      * rewrite IH. reflexivity.
Qed.

(** An enemy does not enter beyond the line above the player. *)
Lemma entry_not_breached (y : Z) :
  -140 <= y <= 200 ->
  fgtb (float_of_int y) (float_of_int (SCREEN_HEIGHT - 160)) = false.
Proof.
  intros Hy.
  assert (H : forallb (fun n =>
                         negb (fgtb (float_of_int (Z.of_nat n - 140))
                                 (float_of_int (SCREEN_HEIGHT - 160))))
                (seq 0 341) = true) by (vm_compute; reflexivity).
  rewrite forallb_forall in H. specialize (H (Z.to_nat (y + 140))).
  replace (Z.of_nat (Z.to_nat (y + 140)) - 140) with y in H by lia.
  apply negb_true_iff. apply H. apply in_seq. lia.
Qed.

Lemma spawn_enemy_breached (g : GameState) (s : rng) :
  filter breached (enemies (fst (spawn_enemy g s))) = filter breached (enemies g).
Proof.
  destruct (Z.of_nat (length (enemies g)) >=? max_enemies_on_screen g) eqn:E.
  - now rewrite spawn_enemy_full.
  - destruct (spawn_enemy_shape g s E) as (e & -> & _ & Hg). gs_simpl.
    rewrite filter_app. cbn [filter].
    assert (Hb : breached e = false).
    { unfold breached.
      destruct Hg as [(x & y & _ & Hy & _ & -> & _)
                     |[(y & Hy & _ & -> & _)|(y & Hy & _ & -> & _)]];
        apply entry_not_breached; lia. }
    rewrite Hb. apply app_nil_r.
Qed.

(** X21.  [update_enemies] takes exactly one life for every enemy that is
    beyond the line [SCREEN_HEIGHT - 160] at the start of the update, and
    none for any other reason: an enemy that is spawned in this update and
    a kill cost nothing. *)
Theorem update_enemies_lives (g : GameState) (gs : mode) (s : rng) :
  lives (fst (fst (update_enemies (g, gs) s)))
  = lives g - Z.of_nat (length (filter breached (enemies g))).
Proof.
  unfold update_enemies, bind, ret.
  destruct (_ >=? _).
  - pose proof (spawn_enemy_breached
                  (set_enemy_spawn_timer (enemy_spawn_timer g + 1) g) s) as Hb.
    destruct (spawn_enemy_frame
                (set_enemy_spawn_timer (enemy_spawn_timer g + 1) g) s) as [l Hl].
    destruct (spawn_enemy _ s) as [g1 s1]. cbn [fst] in *. subst g1.
    rewrite enemies_loop_lives. gs_simpl. gs_simpl_in Hb. now rewrite Hb.
  - rewrite enemies_loop_lives. reflexivity.
Qed.

Lemma obstacles_loop_lives (rect : Z * Z * Z * Z) (todo : list Obstacle.t)
  (g : GameState) (gs : mode) :
  lives (fst (obstacles_loop rect todo (g, gs)))
  = lives g - Z.of_nat (length (filter (hits_player rect) todo)).
Proof.
  revert g gs. induction todo as [|o todo IH]; intros g gs.
  - cbn. lia.
  - cbn [obstacles_loop filter]. destruct rect as [[[px py] pw] ph].
    fold (fall o).
    assert (Hh : hits_player (px, py, pw, ph) o
                 = negb (Obstacle.y (fall o) >? SCREEN_HEIGHT)
                   && rect_overlap px py pw ph (Obstacle.x (fall o))
                        (Obstacle.y (fall o)) (Obstacle.w (fall o))
                        (Obstacle.h (fall o))) by reflexivity.
    rewrite Hh. clear Hh.
    destruct (Obstacle.y (fall o) >? SCREEN_HEIGHT); cbn [negb andb];
      [rewrite IH; reflexivity|].
    set (g1 := match find _ (bullets g) with Some _ => _ | None => g end).
    assert (H1 : lives g1 = lives g) by (subst g1; now destruct (find _ (bullets g))).
    destruct (rect_overlap px py pw ph _ _ _ _); [destruct (lives _ <=? 0)|];
      rewrite IH; gs_simpl; cbn [length]; lia.
Qed.

(** X22.  In a frame in which no obstacle is spawned, [update_obstacles]
    takes exactly one life for every obstacle that overlaps the player after
    its fall, and none for any other reason. *)
Theorem update_obstacles_lives (g : GameState) (gs : mode) (s : rng) :
  obstacle_spawn_timer g + 1 < Z.max 30 (OBSTACLE_SPAWN_RATE - level g * 5) ->
  lives (fst (fst (update_obstacles (g, gs) s)))
  = lives g
    - Z.of_nat (length (filter (hits_player (playerX g, playerY g, 64, 64))
                          (obstacles g))).
Proof.
  intros Ht. unfold update_obstacles, bind, ret. gs_simpl.
  destruct (_ >=? _) eqn:E; [lia|].
  cbn [fst snd]. rewrite obstacles_loop_lives. reflexivity.
Qed.

Lemma update_obstacles_lives_witness :
  obstacle_spawn_timer (game absorb_session) + 1
  < Z.max 30 (OBSTACLE_SPAWN_RATE - level (game absorb_session) * 5)
  /\ lives (fst (fst (update_obstacles (game absorb_session, PLAYING) zero_rng)))
     = lives (game absorb_session)
       - Z.of_nat
           (length
              (filter (hits_player (playerX (game absorb_session),
                                    playerY (game absorb_session), 64, 64))
                 (obstacles (game absorb_session)))).
Proof.
  assert (H : obstacle_spawn_timer (game absorb_session) + 1
              < Z.max 30 (OBSTACLE_SPAWN_RATE - level (game absorb_session) * 5))
    by (vm_compute; reflexivity).
  split; [exact H|].
  apply (update_obstacles_lives (game absorb_session) PLAYING zero_rng H).
Defined.

(** ** The horizontal speed of an enemy *)

Lemma abs_abs (x : float) : abs (abs x) = abs x.
Proof.
  apply Prim2SF_inj. rewrite !abs_spec. now destruct (Prim2SF x).
Qed.

Lemma abs_opp (x : float) : abs (- x) = abs x.
Proof.
  apply Prim2SF_inj. rewrite !abs_spec, opp_spec. now destruct (Prim2SF x).
Qed.

Lemma move_enemy_abs (e : Enemy.t) :
  abs (Enemy.x_change (move_enemy e)) = abs (Enemy.x_change e).
Proof.
  unfold move_enemy.
  repeat break_if; cbn [Enemy.x_change Enemy.set_x Enemy.set_y Enemy.set_x_change];
    rewrite ?abs_opp, ?abs_abs; reflexivity.
Qed.

(** X23.  An enemy never changes the magnitude of its horizontal velocity,
    however often it moves and bounces: [abs x_change] is the same after any
    number of moves. *)
Theorem enemy_speed_kept (n : nat) (e : Enemy.t) :
  abs (Enemy.x_change (move_enemy_n n e)) = abs (Enemy.x_change e).
Proof.
  induction n as [|n IH]; [reflexivity|].
  cbn [move_enemy_n]. now rewrite move_enemy_abs.
Qed.

(** ** Reset *)

Lemma repeat_call_fresh (n : nat) (l : list Enemy.t) (s : rng) :
  (length l + n <= 6)%nat ->
  exists l',
    fst (repeat_call n spawn_enemy (set_enemies l reset_base) s)
    = set_enemies (l ++ l') reset_base
    /\ length l' = n /\ Forall fresh_enemy l'.
Proof.
  revert l s. induction n as [|n IH]; intros l s Hn.
  - exists []. rewrite app_nil_r. now repeat split.
  - cbn [repeat_call]. unfold bind.
    assert (E : (Z.of_nat (length (enemies (set_enemies l reset_base)))
                 >=? max_enemies_on_screen (set_enemies l reset_base)) = false)
      by (cbn; lia).
    destruct (spawn_enemy_shape _ s E) as (e & He & (H1 & H2 & H3 & _) & _).
    destruct (spawn_enemy_appends _ s E) as (e' & He' & Ht & _).
    assert (Hee : e' = e).
    { rewrite He in He'. apply (f_equal enemies) in He'. gs_simpl_in He'.
      apply app_inj_tail in He'. symmetry. apply He'. }
    subst e'.
    destruct (spawn_enemy _ s) as [g1 s1]. cbn [fst] in He. subst g1.
    destruct (IH (l ++ [e]) s1) as (l' & Hl' & Hlen & Hall).
    { rewrite length_app. cbn [length]. lia. }
    exists (e :: l'). rewrite <- app_assoc in Hl'. split; [exact Hl'|].
    split; [cbn [length]; now rewrite Hlen|].
    constructor; [|exact Hall].
    assert (Hty : Enemy.type e = ENEMY_BASIC) by (rewrite Ht; reflexivity).
    unfold fresh_enemy. rewrite H3, H2, H1, Hty. now repeat split.
Qed.

(** X24.  [reset_game] forgets the state it is called on: the result and the
    draws left depend on the generator only.  Every attribute is set to its
    start value ([reset_base]), and the four enemies it spawns are Basic
    enemies with health 1 of 1, worth 10 points. *)
Theorem reset_game_fresh (g g' : GameState) (s : rng) :
  reset_game g s = reset_game g' s
  /\ exists l,
       fst (reset_game g s) = set_enemies l reset_base
       /\ length l = 4%nat
       /\ Forall (fun e =>
                    Enemy.type e = ENEMY_BASIC /\ Enemy.health e = 1
                    /\ Enemy.max_health e = 1 /\ Enemy.points e = 10) l.
Proof.
  split; [now rewrite !reset_game_base|].
  rewrite reset_game_base. unfold spawn_initial_enemies.
  destruct (repeat_call_fresh 4 [] s ltac:(cbn; lia)) as (l & Hl & Hlen & Hall).
  exists l. split; [exact Hl|]. split; [exact Hlen | exact Hall].
Qed.

(** ** Lives, level and difficulty in a session *)

(** The loop of [update_enemies] keeps what its plain assignments cannot
    change and the level-up keeps. *)
Lemma enemies_loop_keeps (P : GameState -> Prop) :
  (forall v g, P (set_lives v g) = P g) ->
  (forall v g, P (set_game_over v g) = P g) ->
  (forall v g, P (set_bullets v g) = P g) ->
  (forall v g, P (set_enemies v g) = P g) ->
  (forall v g, P (set_score_value v g) = P g) ->
  (forall v g, P (set_power_ups v g) = P g) ->
  (forall g, P g -> P (level_up g)) ->
  forall todo g gs s, P g -> P (fst (fst (enemies_loop todo (g, gs) s))).
Proof.
  intros Hl Hg Hb He Hs Hp Hup.
  induction todo as [|e todo IH]; intros g gs s H; [exact H|].
  cbn [enemies_loop].
  destruct (fgtb (Enemy.y e) _).
  - destruct (lives _ <=? 0); apply IH; now rewrite ?Hg, He, Hl.
  - destruct (find _ _) as [b|]; [destruct (_ <=? 0)|].
    + unfold bind, kill_enemy, ret. destruct (random s) as [r s'].
      apply IH. apply Hup. break_if; now rewrite ?Hp, He, Hs, Hb.
    + apply IH. now rewrite He, Hb.
    + apply IH. now rewrite He.
Qed.

Lemma multiplier_at_succ (lvl : Z) :
  1 <= lvl -> multiplier_at (lvl + 1) = (multiplier_at lvl + 0.2)%float.
Proof.
  intros H. unfold multiplier_at.
  replace (Z.to_nat (lvl + 1 - 1)) with (S (Z.to_nat (lvl - 1))) by lia.
  reflexivity.
Qed.

Lemma level_up_scaling (g : GameState) : scaling_ok g -> scaling_ok (level_up g).
Proof.
  intros [Hl Hd]. unfold level_up. break_if; [|now split].
  unfold scaling_ok. gs_simpl. split; [lia|].
  rewrite multiplier_at_succ by exact Hl. now rewrite Hd.
Qed.

Lemma scaling_ok_steps : steps_over (fun _ => True) scaling_ok.
Proof.
  unfold steps_over.
  repeat match goal with |- _ /\ _ => split end; intros; try framed.
  - destruct (reset_game_shape g s) as (l & -> & _). unfold scaling_ok. cbn.
    split; [lia | reflexivity].
  - unfold update_enemies, bind, ret.
    destruct (_ >=? _).
    + destruct (spawn_enemy_frame
                  (set_enemy_spawn_timer (enemy_spawn_timer g + 1) g) s) as [l Hl].
      destruct (spawn_enemy _ s) as [g' s']. cbn [fst] in Hl. subst g'.
      apply enemies_loop_keeps; try (intros; reflexivity);
        [apply level_up_scaling | exact H0].
    + apply enemies_loop_keeps; try (intros; reflexivity);
        [apply level_up_scaling | exact H0].
Qed.

Lemma lives_ok_steps : steps_over (fun _ => True) lives_ok.
Proof.
  unfold steps_over.
  repeat match goal with |- _ /\ _ => split end; intros; try framed.
  - destruct (reset_game_shape g s) as (l & -> & _). unfold lives_ok. cbn. lia.
  - destruct (update_enemies_advances (g, m) s) as (_ & L & _).
    unfold lives_ok in *. cbn [fst] in L. lia.
  - destruct (update_obstacles_advances (g, m) s) as (_ & L & _).
    unfold lives_ok in *. cbn [fst] in L. lia.
Qed.

(** X25.  In a session the lives never exceed 3, the level is at least 1, and
    the cap on the enemies and the difficulty multiplier are functions of the
    level: the cap is 6 at levels 1 and 2, 7 at level 3 and 8 from level 4,
    and the multiplier is 1.0 with 0.2 added once per level above 1
    (in binary64 arithmetic). *)
Theorem progression_in_session (w : world) :
  reachable w ->
  lives (game w) <= 3
  /\ 1 <= level (game w)
  /\ max_enemies_on_screen (game w)
     = Z.max 6 (Z.min MAX_ENEMIES (4 + level (game w)))
  /\ difficulty_multiplier (game w)
     = Nat.iter (Z.to_nat (level (game w) - 1)) (fun d => (d + 0.2)%float) 1.0%float.
Proof.
  intros H.
  destruct (reachable_steps _ scaling_ok_steps w H) as [Hl Hd].
  pose proof (reachable_steps _ lives_ok_steps w H) as Hv.
  destruct (reachable_cap_ok w H) as [_ Hc].
  repeat split; assumption.
Qed.

Lemma progression_in_session_witness :
  reachable rapid_fire_session
  /\ lives (game rapid_fire_session) <= 3
  /\ 1 <= level (game rapid_fire_session)
  /\ max_enemies_on_screen (game rapid_fire_session)
     = Z.max 6 (Z.min MAX_ENEMIES (4 + level (game rapid_fire_session)))
  /\ difficulty_multiplier (game rapid_fire_session)
     = Nat.iter (Z.to_nat (level (game rapid_fire_session) - 1))
         (fun d => (d + 0.2)%float) 1.0%float.
Proof.
  split; [exact rapid_fire_session_reachable|].
  apply (progression_in_session rapid_fire_session rapid_fire_session_reachable).
Defined.
